(** * HireLoop: the recruiting-pipeline handlers, embedded and verified

    The development follows the repository file by file:

    - [backend/schema.sql]            the tables ([World], the row records);
    - [functions/ingest_webhook.ts]   [Edge.ingest_webhook];
    - [functions/send_sequence.ts]    [Edge.send_sequence];
    - [functions/schedule_meeting.ts] [Edge.schedule_meeting];
    - [functions/screen_resume.ts]    [Edge.mockScreen], [Edge.screen_resume];
    - [functions/xray_search.ts]      [Edge.mockLeads], [Edge.xray_search];
    - [functions/generate_outreach.ts] [Edge.mockOutreach], [Edge.generate_outreach];
    - [functions/pipeline_daemon.ts]  [Edge.pipeline_daemon];
    - [server.js]                     the in-memory demo server, [Demo].

    Every Supabase call is one atomic statement on the tables; a handler is a
    computation in a small state monad over the tables.  What a handler cannot
    decide by itself (the clock, the identifiers and random numbers it draws,
    what a collaborator answers) is an explicit argument. *)

From Stdlib Require Import String Ascii List ZArith QArith Qround Bool Lia DecimalString.
Import ListNotations.
Local Open Scope string_scope.
Local Open Scope Z_scope.

(** ** JavaScript values as far as the handlers look at them *)

(** A JSON field that is read as a string: [None] is an absent (or null)
    field.  The empty string is falsy, every other string is truthy. *)
Definition truthy (v : option string) : bool :=
  match v with
  | None => false
  | Some s => negb (s =? "")%string
  end.

(** [a || b] *)
Definition js_or (a b : option string) : option string :=
  if truthy a then a else b.

(** [n || d] for an optional number: absent and [0] are falsy. *)
Definition num_or (n : option Z) (d : Z) : Z :=
  match n with
  | None => d
  | Some v => if v =? 0 then d else v
  end.

(** [arr.slice(0, e)] for an integer [e]: a negative end counts from the
    back of the array. *)
Definition slice0 {A : Type} (e : Z) (l : list A) : list A :=
  let len := Z.of_nat (length l) in
  let stop := if e <? 0 then Z.max (len + e) 0 else Z.min e len in
  firstn (Z.to_nat stop) l.

(** [featureFlags.includes(f)] *)
Definition includes (flags : list string) (f : string) : bool :=
  existsb (String.eqb f) flags.

(** ** The tables of schema.sql *)

(** [candidates.status]: sourced|contacted|interested|screened|interviewing|offered|hired|rejected *)
Inductive Status : Type :=
| sourced | contacted | interested | screened
| interviewing | offered | hired | rejected.

(** [roles.status]: open|paused|closed *)
Inductive RoleStatus : Type := role_open | role_paused | role_closed.

Record Role : Type := mkRole {
  role_id : string;
  role_title : string;
  role_keywords : list string;      (* parsed_json.keywords *)
  role_status : RoleStatus;
  min_pipeline : option Z           (* int, nullable *)
}.

Record Candidate : Type := mkCandidate {
  cand_id : string;
  cand_role_id : string;
  cand_name : string;
  current_title : option string;
  company : option string;
  location : option string;
  summary : option string;
  culture_score : option Z;
  technical_score : option Z;
  experience_score : option Z;
  fit_score : option Z;
  cand_status : Status
}.

Definition set_status (s : Status) (c : Candidate) : Candidate :=
  mkCandidate (cand_id c) (cand_role_id c) (cand_name c) (current_title c)
    (company c) (location c) (summary c) (culture_score c)
    (technical_score c) (experience_score c) (fit_score c) s.

(** [outreach.meta]: [{}] or the drafted message. *)
Record OutreachResponse : Type := mkOutreachResponse {
  subject : string;
  obody : string
}.

Record Outreach : Type := mkOutreach {
  out_id : string;
  out_candidate_id : string;
  provider : string;
  step : Z;
  last_sent_at : option Z;          (* timestamptz, as epoch milliseconds *)
  next_send_at : option Z;
  meta : option OutreachResponse
}.

(** What a webhook provider posts.  [wp_rest] holds the fields the handler
    never reads. *)
Record WebhookPayload : Type := mkWebhookPayload {
  wp_candidate_id : option string;
  wp_recipient_id : option string;
  wp_event : option string;
  wp_type : option string;
  wp_rest : list (string * string)
}.

(** [engagements.payload] *)
Inductive EngPayload : Type :=
| PWebhook (p : WebhookPayload)
| PSent (prov : string) (mock : bool)
| PScheduled (meetingUrl : string)
| PEmpty.

(** The columns the database fills by itself ([id], [created_at]) are left
    out of an engagement row: no handler reads them. *)
Record Engagement : Type := mkEngagement {
  eng_candidate_id : option string;
  eng_event : option string;        (* sent|opened|replied|scheduled|bounced *)
  eng_payload : EngPayload
}.

(** A row of [config] written by the pipeline daemon.  The key
    [pipeline_${role.id}_${Date.now()}] is kept as the pair it is built from. *)
Record ConfigRow : Type := mkConfigRow {
  cfg_role : string;
  cfg_time : Z;
  cfg_message_title : string;       (* `Pipeline underfilled for role ${role.title}` *)
  cfg_count : Z
}.

(** Requests that leave the process towards a collaborator ([fetch]). *)
Inductive NetCall : Type :=
| FetchOpenAI (about : string)
| FetchGoogleCSE (query : string) (num : Z)
| FetchApollo.

Record World : Type := mkWorld {
  roles : list Role;
  candidates : list Candidate;
  outreach : list Outreach;
  engagements : list Engagement;
  config : list ConfigRow;
  net : list NetCall
}.

(** ** A state monad over the tables *)

Definition M (A : Type) : Type := World -> A * World.

Definition ret {A : Type} (a : A) : M A := fun w => (a, w).

Definition bind {A B : Type} (m : M A) (k : A -> M B) : M B :=
  fun w => let (a, w') := m w in k a w'.

Declare Scope db_scope.
Delimit Scope db_scope with db.
Notation "x <- m ;; k" := (bind m (fun x => k))
  (at level 61, m at next level, right associativity) : db_scope.
Notation "m ;;; k" := (bind m (fun _ => k))
  (at level 61, right associativity) : db_scope.
Local Open Scope db_scope.

(** [.maybeSingle()]: the row when exactly one row matches, [null] when none
    does, and [null] (with an error the handlers do not look at) when several
    do. *)
Definition maybeSingle {A : Type} (rows : list A) : option A :=
  match rows with
  | [r] => Some r
  | _ => None
  end.

Definition id_is (i : string) (c : Candidate) : bool := (cand_id c =? i)%string.

(** [from('candidates').select('*').eq('id', i).maybeSingle()] *)
Definition select_candidate (i : string) : M (option Candidate) :=
  fun w => (maybeSingle (filter (id_is i) (candidates w)), w).

Definition update_status_rows (i : string) (s : Status) (cs : list Candidate)
  : list Candidate :=
  map (fun c => if id_is i c then set_status s c else c) cs.

(** [from('candidates').update({ status: s }).eq('id', i)]: the only filter
    is the identifier.  The value is the [error] field of the answer, which
    is [null] whether or not a row matched. *)
Definition update_candidate_status (i : string) (s : Status) : M (option string) :=
  fun w => (None,
            mkWorld (roles w) (update_status_rows i s (candidates w)) (outreach w)
              (engagements w) (config w) (net w)).

(** [from('candidates').insert(row)] *)
Definition insert_candidate (c : Candidate) : M unit :=
  fun w => (tt, mkWorld (roles w) (candidates w ++ [c]) (outreach w)
                  (engagements w) (config w) (net w)).

(** [from('engagements').insert(row)] *)
Definition insert_engagement (e : Engagement) : M unit :=
  fun w => (tt, mkWorld (roles w) (candidates w) (outreach w)
                  (engagements w ++ [e]) (config w) (net w)).

(** [from('outreach').select('*').eq('candidate_id', i).maybeSingle()] *)
Definition select_outreach (i : string) : M (option Outreach) :=
  fun w => (maybeSingle
              (filter (fun o => (out_candidate_id o =? i)%string) (outreach w)), w).

(** [from('outreach').insert(row)] *)
Definition insert_outreach (o : Outreach) : M unit :=
  fun w => (tt, mkWorld (roles w) (candidates w) (outreach w ++ [o])
                  (engagements w) (config w) (net w)).

(** The range of a column of type [int].  A statement that writes a number
    outside of it is refused by the database as a whole (error 22003), and no
    handler looks at that error. *)
Definition int4 (z : Z) : bool := (-2147483648 <=? z) && (z <=? 2147483647).

Definition int4_column (v : option Z) : bool :=
  match v with
  | Some z => int4 z
  | None => true
  end.

(** [from('outreach').update({ step: st, last_sent_at: t }).eq('id', i)]:
    [step] is an [int] column, so the update is refused, and neither [step]
    nor [last_sent_at] is written, when [st] does not fit. *)
Definition update_outreach_step (i : string) (st : Z) (t : Z) : M unit :=
  fun w => if int4 st
           then (tt, mkWorld (roles w) (candidates w)
                       (map (fun o => if (out_id o =? i)%string
                                      then mkOutreach (out_id o) (out_candidate_id o)
                                             (provider o) st (Some t) (next_send_at o)
                                             (meta o)
                                      else o) (outreach w))
                       (engagements w) (config w) (net w))
           else (tt, w).

(** [from('roles').select('*').eq('status', 'open')] *)
Definition select_open_roles : M (list Role) :=
  fun w => (filter (fun r => match role_status r with role_open => true | _ => false end)
              (roles w), w).

(** [from('roles').select(...).eq('id', i).maybeSingle()] *)
Definition select_role (i : string) : M (option Role) :=
  fun w => (maybeSingle (filter (fun r => (role_id r =? i)%string) (roles w)), w).

(** [from('candidates').select('*', { count: 'exact', head: true }).eq('role_id', i)] *)
Definition count_candidates (i : string) : M Z :=
  fun w => (Z.of_nat (length (filter (fun c => (cand_role_id c =? i)%string)
                                (candidates w))), w).

(** [from('config').insert(row)]: [key] is the primary key, so a row whose
    key is already there is refused (an error nobody looks at). *)
Definition insert_config (r : ConfigRow) : M unit :=
  fun w =>
    let clash := existsb (fun x => (cfg_role x =? cfg_role r)%string
                                   && (cfg_time x =? cfg_time r)) (config w) in
    (tt, mkWorld (roles w) (candidates w) (outreach w) (engagements w)
           (if clash then config w else config w ++ [r]) (net w)).

(** [fetch(url, ...)] *)
Definition fetch (c : NetCall) : M unit :=
  fun w => (tt, mkWorld (roles w) (candidates w) (outreach w) (engagements w)
                  (config w) (net w ++ [c])).

(** ** Requests and responses *)

(** [body = None] is a body that is not JSON.  A body that is JSON is taken
    to be an object. *)
Record Request (P : Type) : Type := mkRequest {
  method : string;
  body : option P
}.
Arguments mkRequest {P} _ _.
Arguments method {P} _.
Arguments body {P} _.

Record ScreenResult : Type := mkScreenResult {
  one_liner : string;
  sr_culture_score : Z;
  sr_technical_score : Z;
  sr_experience_score : Z;
  sr_fit_score : Z;
  top_reasons : list string;
  interview_focus : list string
}.

Record Lead : Type := mkLead {
  lead_name : string;
  lead_title : string;
  lead_company : string;
  lead_location : string;
  lead_public_url : string
}.

Inductive Body : Type :=
| BError (message : string)
| BSuccess
| BMeeting (meetingUrl : string)
| BLeads (leads : list Lead)
| BScreen (r : ScreenResult)
| BOutreach (r : OutreachResponse).

Record Response : Type := mkResponse {
  code : Z;
  rbody : Body
}.

Definition error (c : Z) (msg : string) : Response := mkResponse c (BError msg).
Definition ok (b : Body) : Response := mkResponse 200 b.

(** The status of the candidate [i], when there is one. *)
Definition status_of (i : string) (cs : list Candidate) : option Status :=
  option_map cand_status (find (id_is i) cs).

(** [if (!v) return ...; use v]: the string inside a truthy field. *)
Definition nonempty (v : option string) : option string :=
  if truthy v then v else None.

(** The foreign keys of schema.sql: [engagements.candidate_id] and
    [outreach.candidate_id] reference [candidates(id)], [candidates.role_id]
    references [roles(id)].  An insert that breaks one is refused by the
    database; the handlers never look at that error. *)
Definition candidate_exists (i : string) (w : World) : bool :=
  existsb (id_is i) (candidates w).

Definition role_exists (i : string) (w : World) : bool :=
  existsb (fun r => (role_id r =? i)%string) (roles w).

Definition insert_engagement_fk (e : Engagement) : M unit :=
  fun w =>
    match eng_candidate_id e with
    | Some i => if candidate_exists i w then insert_engagement e w else (tt, w)
    | None => insert_engagement e w
    end.

Definition insert_outreach_fk (o : Outreach) : M unit :=
  fun w => if candidate_exists (out_candidate_id o) w
           then insert_outreach o w else (tt, w).

(** The four score columns of [candidates] are of type [int].  The scores
    are whole numbers here; a score with a fraction would be refused by the
    column as well. *)
Definition scores_fit (c : Candidate) : bool :=
  int4_column (culture_score c) && int4_column (technical_score c)
  && int4_column (experience_score c) && int4_column (fit_score c).

(** The insert of one candidate is refused when the role is not there or
    when a score does not fit its column. *)
Definition insert_candidate_fk (c : Candidate) : M unit :=
  fun w => if role_exists (cand_role_id c) w && scores_fit c
           then insert_candidate c w else (tt, w).

(** [Deno.env]: the keys and the feature flags a function reads at start-up.
    [featureFlags] is [(FEATURE_FLAGS || '').split(',')]. *)
Record Config : Type := mkConfig {
  openAiKey : option string;
  apolloApiKey : option string;
  sendgridApiKey : option string;
  googleCseId : option string;
  googleCseKey : option string;
  featureFlags : list string
}.

(** ** What the remaining handlers need *)

(** Library functions that are taken as given: [String.prototype.toLowerCase]
    and [btoa], which throws ([None]) on a character above U+00FF. *)
Record Builtins : Type := mkBuiltins {
  toLowerCase : string -> string;
  btoa : string -> option string
}.

(** A response whose success body is a value of [A]; [inl msg] is the body
    [{ error: { message: msg } }]. *)
Record Reply (A : Type) : Type := mkReply {
  reply_code : Z;
  reply_body : string + A
}.
Arguments mkReply {A} _ _.
Arguments reply_code {A} _.
Arguments reply_body {A} _.

Definition reject {A : Type} (c : Z) (msg : string) : Reply A := mkReply c (inl msg).
Definition accept {A : Type} (a : A) : Reply A := mkReply 200 (inr a).

(** [v || d] for a string field with a string default. *)
Definition str_or (v : option string) (d : string) : string :=
  match nonempty v with
  | Some s => s
  | None => d
  end.

(** [s.split(' ')[0]] *)
Fixpoint first_word (s : string) : string :=
  match s with
  | EmptyString => ""
  | String c rest => if (c =? " ")%char then "" else String c (first_word rest)
  end.

(** [s.split(' ').join('')] *)
Fixpoint drop_spaces (s : string) : string :=
  match s with
  | EmptyString => ""
  | String c rest => if (c =? " ")%char then drop_spaces rest
                     else String c (drop_spaces rest)
  end.

(** [`${v}`] for a nullable text column and for a nullable int column. *)
Definition show_text (v : option string) : string :=
  match v with
  | Some s => s
  | None => "null"
  end.

Definition show_int (v : option Z) : string :=
  match v with
  | Some z => NilZero.string_of_int (Z.to_int z)
  | None => "null"
  end.

(** [from('candidates').insert(rows)] with an array: one statement, refused
    as a whole when a row breaks the foreign key on [role_id].  The only
    caller writes rows without scores, so the [int] columns refuse none. *)
Definition insert_candidates_fk (rows : list Candidate) : M unit :=
  fun w => if forallb (fun c => role_exists (cand_role_id c) w) rows
           then (tt, mkWorld (roles w) (candidates w ++ rows) (outreach w)
                       (engagements w) (config w) (net w))
           else (tt, w).

(** [from('roles').update({ parsed_json: parsed }).eq('id', i)], as far as
    [Role] keeps the parsed description: its keywords. *)
Definition update_role_keywords (i : string) (kw : list string) : M unit :=
  fun w => (tt, mkWorld
                  (map (fun r => if (role_id r =? i)%string
                                 then mkRole (role_id r) (role_title r) kw
                                        (role_status r) (min_pipeline r)
                                 else r) (roles w))
                  (candidates w) (outreach w) (engagements w) (config w) (net w)).

(** [from('candidates').select('*').eq('role_id', i).in('status', [...])] *)
Definition shortlist_status (s : Status) : bool :=
  match s with
  | interested | screened | interviewing => true
  | _ => false
  end.

(** The rows are given in the order of the table.  The query has no
    [ORDER BY], so the program does not fix the order of its answer; what is
    proved about the answer is which rows it holds. *)
Definition select_shortlist (i : string) : M (list Candidate) :=
  fun w => (filter (fun c => (cand_role_id c =? i)%string && shortlist_status (cand_status c))
              (candidates w), w).

(** ** The edge functions *)
Module Edge.

(** *** ingest_webhook.ts *)

(** [let newStatus = null; if (event === 'opened') ...] *)
Definition newStatus (event : string) : option Status :=
  let s := None in
  let s := if (event =? "opened")%string then Some contacted else s in
  let s := if (event =? "replied")%string then Some interested else s in
  let s := if (event =? "bounced")%string then Some rejected else s in
  s.

Definition ingest_webhook (req : Request WebhookPayload) : M Response :=
  if negb (method req =? "POST")%string then ret (error 405 "Method not allowed")
  else match body req with
  | None => ret (error 400 "Invalid JSON")
  | Some payload =>
    let candidateId := js_or (wp_candidate_id payload) (wp_recipient_id payload) in
    let event := js_or (wp_event payload) (wp_type payload) in
    match nonempty candidateId, nonempty event with
    | Some cid, Some ev =>
      insert_engagement_fk (mkEngagement (Some cid) (Some ev) (PWebhook payload)) ;;;
      match newStatus ev with
      | Some s => update_candidate_status cid s ;;; ret (ok BSuccess)
      | None => ret (ok BSuccess)
      end
    | _, _ => ret (error 400 "Missing candidate_id or event")
    end
  end.

(** *** send_sequence.ts *)

Record SendSequenceRequest : Type := mkSendSequenceRequest {
  ss_candidate_id : option string
}.

Definition send_provider (cfg : Config) : string :=
  if truthy (apolloApiKey cfg) then "apollo"
  else if truthy (sendgridApiKey cfg) then "sendgrid" else "none".

Definition send_mockMode (cfg : Config) : bool :=
  includes (featureFlags cfg) "mock_outreach" || (send_provider cfg =? "none")%string.

(** [// Create or update outreach row].  [now] is [new Date()], [fresh] the
    identifier the database gives to a new outreach row. *)
Definition outreach_step (cfg : Config) (now : Z) (fresh cid : string)
    (existing : option Outreach) : M unit :=
  match existing with
  | None =>
      insert_outreach_fk (mkOutreach fresh cid (send_provider cfg) 1 (Some now) None None)
  | Some ex => update_outreach_step (out_id ex) (step ex + 1) now
  end.

Definition send_sequence (cfg : Config) (now : Z) (fresh : string)
    (req : Request SendSequenceRequest) : M Response :=
  if negb (method req =? "POST")%string then ret (error 405 "Method not allowed")
  else match body req with
  | None => ret (error 400 "Invalid JSON")
  | Some payload =>
    match nonempty (ss_candidate_id payload) with
    | None => ret (error 400 "candidate_id is required")
    | Some cid =>
      candidate <- select_candidate cid ;;
      match candidate with
      | None => ret (error 404 "Candidate not found")
      | Some _ =>
        let prov := send_provider cfg in
        let mockMode := send_mockMode cfg in
        existing <- select_outreach cid ;;
        outreach_step cfg now fresh cid existing ;;;
        update_candidate_status cid contacted ;;;
        insert_engagement_fk (mkEngagement (Some cid) (Some "sent") (PSent prov mockMode)) ;;;
        ret (ok BSuccess)
      end
    end
  end.

(** *** schedule_meeting.ts *)

Record ScheduleRequest : Type := mkScheduleRequest {
  sm_candidate_id : option string
}.

Definition schedule_meeting (req : Request ScheduleRequest) : M Response :=
  if negb (method req =? "POST")%string then ret (error 405 "Method not allowed")
  else match body req with
  | None => ret (error 400 "Invalid JSON")
  | Some b =>
    match nonempty (sm_candidate_id b) with
    | None => ret (error 400 "candidate_id is required")
    | Some cid =>
      let meetingUrl := "https://calendly.com/demo/" ++ cid in
      update_candidate_status cid interviewing ;;;
      insert_engagement_fk (mkEngagement (Some cid) (Some "scheduled") (PScheduled meetingUrl)) ;;;
      ret (ok (BMeeting meetingUrl))
    end
  end.

(** *** screen_resume.ts *)

Record ScreenResumeRequest : Type := mkScreenResumeRequest {
  sr_role_id : option string;
  resume_text : option string
}.

(** [Math.floor(r * k)] for a value [r] of [Math.random()].  The product is
    taken exactly.  JavaScript floors the product rounded to a double, which
    at a few values of [r] is the next integer; for the factors used here
    both lie in [0 .. k - 1], which is what the theorems below state, and at
    the draws they evaluate (0 and 1/2) the product is exact. *)
Definition floor_mul (r : Q) (k : Z) : Z := Qfloor (r * inject_Z k).

(** [const rand = () => Math.floor(Math.random() * 5) + 1] *)
Definition rand (r : Q) : Z := floor_mul r 5 + 1.

(** The four values [Math.random()] returns during one call of
    [mockScreen], in the order of the calls. *)
Record Draws : Type := mkDraws {
  draw_culture : Q;
  draw_technical : Q;
  draw_experience : Q;
  draw_fit : Q
}.

Definition mockScreen (d : Draws) : ScreenResult :=
  let culture := rand (draw_culture d) in
  let technical := rand (draw_technical d) in
  let experience := rand (draw_experience d) in
  let fit := Z.min 100 (culture * 20 + technical * 15 + experience * 15
                        + floor_mul (draw_fit d) 20) in
  mkScreenResult "Seasoned engineer with relevant experience."
    culture technical experience fit
    ["Strong technical background"; "Relevant experience"; "Good cultural fit"]
    ["System design"; "Team collaboration"; "Technical depth"].

(** [callOpenAI]: reads the role, posts the prompt, and returns what the
    collaborator answered, parsed and not checked; [inl msg] is the [Error]
    thrown when the call fails or the answer is not JSON. *)
Definition screen_callOpenAI (answer : string + ScreenResult) (roleId resume : string)
  : M (string + ScreenResult) :=
  select_role roleId ;;;
  fetch (FetchOpenAI resume) ;;;
  ret answer.

Definition screen_mock (cfg : Config) : bool :=
  includes (featureFlags cfg) "mock_screen_resume" || negb (truthy (openAiKey cfg)).

Definition screened_candidate (fresh roleId : string) (result : ScreenResult) : Candidate :=
  mkCandidate fresh roleId "Unknown" (Some "") (Some "") (Some "")
    (Some (one_liner result))
    (Some (sr_culture_score result)) (Some (sr_technical_score result))
    (Some (sr_experience_score result)) (Some (sr_fit_score result))
    screened.

Definition screen_resume (cfg : Config) (d : Draws) (answer : string + ScreenResult)
    (fresh : string) (req : Request ScreenResumeRequest) : M Response :=
  if negb (method req =? "POST")%string then ret (error 405 "Method not allowed")
  else match body req with
  | None => ret (error 400 "Invalid JSON")
  | Some payload =>
    match nonempty (sr_role_id payload), nonempty (resume_text payload) with
    | Some roleId, Some resume =>
      result <- (if screen_mock cfg then ret (inr (mockScreen d))
                 else screen_callOpenAI answer roleId resume) ;;
      match result with
      | inl msg => ret (error 500 msg)
      | inr result =>
        insert_candidate_fk (screened_candidate fresh roleId result) ;;;
        ret (ok (BScreen result))
      end
    | _, _ => ret (error 400 "role_id and resume_text are required")
    end
  end.

(** *** xray_search.ts *)

Record XrayRequest : Type := mkXrayRequest {
  xr_role_id : option string;
  query_overrides : option (list string);
  xr_count : option Z
}.

Definition mockLeads : list Lead :=
  [ mkLead "Grace Hopper" "Senior Backend Engineer" "DemoCo" "Austin, TX" "https://example.com/grace";
    mkLead "Linus Torvalds" "Kernel Developer" "Open Source" "Portland, OR" "https://example.com/linus";
    mkLead "Ada Lovelace" "Software Architect" "MathWorks" "London, UK" "https://example.com/ada" ].

(** [searchGoogle]: one request for [Math.min(limit, 10)] results. *)
Definition searchGoogle (answer : string + list Lead) (query : string) (limit : Z)
  : M (string + list Lead) :=
  fetch (FetchGoogleCSE query (Z.min limit 10)) ;;;
  ret answer.

Definition xray_mock (cfg : Config) : bool :=
  includes (featureFlags cfg) "mock_xray_search"
  || negb (truthy (googleCseKey cfg)) || negb (truthy (googleCseId cfg)).

Definition xray_search (cfg : Config) (answer : string + list Lead)
    (req : Request XrayRequest) : M Response :=
  if negb (method req =? "POST")%string then ret (error 405 "Method not allowed")
  else match body req with
  | None => ret (error 400 "Invalid JSON")
  | Some payload =>
    match nonempty (xr_role_id payload) with
    | None => ret (error 400 "role_id is required")
    | Some roleId =>
      let count := num_or (xr_count payload) 5 in
      role <- select_role roleId ;;
      let keywords :=
        match query_overrides payload with
        | Some q => q
        | None => match role with Some r => role_keywords r | None => [] end
        end in
      if xray_mock cfg then ret (ok (BLeads (slice0 count mockLeads)))
      else
        let query := String.concat " OR " keywords in
        found <- searchGoogle answer query count ;;
        match found with
        | inr leads => ret (ok (BLeads leads))
        | inl msg => ret (error 500 msg)
        end
    end
  end.

(** *** generate_outreach.ts *)

Record OutreachRequest : Type := mkOutreachRequest {
  or_role_id : option string;
  or_candidate_id : option string;
  tone : option string
}.

Definition nl : string := String "010"%char "".

Definition mockOutreach (candidateName : string) : OutreachResponse :=
  mkOutreachResponse "Opportunity to chat about a new role"
    ("Hello " ++ candidateName ++ "," ++ nl ++ nl
     ++ "I hope you’re doing well! I’m reaching out about a senior engineering position that I think aligns with your background. If you’re open to a quick chat, please grab a slot on my calendar here: {{calendly_link}}."
     ++ nl ++ nl ++ "Best regards," ++ nl ++ "HireLoop Recruiter").

Definition outreach_callOpenAI (answer : string + OutreachResponse) (c : Candidate)
  : M (string + OutreachResponse) :=
  fetch (FetchOpenAI (cand_name c)) ;;;
  ret answer.

Definition outreach_mock (cfg : Config) : bool :=
  includes (featureFlags cfg) "mock_outreach" || negb (truthy (openAiKey cfg)).

Definition generate_outreach (cfg : Config) (answer : string + OutreachResponse)
    (fresh : string) (req : Request OutreachRequest) : M Response :=
  if negb (method req =? "POST")%string then ret (error 405 "Method not allowed")
  else match body req with
  | None => ret (error 400 "Invalid JSON")
  | Some payload =>
    match nonempty (or_role_id payload), nonempty (or_candidate_id payload) with
    | Some roleId, Some cid =>
      role <- select_role roleId ;;
      candidate <- select_candidate cid ;;
      match role, candidate with
      | Some _, Some c =>
        result <- (if outreach_mock cfg
                   then ret (inr (mockOutreach (if (cand_name c =? "")%string
                                                then "Candidate" else cand_name c)))
                   else outreach_callOpenAI answer c) ;;
        match result with
        | inl msg => ret (error 500 msg)
        | inr result =>
          insert_outreach_fk (mkOutreach fresh cid "apollo" 1 None None (Some result)) ;;;
          ret (ok (BOutreach result))
        end
      | _, _ => ret (error 404 "Role or candidate not found")
      end
    | _, _ => ret (error 400 "role_id and candidate_id are required")
    end
  end.

(** *** pipeline_daemon.ts *)

(** What one cycle meets from outside, by position of the role in the
    list of open roles: whether the count query came back with an error, and
    the value of [Date.now()]. *)
Record CycleEnv : Type := mkCycleEnv {
  count_error : nat -> bool;
  date_now : nat -> Z
}.

(** The body of the loop, for the [n]-th open role. *)
Definition daemon_role (env : CycleEnv) (n : nat) (role : Role) : M unit :=
  if count_error env n then ret tt
  else
    count <- count_candidates (role_id role) ;;
    if num_or (Some count) 0 <? num_or (min_pipeline role) 0
    then insert_config (mkConfigRow (role_id role) (date_now env n)
                          (role_title role) count)
    else ret tt.

Fixpoint daemon_roles (env : CycleEnv) (n : nat) (rs : list Role) : M unit :=
  match rs with
  | [] => ret tt
  | role :: rest =>
    daemon_role env n role ;;;
    daemon_roles env (S n) rest
  end.

Definition pipeline_daemon (env : CycleEnv) : M Response :=
  open_roles <- select_open_roles ;;
  daemon_roles env 0 open_roles ;;;
  ret (ok BSuccess).

(** *** apollo_enrich.ts *)

(** A lead as the enrichment functions read it: [name] is a string, as the
    interface [Lead] says; a field that is absent is [None]. *)
Record EnrichLead : Type := mkEnrichLead {
  el_name : string;
  el_title : option string;
  el_company : option string;
  el_location : option string;
  el_public_url : option string
}.

(** [{ ...l, email, linkedin, company_domain }] *)
Record EnrichedLead : Type := mkEnrichedLead {
  el_lead : EnrichLead;
  el_email : option string;
  el_linkedin : option string;
  el_company_domain : option string
}.

Record EnrichRequest : Type := mkEnrichRequest {
  er_role_id : option string;
  er_leads : option (list EnrichLead)   (* [None]: absent, or not an array *)
}.

Definition mockEnrich (bi : Builtins) (leads : list EnrichLead) : list EnrichedLead :=
  map (fun l =>
         mkEnrichedLead l
           (Some (toLowerCase bi (first_word (el_name l)) ++ "@example.com"))
           (Some (match nonempty (el_public_url l) with
                  | Some u => u
                  | None => "https://linkedin.com/in/"
                            ++ toLowerCase bi (drop_spaces (el_name l))
                  end))
           (Some (str_or (el_company l) "example" ++ ".com")))
      leads.

(** [callApollo]: one request; [inl msg] is the [Error] thrown when the
    answer is not ok, otherwise the array [data.leads]. *)
Definition callApollo (answer : string + list EnrichedLead) (leads : list EnrichLead)
  : M (string + list EnrichedLead) :=
  fetch FetchApollo ;;;
  ret answer.

Definition enrich_mock (cfg : Config) : bool :=
  includes (featureFlags cfg) "mock_enrich" || negb (truthy (apolloApiKey cfg)).

(** The row inserted for one enriched lead.  The columns [public_url] and
    [linkedin], which the insert also fills, are not part of [Candidate]. *)
Definition sourced_candidate (fresh roleId : string) (lead : EnrichedLead) : Candidate :=
  mkCandidate fresh roleId (el_name (el_lead lead)) None
    (Some (str_or (el_company (el_lead lead)) ""))
    (Some (str_or (el_location (el_lead lead)) ""))
    None None None None None sourced.

(** [enriched.map(...)], with [fresh k] the identifier the database gives to
    the [k]-th row of the statement. *)
Fixpoint sourced_rows (fresh : nat -> string) (k : nat) (roleId : string)
    (enriched : list EnrichedLead) : list Candidate :=
  match enriched with
  | [] => []
  | lead :: rest =>
      sourced_candidate (fresh k) roleId lead :: sourced_rows fresh (S k) roleId rest
  end.

Definition apollo_enrich (bi : Builtins) (cfg : Config)
    (answer : string + list EnrichedLead) (fresh : nat -> string)
    (req : Request EnrichRequest) : M (Reply (list EnrichedLead)) :=
  if negb (method req =? "POST")%string then ret (reject 405 "Method not allowed")
  else match body req with
  | None => ret (reject 400 "Invalid JSON")
  | Some payload =>
    match nonempty (er_role_id payload), er_leads payload with
    | Some roleId, Some leads =>
      enriched <- (if enrich_mock cfg then ret (inr (mockEnrich bi leads))
                   else callApollo answer leads) ;;
      match enriched with
      | inl msg => ret (reject 500 msg)
      | inr enriched =>
        insert_candidates_fk (sourced_rows fresh 0 roleId enriched) ;;;
        ret (accept enriched)
      end
    | _, _ => ret (reject 400 "role_id and leads are required")
    end
  end.

(** *** parse_jd.ts *)

Definition is_upper (c : ascii) : bool :=
  let n := N_of_ascii c in (65 <=? n)%N && (n <=? 90)%N.
Definition is_lower (c : ascii) : bool :=
  let n := N_of_ascii c in (97 <=? n)%N && (n <=? 122)%N.
Definition is_digit (c : ascii) : bool :=
  let n := N_of_ascii c in (48 <=? n)%N && (n <=? 57)%N.

(** [[a-zA-Z0-9\.\+]] *)
Definition in_class (c : ascii) : bool :=
  is_lower c || is_upper c || is_digit c || (c =? ".")%char || (c =? "+")%char.

(** [\w], which decides where [\b] holds. *)
Definition is_word (c : ascii) : bool :=
  is_lower c || is_upper c || is_digit c || (c =? "_")%char.

(** [jd.match(/\b[A-Z][a-zA-Z0-9\.\+]+/g) || []], read from left to right.
    [Idle p]: no match is open and [p] tells whether the character before is
    a word character; [Opened c]: [c] is a capital letter at a word boundary
    and one more character of the class is needed; [Taking acc]: [acc] is
    matched so far and is extended while the characters are in the class.  A
    character that ends or fails a match is outside the class, hence no
    capital letter, and cannot open a match itself. *)
Inductive Scan : Type :=
| Idle (prev_word : bool)
| Opened (c : ascii)
| Taking (acc : string).

Fixpoint regex_words (st : Scan) (s : string) : list string :=
  match s with
  | EmptyString =>
      match st with
      | Taking acc => [acc]
      | _ => []
      end
  | String c rest =>
      match st with
      | Idle prev_word =>
          if is_upper c && negb prev_word then regex_words (Opened c) rest
          else regex_words (Idle (is_word c)) rest
      | Opened c0 =>
          if in_class c then regex_words (Taking (String c0 (String c ""))) rest
          else regex_words (Idle (is_word c)) rest
      | Taking acc =>
          if in_class c then regex_words (Taking (acc ++ String c "")) rest
          else acc :: regex_words (Idle (is_word c)) rest
      end
  end.

Record ParsedJD : Type := mkParsedJD {
  pj_title : string;
  pj_location : string;
  pj_level : string;
  required_skills : list string;
  nice_to_have : list string;
  responsibilities : list string;
  keywords : list string;
  ideal_candidate_summary : string
}.

Definition mockParse (jd : string) : ParsedJD :=
  let words := regex_words (Idle false) jd in
  mkParsedJD "Unknown Title" "" "Mid" [] [] [] (firstn 5 words)
    "An ideal candidate should have relevant experience.".

Record ParseJDRequest : Type := mkParseJDRequest {
  pr_roleId : option string;
  jd_text : option string
}.

Definition parse_callOpenAI (answer : string + ParsedJD) (jd : string)
  : M (string + ParsedJD) :=
  fetch (FetchOpenAI jd) ;;;
  ret answer.

Definition parse_mock (cfg : Config) : bool :=
  includes (featureFlags cfg) "mock_parse_jd" || negb (truthy (openAiKey cfg)).

(** The body of the answer is [{ parsed, keywords: parsed.keywords }]. *)
Definition parse_jd (cfg : Config) (answer : string + ParsedJD)
    (req : Request ParseJDRequest) : M (Reply (ParsedJD * list string)) :=
  if negb (method req =? "POST")%string then ret (reject 405 "Method not allowed")
  else match body req with
  | None => ret (reject 400 "Invalid JSON")
  | Some payload =>
    match nonempty (jd_text payload) with
    | None => ret (reject 400 "jd_text is required")
    | Some jd =>
      parsed <- (if parse_mock cfg then ret (inr (mockParse jd))
                 else parse_callOpenAI answer jd) ;;
      match parsed with
      | inl msg => ret (reject 500 msg)
      | inr parsed =>
        match nonempty (pr_roleId payload) with
        | Some roleId => update_role_keywords roleId (keywords parsed)
        | None => ret tt
        end ;;;
        ret (accept (parsed, keywords parsed))
      end
    end
  end.

(** *** export_shortlist.ts *)

Record ExportRequest : Type := mkExportRequest {
  ex_role_id : option string;
  ex_format : option string
}.

Definition csv_header : string := "name,company,title,location,fit_score".

(** [`${c.name},${c.company},${c.current_title},${c.location},${c.fit_score}`] *)
Definition csv_line (c : Candidate) : string :=
  cand_name c ++ "," ++ show_text (company c) ++ "," ++ show_text (current_title c)
  ++ "," ++ show_text (location c) ++ "," ++ show_int (fit_score c).

(** The body of the answer is [{ url }].  When [btoa] throws, the server
    answers 500. *)
Definition export_shortlist (bi : Builtins) (req : Request ExportRequest)
  : M (Reply string) :=
  if negb (method req =? "POST")%string then ret (reject 405 "Method not allowed")
  else match body req with
  | None => ret (reject 400 "Invalid JSON")
  | Some b =>
    let format := str_or (ex_format b) "csv" in
    match nonempty (ex_role_id b) with
    | None => ret (reject 400 "role_id is required")
    | Some roleId =>
      rows <- select_shortlist roleId ;;
      if (format =? "csv")%string then
        let output := String.concat nl (csv_header :: map csv_line rows) in
        match btoa bi output with
        | Some b64 => ret (accept ("data:text/csv;base64," ++ b64))
        | None => ret (reject 500 "Internal Server Error")
        end
      else ret (accept "")
    end
  end.

End Edge.

(** ** server.js: the in-memory demo server *)
Module Demo.

(** [const store = { ... }]: the arrays the modelled handlers touch. *)
Record Store : Type := mkStore {
  s_candidates : list Candidate;
  s_outreach : list Outreach;
  s_engagements : list Engagement
}.

(** [c.id === body.candidate_id]: an absent field equals no identifier. *)
Definition is_candidate (cid : option string) (c : Candidate) : bool :=
  match cid with
  | Some i => id_is i c
  | None => false
  end.

(** [const cand = store.candidates.find(p); if (cand) cand.status = s]:
    the first element that satisfies [p] is changed in place. *)
Fixpoint assign_status (p : Candidate -> bool) (s : Status) (cs : list Candidate)
  : list Candidate :=
  match cs with
  | [] => []
  | c :: rest => if p c then set_status s c :: rest
                 else c :: assign_status p s rest
  end.

Definition push_engagement (e : Engagement) (st : Store) : Store :=
  mkStore (s_candidates st) (s_outreach st) (s_engagements st ++ [e]).

Definition with_candidates (cs : list Candidate) (st : Store) : Store :=
  mkStore cs (s_outreach st) (s_engagements st).

Record ScreenBody : Type := mkScreenBody { sb_role_id : option string }.

(** [d] holds the four values of [Math.random()], [fresh] is [uuid()]. *)
Definition handleScreenResume (d : Edge.Draws) (fresh : string) (b : ScreenBody)
    (st : Store) : Response * Store :=
  let result :=
    mkScreenResult "Seasoned engineer with relevant experience."
      (Edge.rand (Edge.draw_culture d)) (Edge.rand (Edge.draw_technical d))
      (Edge.rand (Edge.draw_experience d))
      (Edge.floor_mul (Edge.draw_fit d) 100)
      ["Strong technical background"; "Relevant experience"; "Good cultural fit"]
      ["System design"; "Team collaboration"; "Technical depth"] in
  let row :=
    mkCandidate fresh
      (match nonempty (sb_role_id b) with Some r => r | None => "" end)
      "Unknown" None None None (Some (one_liner result))
      (Some (sr_culture_score result)) (Some (sr_technical_score result))
      (Some (sr_experience_score result)) (Some (sr_fit_score result))
      screened in
  (ok (BScreen result), with_candidates (s_candidates st ++ [row]) st).

Record XrayBody : Type := mkXrayBody { xb_count : option Z }.

Definition handleXraySearch (b : XrayBody) (st : Store) : Response * Store :=
  (ok (BLeads (slice0 (num_or (xb_count b) 3) Edge.mockLeads)), st).

Record CandidateBody : Type := mkCandidateBody { cb_candidate_id : option string }.

Definition handleSendSequence (b : CandidateBody) (st : Store) : Response * Store :=
  let st := with_candidates
              (assign_status (is_candidate (cb_candidate_id b)) contacted (s_candidates st)) st in
  (ok BSuccess,
   push_engagement (mkEngagement (cb_candidate_id b) (Some "sent") PEmpty) st).

(** [body.event === 'replied'] *)
Definition event_is (ev : option string) (k : string) : bool :=
  match ev with
  | Some e => (e =? k)%string
  | None => false
  end.

Definition handleIngestWebhook (b : WebhookPayload) (st : Store) : Response * Store :=
  let p := is_candidate (wp_candidate_id b) in
  let cs := s_candidates st in
  let cs := if event_is (wp_event b) "replied" then assign_status p interested cs else cs in
  let cs := if event_is (wp_event b) "opened" then assign_status p contacted cs else cs in
  let cs := if event_is (wp_event b) "bounced" then assign_status p rejected cs else cs in
  (ok BSuccess,
   push_engagement (mkEngagement (wp_candidate_id b) (wp_event b) (PWebhook b))
     (with_candidates cs st)).

Definition handleScheduleMeeting (b : CandidateBody) (st : Store) : Response * Store :=
  let st := with_candidates
              (assign_status (is_candidate (cb_candidate_id b)) interviewing (s_candidates st)) st in
  let meetingUrl := "https://calendly.com/demo/"
                    ++ match cb_candidate_id b with Some i => i | None => "undefined" end in
  (ok (BMeeting meetingUrl),
   push_engagement (mkEngagement (cb_candidate_id b) (Some "scheduled") (PScheduled meetingUrl)) st).

End Demo.

(** ** The state machine of the specification

    sourced -> contacted -> interested -> screened -> interviewing -> offered -> hired,
    and rejected from contacted, interested and screened.  It is written
    down from the specification, to compare the handlers with it; no handler
    consults it. *)
Definition spec_edge (a b : Status) : bool :=
  match a, b with
  | sourced, contacted | contacted, interested | interested, screened
  | screened, interviewing | interviewing, offered | offered, hired => true
  | contacted, rejected | interested, rejected | screened, rejected => true
  | _, _ => false
  end.

(** The position of a status on the happy path. *)
Definition rank (s : Status) : Z :=
  match s with
  | sourced => 0 | contacted => 1 | interested => 2 | screened => 3
  | interviewing => 4 | offered => 5 | hired => 6 | rejected => 7
  end.

(** ** Sample data used by the examples below *)

Definition sample_candidate (i : string) (s : Status) : Candidate :=
  mkCandidate i "role-1" "Alice Johnson" (Some "Software Engineer") (Some "TechCorp")
    (Some "Austin, TX") None (Some 4) (Some 4) (Some 5) (Some 80) s.

Definition sample_role (m : Z) : Role :=
  mkRole "role-1" "Senior Backend Engineer" ["Node.js"; "PostgreSQL"] role_open (Some m).

Definition sample_world (cs : list Candidate) (m : Z) : World :=
  mkWorld [sample_role m] cs [] [] [] [].

Definition post {P : Type} (p : P) : Request P := mkRequest "POST" (Some p).

Definition webhook (cid ev : string) : WebhookPayload :=
  mkWebhookPayload (Some cid) None (Some ev) None [].

Definition no_keys : Config := mkConfig None None None None None [""].
Definition live_keys : Config :=
  mkConfig (Some "sk-live") (Some "apollo-key") None (Some "cse-id") (Some "cse-key") [""].

(** ** The vocabulary of the properties *)

(** What the mapping opened -> contacted, replied -> interested,
    bounced -> rejected means for the candidate [cid], between the rows
    before and after one event [ev]. *)
Definition mapping_applied (ev cid : string) (before after : list Candidate) : Prop :=
  (ev = "opened" -> status_of cid after = Some contacted) /\
  (ev = "replied" -> status_of cid after = Some interested) /\
  (ev = "bounced" -> status_of cid after = Some rejected) /\
  (ev <> "opened" -> ev <> "replied" -> ev <> "bounced" -> after = before) /\
  (forall j, j <> cid -> status_of j after = status_of j before).

(** The operations of the system that write candidate rows, each with what
    it receives from outside. *)
Inductive Op : Type :=
| OpIngest (req : Request WebhookPayload)
| OpSend (cfg : Config) (now : Z) (fresh : string)
         (req : Request Edge.SendSequenceRequest)
| OpSchedule (req : Request Edge.ScheduleRequest)
| OpScreen (cfg : Config) (d : Edge.Draws) (answer : string + ScreenResult)
           (fresh : string) (req : Request Edge.ScreenResumeRequest).

Definition run_op (o : Op) (w : World) : World :=
  match o with
  | OpIngest req => snd (Edge.ingest_webhook req w)
  | OpSend cfg now fresh req => snd (Edge.send_sequence cfg now fresh req w)
  | OpSchedule req => snd (Edge.schedule_meeting req w)
  | OpScreen cfg d answer fresh req => snd (Edge.screen_resume cfg d answer fresh req w)
  end.

Definition run_ops (os : list Op) (w : World) : World :=
  fold_left (fun w o => run_op o w) os w.

(** The statuses some handler writes onto an existing row. *)
Definition written_status (s : Status) : bool :=
  match s with
  | contacted | interested | rejected | interviewing => true
  | _ => false
  end.

(** Every candidate of [before] is still in [after], with the status it had
    or with one of the written statuses. *)
Definition status_step (before after : list Candidate) : Prop :=
  forall j s, status_of j before = Some s ->
    exists s', status_of j after = Some s' /\ (s' = s \/ written_status s' = true).

(** The reading of the specification: an observed change of status is an
    edge of its state machine. *)
Definition follows_state_machine (before after : list Candidate) : Prop :=
  forall j s s', status_of j before = Some s -> status_of j after = Some s' ->
    s' = s \/ spec_edge s s' = true.

(** The reading of the specification: of two status updates that expect
    the same prior status, one reports success and the other a conflict.
    The arguments are the [error] fields of the two answers. *)
Definition exactly_one_succeeds (e1 e2 : option string) : Prop :=
  (e1 = None /\ e2 <> None) \/ (e1 <> None /\ e2 = None).

(** The count the daemon reads for a role: the candidate rows of the role,
    whatever their status. *)
Definition depth (i : string) (cs : list Candidate) : Z :=
  Z.of_nat (length (filter (fun c => (cand_role_id c =? i)%string) cs)).

(** A log row of a role of [rs] that is under its minimum. *)
Definition thin_role_row (rs : list Role) (cs : list Candidate) (row : ConfigRow) : Prop :=
  exists role, In role rs /\
    cfg_role row = role_id role /\
    cfg_message_title row = role_title role /\
    cfg_count row = depth (role_id role) cs /\
    depth (role_id role) cs < num_or (min_pipeline role) 0.

(** The requests sent out between two states of the world. *)
Definition requests_issued (before after : World) : list NetCall :=
  skipn (length (net before)) (net after).

(** What the daemon leaves alone, and what it may add. *)
Definition logs_only (rs : list Role) (w w' : World) : Prop :=
  roles w' = roles w /\ candidates w' = candidates w /\
  outreach w' = outreach w /\ engagements w' = engagements w /\
  net w' = net w /\
  exists added, config w' = (config w ++ added)%list /\
                Forall (thin_role_row rs (candidates w)) added.

(** The log rows written between two states of the world. *)
Definition rows_logged (before after : World) : list ConfigRow :=
  skipn (length (config before)) (config after).

(** Whether a log row of the role [i] written at the time [t] is among
    [rows]: its key is then taken. *)
Definition key_used (i : string) (t : Z) (rows : list ConfigRow) : bool :=
  existsb (fun x => (cfg_role x =? i)%string && (cfg_time x =? t)) rows.

(** The key of a log row: [`pipeline_${role.id}_${Date.now()}`]. *)
Definition cfg_key (row : ConfigRow) : string * Z := (cfg_role row, cfg_time row).

(** The log row of an underfilled role, written at the time [t]. *)
Definition log_row (cs : list Candidate) (role : Role) (t : Z) : ConfigRow :=
  mkConfigRow (role_id role) t (role_title role) (depth (role_id role) cs).

(** The row that [update({ step: existing.step + 1, last_sent_at: now })]
    leaves in place of [ex]. *)
Definition advanced (ex : Outreach) (now : Z) : Outreach :=
  mkOutreach (out_id ex) (out_candidate_id ex) (provider ex) (step ex + 1)
    (Some now) (next_send_at ex) (meta ex).

(** A value of [Math.random()]: at least 0, less than 1. *)
Definition unit_interval (r : Q) : Prop := (0 <= r)%Q /\ (r < 1)%Q.

Definition valid_draws (d : Edge.Draws) : Prop :=
  unit_interval (Edge.draw_culture d) /\ unit_interval (Edge.draw_technical d) /\
  unit_interval (Edge.draw_experience d) /\ unit_interval (Edge.draw_fit d).

(** Sub-scores within 1..5, fit score within 0..100. *)
Definition result_in_range (r : ScreenResult) : Prop :=
  1 <= sr_culture_score r <= 5 /\ 1 <= sr_technical_score r <= 5 /\
  1 <= sr_experience_score r <= 5 /\ 0 <= sr_fit_score r <= 100.

Definition within (lo hi : Z) (v : option Z) : Prop :=
  match v with
  | Some z => lo <= z <= hi
  | None => False
  end.

Definition scores_in_range (c : Candidate) : Prop :=
  within 1 5 (culture_score c) /\ within 1 5 (technical_score c) /\
  within 1 5 (experience_score c) /\ within 0 100 (fit_score c).

Definition screen_request (roleId resume : string) : Request Edge.ScreenResumeRequest :=
  post (Edge.mkScreenResumeRequest (Some roleId) (Some resume)).

Definition half_draws : Edge.Draws := Edge.mkDraws (1#2) (1#2) (1#2) (1#2).

(** An answer a collaborator may give: scores outside the ranges the prompt
    asks for. *)
Definition wild_answer : ScreenResult :=
  mkScreenResult "Overqualified." 7 0 9 250 ["a"; "b"; "c"] ["x"; "y"; "z"].

(** *** Every call of an edge function *)

(** The edge functions, each with what it receives from outside. *)
Inductive Call : Type :=
| CallOp (o : Op)
| CallXray (cfg : Config) (answer : string + list Lead)
           (req : Request Edge.XrayRequest)
| CallOutreach (cfg : Config) (answer : string + OutreachResponse) (fresh : string)
               (req : Request Edge.OutreachRequest)
| CallEnrich (bi : Builtins) (cfg : Config) (answer : string + list Edge.EnrichedLead)
             (fresh : nat -> string) (req : Request Edge.EnrichRequest)
| CallParse (cfg : Config) (answer : string + Edge.ParsedJD)
            (req : Request Edge.ParseJDRequest)
| CallExport (bi : Builtins) (req : Request Edge.ExportRequest)
| CallDaemon (env : Edge.CycleEnv).

Definition run_call (c : Call) (w : World) : World :=
  match c with
  | CallOp o => run_op o w
  | CallXray cfg answer req => snd (Edge.xray_search cfg answer req w)
  | CallOutreach cfg answer fresh req => snd (Edge.generate_outreach cfg answer fresh req w)
  | CallEnrich bi cfg answer fresh req => snd (Edge.apollo_enrich bi cfg answer fresh req w)
  | CallParse cfg answer req => snd (Edge.parse_jd cfg answer req w)
  | CallExport bi req => snd (Edge.export_shortlist bi req w)
  | CallDaemon env => snd (Edge.pipeline_daemon env w)
  end.

Definition run_calls (cs : list Call) (w : World) : World :=
  fold_left (fun w c => run_call c w) cs w.

(** [after] is [before] with rows added at the end. *)
Definition appended {A : Type} (before after : list A) : Prop :=
  exists extra, after = (before ++ extra)%list.

(** [after] holds a row for every row of [before], at the same place and
    related to it by [R], and then new rows. *)
Definition rows_kept {A : Type} (R : A -> A -> Prop) (before after : list A) : Prop :=
  exists updated extra, after = (updated ++ extra)%list /\ Forall2 R before updated.

(** The same candidate row, but for the status. *)
Definition same_but_status (c c' : Candidate) : Prop :=
  set_status (cand_status c) c' = c.

(** The same outreach row, but for the step and the time of the last send. *)
Definition same_but_step (o o' : Outreach) : Prop :=
  out_id o' = out_id o /\ out_candidate_id o' = out_candidate_id o /\
  provider o' = provider o /\ next_send_at o' = next_send_at o /\ meta o' = meta o.

(** The same role, but for the keywords. *)
Definition same_but_keywords (r r' : Role) : Prop :=
  role_id r' = role_id r /\ role_title r' = role_title r /\
  role_status r' = role_status r /\ min_pipeline r' = min_pipeline r.

(** What no call undoes. *)
Definition evolves (w w' : World) : Prop :=
  rows_kept same_but_keywords (roles w) (roles w') /\
  length (roles w') = length (roles w) /\
  rows_kept same_but_status (candidates w) (candidates w') /\
  rows_kept same_but_step (outreach w) (outreach w') /\
  appended (engagements w) (engagements w') /\
  appended (config w) (config w') /\
  appended (net w) (net w').

(** A computation all of whose runs are of that kind. *)
Definition steady {A : Type} (m : M A) : Prop :=
  forall w, evolves w (snd (m w)).

(** Sends to one candidate, one after the other, at the times [nows]. *)
Definition send_times (cfg : Config) (fresh cid : string) (nows : list Z) (w : World)
  : World :=
  fold_left (fun w now =>
               snd (Edge.send_sequence cfg now fresh
                      (post (Edge.mkSendSequenceRequest (Some cid))) w))
            nows w.

(** The outreach records of one candidate, as [select_outreach] filters them. *)
Definition records_of (cid : string) (w : World) : list Outreach :=
  filter (fun o => (out_candidate_id o =? cid)%string) (outreach w).

(** A candidate for whom two messages were drafted. *)
Definition two_drafts : World :=
  mkWorld [sample_role 5] [sample_candidate "c1" sourced]
    [mkOutreach "o1" "c1" "apollo" 1 None None None;
     mkOutreach "o2" "c1" "apollo" 1 None None None] [] [] [].

Definition two_leads : list Edge.EnrichLead :=
  [Edge.mkEnrichLead "Grace Hopper" (Some "Senior Backend Engineer") (Some "DemoCo")
     (Some "Austin, TX") (Some "https://example.com/grace");
   Edge.mkEnrichLead "Ada Lovelace" None None None None].

Definition plain_builtins : Builtins := mkBuiltins (fun s => s) Some.

(** Every character of [s] is a letter, a digit, a dot or a plus sign. *)
Fixpoint all_in_class (s : string) : bool :=
  match s with
  | EmptyString => true
  | String c rest => Edge.in_class c && all_in_class rest
  end.

(** A capital letter followed by one or more characters of the class. *)
Definition keyword_shape (k : string) : Prop :=
  exists c rest, k = String c rest /\ Edge.is_upper c = true /\
                 rest <> "" /\ all_in_class rest = true.

(** [k] occurs in [s]. *)
Definition occurs_in (k s : string) : Prop :=
  exists before after, s = before ++ k ++ after.

(** What the scanner holds of the text it has read. *)
Definition pending (st : Edge.Scan) : string :=
  match st with
  | Edge.Idle _ => ""
  | Edge.Opened c => String c ""
  | Edge.Taking acc => acc
  end.

Definition scan_ok (st : Edge.Scan) : Prop :=
  match st with
  | Edge.Idle _ => True
  | Edge.Opened c => Edge.is_upper c = true
  | Edge.Taking acc => keyword_shape acc
  end.

(** The role [r] with the keywords [kw]. *)
Definition with_keywords (kw : list string) (r : Role) : Role :=
  mkRole (role_id r) (role_title r) kw (role_status r) (min_pipeline r).

(** * Properties *)

(** ** Lemmas on the tables *)

Lemma truthy_Some (s : string) : truthy (Some s) = true <-> s <> "".
Proof.
  unfold truthy. destruct (String.eqb_spec s ""); simpl; split; congruence.
Qed.

Lemma nonempty_Some (v : option string) (s : string) :
  nonempty v = Some s -> v = Some s /\ s <> "".
Proof.
  unfold nonempty. destruct (truthy v) eqn:T; [|discriminate].
  intros ->. split; [reflexivity|]. now apply truthy_Some.
Qed.

Lemma nonempty_intro (s : string) : s <> "" -> nonempty (Some s) = Some s.
Proof.
  intros H. unfold nonempty. apply truthy_Some in H. now rewrite H.
Qed.

Lemma nonempty_None (v : option string) : truthy v = false -> nonempty v = None.
Proof. unfold nonempty. now intros ->. Qed.

Lemma js_or_falsy (a b : option string) :
  truthy a = false -> truthy b = false -> truthy (js_or a b) = false.
Proof. unfold js_or. intros Ha Hb. now rewrite Ha. Qed.

Lemma id_is_set_status (i : string) (s : Status) (c : Candidate) :
  id_is i (set_status s c) = id_is i c.
Proof. reflexivity. Qed.

Lemma status_of_cons (j : string) (c : Candidate) (cs : list Candidate) :
  status_of j (c :: cs) = if id_is j c then Some (cand_status c) else status_of j cs.
Proof. unfold status_of. simpl. now destruct (id_is j c). Qed.

(** An update touches the rows of one identifier, and sets them all. *)
Lemma status_of_update (j i : string) (s : Status) (cs : list Candidate) :
  status_of j (update_status_rows i s cs) =
  if (j =? i)%string then option_map (fun _ => s) (status_of j cs)
  else status_of j cs.
Proof.
  induction cs as [|c cs IH]; simpl.
  - now destruct (j =? i)%string.
  - rewrite !status_of_cons, IH.
    destruct (id_is i c) eqn:Hi; rewrite ?id_is_set_status.
    + destruct (id_is j c) eqn:Hj; [|reflexivity].
      unfold id_is in Hi, Hj. apply String.eqb_eq in Hi, Hj.
      assert (E : j = i) by congruence. rewrite (proj2 (String.eqb_eq j i) E).
      reflexivity.
    + destruct (id_is j c) eqn:Hj; [|reflexivity].
      unfold id_is in Hi, Hj. apply String.eqb_eq in Hj. subst j.
      now rewrite Hi.
Qed.

Lemma status_of_update_same (i : string) (s : Status) (cs : list Candidate) :
  status_of i (update_status_rows i s cs) = option_map (fun _ => s) (status_of i cs).
Proof. now rewrite status_of_update, String.eqb_refl. Qed.

Lemma status_of_update_other (j i : string) (s : Status) (cs : list Candidate) :
  j <> i -> status_of j (update_status_rows i s cs) = status_of j cs.
Proof. intros H. rewrite status_of_update. now rewrite (proj2 (String.eqb_neq j i)). Qed.

Lemma status_of_app (j : string) (cs extra : list Candidate) :
  status_of j (cs ++ extra) =
  match status_of j cs with Some s => Some s | None => status_of j extra end.
Proof.
  induction cs as [|c cs IH]; simpl; [reflexivity|].
  rewrite !status_of_cons. now destruct (id_is j c).
Qed.

Lemma existsb_status_of (i : string) (cs : list Candidate) :
  existsb (id_is i) cs = true <-> exists s, status_of i cs = Some s.
Proof.
  induction cs as [|c cs IH]; simpl.
  - split; [discriminate|]. now intros [s H].
  - rewrite status_of_cons. destruct (id_is i c); simpl; [|exact IH].
    split; [eauto|reflexivity].
Qed.

Lemma existsb_update (i j : string) (s : Status) (cs : list Candidate) :
  existsb (id_is i) (update_status_rows j s cs) = existsb (id_is i) cs.
Proof.
  induction cs as [|c cs IH]; simpl; [reflexivity|].
  rewrite IH. now destruct (id_is j c).
Qed.

Lemma In_status_of (c : Candidate) (cs : list Candidate) :
  In c cs -> exists s, status_of (cand_id c) cs = Some s.
Proof.
  intros H. apply existsb_status_of, existsb_exists.
  exists c. split; [exact H|]. unfold id_is. apply String.eqb_refl.
Qed.

(** With [id] a primary key, the row of an identifier is the only one the
    filter returns. *)
Lemma filter_primary_key (c : Candidate) (cs : list Candidate) :
  NoDup (map cand_id cs) -> In c cs -> filter (id_is (cand_id c)) cs = [c].
Proof.
  induction cs as [|x cs IH]; simpl; [tauto|].
  intros ND [->|Hin]; inversion ND as [|? ? Hx ND']; subst.
  - unfold id_is at 1. rewrite String.eqb_refl. f_equal.
    clear IH ND ND'. induction cs as [|y cs IH]; simpl; [reflexivity|].
    simpl in Hx. unfold id_is at 1.
    destruct (String.eqb_spec (cand_id y) (cand_id c)) as [E|E].
    + exfalso. apply Hx. now left.
    + apply IH. intros H. apply Hx. now right.
  - unfold id_is at 1.
    destruct (String.eqb_spec (cand_id x) (cand_id c)) as [E|E].
    + exfalso. apply Hx. rewrite E. now apply in_map.
    + now apply IH.
Qed.

Lemma status_of_assign (j i : string) (s : Status) (cs : list Candidate) :
  status_of j (Demo.assign_status (id_is i) s cs) =
  if (j =? i)%string then option_map (fun _ => s) (status_of j cs)
  else status_of j cs.
Proof.
  induction cs as [|c cs IH]; simpl.
  - now destruct (j =? i)%string.
  - destruct (id_is i c) eqn:Hi; rewrite !status_of_cons, ?id_is_set_status.
    + unfold id_is in Hi. apply String.eqb_eq in Hi.
      unfold id_is. rewrite Hi, (String.eqb_sym i j).
      now destruct (j =? i)%string.
    + rewrite IH. destruct (id_is j c) eqn:Hj; [|reflexivity].
      unfold id_is in Hi, Hj. apply String.eqb_eq in Hj. subst j.
      now rewrite Hi.
Qed.

(** A request built by [post] passes the method check. *)
Lemma post_is_POST {P : Type} (p : P) :
  negb (method (post p) =? "POST")%string = false.
Proof. reflexivity. Qed.

Lemma post_body {P : Type} (p : P) : body (post p) = Some p.
Proof. reflexivity. Qed.

(** Unfolds one handler call on a posted request down to the table
    operations. *)
Ltac enter_handler h :=
  unfold h; rewrite post_is_POST, post_body; unfold bind, ret.

(** ** The event mapping of the ingestor *)

Lemma newStatus_cases (ev : string) :
  (ev = "opened" /\ Edge.newStatus ev = Some contacted) \/
  (ev = "replied" /\ Edge.newStatus ev = Some interested) \/
  (ev = "bounced" /\ Edge.newStatus ev = Some rejected) \/
  (ev <> "opened" /\ ev <> "replied" /\ ev <> "bounced" /\ Edge.newStatus ev = None).
Proof.
  unfold Edge.newStatus.
  destruct (String.eqb_spec ev "bounced") as [->|Hb]; [now right; right; left|].
  destruct (String.eqb_spec ev "replied") as [->|Hr]; [now right; left|].
  destruct (String.eqb_spec ev "opened") as [->|Ho]; [now left|].
  now right; right; right.
Qed.

Lemma mapping_applied_update (ev cid : string) (s s0 : Status) (cs : list Candidate) :
  Edge.newStatus ev = Some s ->
  status_of cid cs = Some s0 ->
  mapping_applied ev cid cs (update_status_rows cid s cs).
Proof.
  intros Hs H0.
  assert (Hc : status_of cid (update_status_rows cid s cs) = Some s)
    by now rewrite status_of_update_same, H0.
  destruct (newStatus_cases ev) as [[-> E]|[[-> E]|[[-> E]|(_ & _ & _ & E)]]];
    rewrite E in Hs; inversion Hs; subst;
    (repeat split; try congruence; try discriminate;
     intros; now apply status_of_update_other).
Qed.

(** C3.  An inbound event that carries a candidate identifier and an event
    kind is recorded as an engagement row, and the status of the candidate it
    names becomes contacted for [opened], interested for [replied] and
    rejected for [bounced]; any other kind leaves the candidates as they were.
    This holds for the edge function (where the identifier may also come as
    [recipient_id] and the kind as [type]) and for the demo server. *)
Theorem ingest_event_mapping :
  (forall (p : WebhookPayload) (cid ev : string) (w : World),
      nonempty (js_or (wp_candidate_id p) (wp_recipient_id p)) = Some cid ->
      nonempty (js_or (wp_event p) (wp_type p)) = Some ev ->
      candidate_exists cid w = true ->
      let r := Edge.ingest_webhook (post p) w in
      fst r = ok BSuccess /\
      engagements (snd r) =
        (engagements w ++ [mkEngagement (Some cid) (Some ev) (PWebhook p)])%list /\
      mapping_applied ev cid (candidates w) (candidates (snd r)))
  /\
  (forall (p : WebhookPayload) (cid ev : string) (st : Demo.Store),
      wp_candidate_id p = Some cid ->
      wp_event p = Some ev ->
      existsb (id_is cid) (Demo.s_candidates st) = true ->
      let r := Demo.handleIngestWebhook p st in
      fst r = ok BSuccess /\
      Demo.s_engagements (snd r) =
        (Demo.s_engagements st ++ [mkEngagement (Some cid) (Some ev) (PWebhook p)])%list /\
      mapping_applied ev cid (Demo.s_candidates st) (Demo.s_candidates (snd r))).
Proof.
  split.
  - intros p cid ev w Hc He Hx r. subst r.
    enter_handler Edge.ingest_webhook.
    rewrite Hc, He. unfold insert_engagement_fk. cbn [eng_candidate_id].
    rewrite Hx.
    destruct (proj1 (existsb_status_of cid (candidates w)) Hx) as [s0 H0].
    destruct (Edge.newStatus ev) as [s|] eqn:Hs; cbn.
    + split; [reflexivity|]. split; [reflexivity|].
      eapply mapping_applied_update; eauto.
    + split; [reflexivity|]. split; [reflexivity|].
      destruct (newStatus_cases ev) as [[_ E]|[[_ E]|[[_ E]|(Ho & Hr & Hb & _)]]];
        try congruence.
      repeat split; congruence.
  - intros p cid ev st Hc He Hx r. subst r.
    unfold Demo.handleIngestWebhook. rewrite Hc, He. cbn.
    destruct (proj1 (existsb_status_of cid _) Hx) as [s0 H0].
    split; [reflexivity|]. split; [reflexivity|].
    assert (A : forall s, status_of cid (Demo.assign_status (id_is cid) s (Demo.s_candidates st)) = Some s)
      by (intros s; now rewrite status_of_assign, String.eqb_refl, H0).
    assert (B : forall s j, j <> cid ->
                status_of j (Demo.assign_status (id_is cid) s (Demo.s_candidates st))
                = status_of j (Demo.s_candidates st))
      by (intros s j Hj; now rewrite status_of_assign, (proj2 (String.eqb_neq j cid))).
    destruct (String.eqb_spec ev "replied") as [->|Hr];
      [cbn; repeat split; intros; try congruence; auto|].
    destruct (String.eqb_spec ev "opened") as [->|Ho];
      [cbn; repeat split; intros; try congruence; auto|].
    destruct (String.eqb_spec ev "bounced") as [->|Hb];
      [cbn; repeat split; intros; try congruence; auto|].
    repeat split; congruence.
Qed.

Lemma ingest_event_mapping_witness :
  (let w := sample_world [sample_candidate "c1" sourced] 5 in
   let r := Edge.ingest_webhook (post (webhook "c1" "replied")) w in
   fst r = ok BSuccess /\
   engagements (snd r) =
     (engagements w ++ [mkEngagement (Some "c1") (Some "replied")
                          (PWebhook (webhook "c1" "replied"))])%list /\
   mapping_applied "replied" "c1" (candidates w) (candidates (snd r)))
  /\
  (let st := Demo.mkStore [sample_candidate "c1" sourced] [] [] in
   let r := Demo.handleIngestWebhook (webhook "c1" "bounced") st in
   fst r = ok BSuccess /\
   Demo.s_engagements (snd r) =
     (Demo.s_engagements st ++ [mkEngagement (Some "c1") (Some "bounced")
                                  (PWebhook (webhook "c1" "bounced"))])%list /\
   mapping_applied "bounced" "c1" (Demo.s_candidates st) (Demo.s_candidates (snd r))).
Proof.
  split.
  - exact (proj1 ingest_event_mapping (webhook "c1" "replied") "c1" "replied"
             (sample_world [sample_candidate "c1" sourced] 5)
             eq_refl eq_refl eq_refl).
  - exact (proj2 ingest_event_mapping (webhook "c1" "bounced") "c1" "bounced"
             (Demo.mkStore [sample_candidate "c1" sourced] [] [])
             eq_refl eq_refl eq_refl).
Defined.

(** ** Malformed notifications *)

(** C7.  A notification that lacks the candidate identifier (neither
    [candidate_id] nor [recipient_id] is a non-empty string) or the event kind
    (neither [event] nor [type]) is answered by the edge function with an
    error, 400 when it was posted, and no table is touched: the world after
    the call is the world before it. *)
Theorem ingest_rejects_malformed :
  forall (req : Request WebhookPayload) (p : WebhookPayload) (w : World),
    body req = Some p ->
    (truthy (wp_candidate_id p) = false /\ truthy (wp_recipient_id p) = false) \/
    (truthy (wp_event p) = false /\ truthy (wp_type p) = false) ->
    let r := Edge.ingest_webhook req w in
    fst r = (if (method req =? "POST")%string
             then error 400 "Missing candidate_id or event"
             else error 405 "Method not allowed")
    /\ snd r = w.
Proof.
  intros req p w Hb Hmiss r. subst r. unfold Edge.ingest_webhook.
  destruct (method req =? "POST")%string; simpl negb; cbv iota;
    [|split; reflexivity].
  rewrite Hb.
  destruct Hmiss as [[H1 H2]|[H1 H2]].
  - rewrite (nonempty_None _ (js_or_falsy _ _ H1 H2)). split; reflexivity.
  - rewrite (nonempty_None (js_or (wp_event p) (wp_type p)) (js_or_falsy _ _ H1 H2)).
    destruct (nonempty (js_or (wp_candidate_id p) (wp_recipient_id p)));
      split; reflexivity.
Qed.

Lemma ingest_rejects_malformed_witness :
  let p := mkWebhookPayload None None (Some "opened") None [] in
  let w := sample_world [sample_candidate "c1" sourced] 5 in
  let r := Edge.ingest_webhook (post p) w in
  fst r = error 400 "Missing candidate_id or event" /\ snd r = w.
Proof.
  exact (ingest_rejects_malformed
           (post (mkWebhookPayload None None (Some "opened") None []))
           (mkWebhookPayload None None (Some "opened") None [])
           (sample_world [sample_candidate "c1" sourced] 5)
           eq_refl (or_introl (conj eq_refl eq_refl))).
Defined.

(** The demo server does not make this check: its handler records whatever
    it is given. *)
Example demo_ingest_records_empty_body :
  Demo.s_engagements
    (snd (Demo.handleIngestWebhook (mkWebhookPayload None None None None [])
            (Demo.mkStore [] [] [])))
  = [mkEngagement None None (PWebhook (mkWebhookPayload None None None None []))].
Proof. reflexivity. Qed.

(** ** Sending a sequence *)

Lemma select_candidate_primary_key (c : Candidate) (w : World) :
  NoDup (map cand_id (candidates w)) -> In c (candidates w) ->
  select_candidate (cand_id c) w = (Some c, w).
Proof.
  intros ND Hin. unfold select_candidate.
  now rewrite (filter_primary_key c _ ND Hin).
Qed.

Lemma outreach_step_frame cfg now fresh cid existing w :
  let w' := snd (Edge.outreach_step cfg now fresh cid existing w) in
  candidates w' = candidates w /\ engagements w' = engagements w /\
  roles w' = roles w /\ config w' = config w /\ net w' = net w.
Proof.
  unfold Edge.outreach_step, insert_outreach_fk, insert_outreach, update_outreach_step.
  destruct existing as [ex|]; cbv beta; cbn [out_candidate_id];
    [destruct (int4 (step ex + 1))|destruct (candidate_exists cid w)];
    cbn; now repeat split.
Qed.

(** What [send_sequence] does once the candidate has been found. *)
Lemma send_sequence_found cfg now fresh (c : Candidate) (w : World) :
  cand_id c <> "" ->
  NoDup (map cand_id (candidates w)) -> In c (candidates w) ->
  let cid := cand_id c in
  let w1 := snd (Edge.outreach_step cfg now fresh cid (fst (select_outreach cid w)) w) in
  Edge.send_sequence cfg now fresh (post (Edge.mkSendSequenceRequest (Some cid))) w =
  (ok BSuccess,
   mkWorld (roles w1) (update_status_rows cid contacted (candidates w1)) (outreach w1)
     (engagements w1 ++ [mkEngagement (Some cid) (Some "sent")
                           (PSent (Edge.send_provider cfg) (Edge.send_mockMode cfg))])
     (config w1) (net w1)).
Proof.
  intros Hne ND Hin cid w1. subst w1.
  enter_handler Edge.send_sequence. cbn [Edge.ss_candidate_id].
  fold cid. rewrite (nonempty_intro cid Hne).
  unfold cid at 1. rewrite (select_candidate_primary_key c w ND Hin). fold cid.
  unfold select_outreach. cbn [fst].
  set (existing := maybeSingle _).
  pose proof (outreach_step_frame cfg now fresh cid existing w) as F.
  destruct (Edge.outreach_step cfg now fresh cid existing w) as [u w1] eqn:E.
  cbn [snd] in *. destruct F as (Fc & Fe & _).
  unfold update_candidate_status, insert_engagement_fk. cbn [eng_candidate_id].
  unfold candidate_exists. cbn [candidates]. rewrite existsb_update, Fc.
  assert (X : existsb (id_is cid) (candidates w) = true).
  { apply existsb_exists. exists c. split; [exact Hin|]. apply String.eqb_refl. }
  rewrite X. reflexivity.
Qed.

(** C10.  For a candidate that exists, whatever its status is, a
    [send_sequence] call answers success, leaves the candidate in status
    contacted and appends one [sent] engagement row for it.  The edge
    function and the demo server agree on this. *)
Theorem send_sequence_forces_contacted :
  (forall (cfg : Config) (now : Z) (fresh : string) (c : Candidate) (w : World),
      cand_id c <> "" ->
      NoDup (map cand_id (candidates w)) ->
      In c (candidates w) ->
      let r := Edge.send_sequence cfg now fresh
                 (post (Edge.mkSendSequenceRequest (Some (cand_id c)))) w in
      fst r = ok BSuccess /\
      status_of (cand_id c) (candidates (snd r)) = Some contacted /\
      engagements (snd r) =
        (engagements w ++ [mkEngagement (Some (cand_id c)) (Some "sent")
                             (PSent (Edge.send_provider cfg) (Edge.send_mockMode cfg))])%list)
  /\
  (forall (c : Candidate) (st : Demo.Store),
      In c (Demo.s_candidates st) ->
      let r := Demo.handleSendSequence (Demo.mkCandidateBody (Some (cand_id c))) st in
      fst r = ok BSuccess /\
      status_of (cand_id c) (Demo.s_candidates (snd r)) = Some contacted /\
      Demo.s_engagements (snd r) =
        (Demo.s_engagements st ++ [mkEngagement (Some (cand_id c)) (Some "sent") PEmpty])%list).
Proof.
  split.
  - intros cfg now fresh c w Hne ND Hin r. subst r.
    rewrite (send_sequence_found cfg now fresh c w Hne ND Hin). cbn [fst snd candidates engagements].
    destruct (outreach_step_frame cfg now fresh (cand_id c)
                (fst (select_outreach (cand_id c) w)) w) as (Fc & Fe & _).
    rewrite Fc, Fe, status_of_update_same.
    destruct (In_status_of c _ Hin) as [s0 ->]. now repeat split.
  - intros c st Hin r. subst r.
    unfold Demo.handleSendSequence, Demo.push_engagement, Demo.with_candidates.
    cbn [fst snd Demo.s_candidates Demo.s_engagements Demo.cb_candidate_id].
    change (Demo.is_candidate (Some (cand_id c))) with (id_is (cand_id c)).
    rewrite status_of_assign, String.eqb_refl.
    destruct (In_status_of c _ Hin) as [s0 ->]. now repeat split.
Qed.

Lemma send_sequence_forces_contacted_witness :
  (let w := sample_world [sample_candidate "c1" hired] 5 in
   let r := Edge.send_sequence no_keys 1000 "o1"
              (post (Edge.mkSendSequenceRequest (Some "c1"))) w in
   fst r = ok BSuccess /\
   status_of "c1" (candidates (snd r)) = Some contacted /\
   engagements (snd r) = [mkEngagement (Some "c1") (Some "sent") (PSent "none" true)])
  /\
  (let st := Demo.mkStore [sample_candidate "c1" rejected] [] [] in
   let r := Demo.handleSendSequence (Demo.mkCandidateBody (Some "c1")) st in
   fst r = ok BSuccess /\
   status_of "c1" (Demo.s_candidates (snd r)) = Some contacted /\
   Demo.s_engagements (snd r) = [mkEngagement (Some "c1") (Some "sent") PEmpty]).
Proof.
  split.
  - refine (proj1 send_sequence_forces_contacted no_keys 1000 "o1"
              (sample_candidate "c1" hired)
              (sample_world [sample_candidate "c1" hired] 5) _ _ _).
    + discriminate.
    + repeat constructor. simpl. tauto.
    + simpl. tauto.
  - refine (proj2 send_sequence_forces_contacted (sample_candidate "c1" rejected)
              (Demo.mkStore [sample_candidate "c1" rejected] [] []) _).
    simpl. tauto.
Defined.

(** ** Status transitions under sequences of operations *)

Lemma status_step_refl cs : status_step cs cs.
Proof. intros j s H. eauto. Qed.

Lemma status_step_trans a b c :
  status_step a b -> status_step b c -> status_step a c.
Proof.
  intros Hab Hbc j s H.
  destruct (Hab j s H) as (s1 & H1 & D1).
  destruct (Hbc j s1 H1) as (s2 & H2 & D2).
  exists s2. split; [exact H2|].
  destruct D2 as [->|D2]; [exact D1|now right].
Qed.

Lemma status_step_update i t cs :
  written_status t = true -> status_step cs (update_status_rows i t cs).
Proof.
  intros Ht j s H. rewrite status_of_update, H.
  destruct (j =? i)%string; simpl; eauto.
Qed.

Lemma status_step_app cs extra : status_step cs (cs ++ extra).
Proof. intros j s H. rewrite status_of_app, H. eauto. Qed.

Lemma newStatus_written ev s : Edge.newStatus ev = Some s -> written_status s = true.
Proof.
  destruct (newStatus_cases ev) as [[_ E]|[[_ E]|[[_ E]|(_ & _ & _ & E)]]];
    rewrite E; intros H; inversion H; reflexivity.
Qed.

Lemma insert_engagement_fk_candidates e w :
  candidates (snd (insert_engagement_fk e w)) = candidates w.
Proof.
  unfold insert_engagement_fk, insert_engagement.
  destruct (eng_candidate_id e) as [i|]; [destruct (candidate_exists i w)|]; reflexivity.
Qed.

Lemma insert_candidate_fk_candidates c w :
  exists extra, candidates (snd (insert_candidate_fk c w)) = (candidates w ++ extra)%list.
Proof.
  unfold insert_candidate_fk, insert_candidate.
  destruct (role_exists (cand_role_id c) w && scores_fit c); cbn.
  - now exists [c].
  - exists []. now rewrite app_nil_r.
Qed.

Lemma ingest_webhook_step req w :
  status_step (candidates w) (candidates (snd (Edge.ingest_webhook req w))).
Proof.
  unfold Edge.ingest_webhook.
  destruct (negb _); [apply status_step_refl|].
  destruct (body req) as [p|]; [|apply status_step_refl].
  destruct (nonempty (js_or (wp_candidate_id p) _)) as [cid|]; [|apply status_step_refl].
  destruct (nonempty (js_or (wp_event p) _)) as [ev|]; [|apply status_step_refl].
  unfold bind.
  pose proof (insert_engagement_fk_candidates
                (mkEngagement (Some cid) (Some ev) (PWebhook p)) w) as F.
  destruct (insert_engagement_fk _ w) as [u w1]. cbn [snd] in F.
  destruct (Edge.newStatus ev) as [s|] eqn:Hs; cbn; rewrite F.
  - apply status_step_update. eapply newStatus_written; eauto.
  - apply status_step_refl.
Qed.

Lemma send_sequence_step cfg now fresh req w :
  status_step (candidates w) (candidates (snd (Edge.send_sequence cfg now fresh req w))).
Proof.
  unfold Edge.send_sequence.
  destruct (negb _); [apply status_step_refl|].
  destruct (body req) as [p|]; [|apply status_step_refl].
  destruct (nonempty _) as [cid|]; [|apply status_step_refl].
  unfold bind, select_candidate.
  destruct (maybeSingle _) as [c|]; [|apply status_step_refl].
  unfold select_outreach.
  set (existing := maybeSingle _).
  pose proof (outreach_step_frame cfg now fresh cid existing w) as F.
  destruct (Edge.outreach_step cfg now fresh cid existing w) as [u w1].
  cbn [snd] in F. destruct F as (Fc & _).
  unfold update_candidate_status.
  rewrite (surjective_pairing (insert_engagement_fk _ _)). cbn [snd ret].
  rewrite insert_engagement_fk_candidates. cbn [candidates]. rewrite Fc.
  now apply status_step_update.
Qed.

Lemma schedule_meeting_step req w :
  status_step (candidates w) (candidates (snd (Edge.schedule_meeting req w))).
Proof.
  unfold Edge.schedule_meeting.
  destruct (negb _); [apply status_step_refl|].
  destruct (body req) as [p|]; [|apply status_step_refl].
  destruct (nonempty _) as [cid|]; [|apply status_step_refl].
  unfold bind, update_candidate_status.
  rewrite (surjective_pairing (insert_engagement_fk _ _)). cbn [snd ret].
  rewrite insert_engagement_fk_candidates. cbn [candidates].
  now apply status_step_update.
Qed.

Lemma screen_resume_step cfg d answer fresh req w :
  status_step (candidates w) (candidates (snd (Edge.screen_resume cfg d answer fresh req w))).
Proof.
  unfold Edge.screen_resume.
  destruct (negb _); [apply status_step_refl|].
  destruct (body req) as [p|]; [|apply status_step_refl].
  destruct (nonempty (Edge.sr_role_id p)) as [roleId|]; [|apply status_step_refl].
  destruct (nonempty (Edge.resume_text p)) as [resume|]; [|apply status_step_refl].
  unfold bind.
  assert (R : forall res w1, candidates w1 = candidates w ->
            status_step (candidates w)
              (candidates (snd (match res with
                                | inl msg => ret (error 500 msg)
                                | inr result =>
                                    fun w2 => let (_, w') :=
                                      insert_candidate_fk
                                        (Edge.screened_candidate fresh roleId result) w2 in
                                      ret (ok (BScreen result)) w'
                                end w1)))).
  { intros [msg|result] w1 E; cbn.
    - rewrite E. apply status_step_refl.
    - destruct (insert_candidate_fk_candidates
                  (Edge.screened_candidate fresh roleId result) w1) as [extra X].
      destruct (insert_candidate_fk _ w1) as [u w2]. cbn [snd ret] in *.
      rewrite X, E. apply status_step_app. }
  destruct (Edge.screen_mock cfg).
  - exact (R (inr (Edge.mockScreen d)) w eq_refl).
  - exact (R answer (mkWorld (roles w) (candidates w) (outreach w) (engagements w)
                       (config w) (net w ++ [FetchOpenAI resume])) eq_refl).
Qed.

Lemma run_op_step o w : status_step (candidates w) (candidates (run_op o w)).
Proof.
  destruct o; simpl.
  - apply ingest_webhook_step.
  - apply send_sequence_step.
  - apply schedule_meeting_step.
  - apply screen_resume_step.
Qed.

Lemma run_ops_step os w : status_step (candidates w) (candidates (run_ops os w)).
Proof.
  revert w. induction os as [|o os IH]; intros w; simpl.
  - apply status_step_refl.
  - eapply status_step_trans; [apply run_op_step|apply IH].
Qed.

Lemma nonempty_js_or_left (s : string) (b : option string) :
  s <> "" -> nonempty (js_or (Some s) b) = Some s.
Proof.
  intros H. unfold js_or. rewrite (proj2 (truthy_Some s) H).
  now apply nonempty_intro.
Qed.

(** The candidate rows after a well-formed webhook call. *)
Lemma ingest_webhook_candidates cid ev w :
  cid <> "" -> ev <> "" ->
  candidates (snd (Edge.ingest_webhook (post (webhook cid ev)) w)) =
  match Edge.newStatus ev with
  | Some s => update_status_rows cid s (candidates w)
  | None => candidates w
  end.
Proof.
  intros Hc He. enter_handler Edge.ingest_webhook. unfold webhook.
  cbn [wp_candidate_id wp_recipient_id wp_event wp_type].
  rewrite (nonempty_js_or_left cid None Hc), (nonempty_js_or_left ev None He).
  pose proof (insert_engagement_fk_candidates
                (mkEngagement (Some cid) (Some ev)
                   (PWebhook (mkWebhookPayload (Some cid) None (Some ev) None []))) w) as F.
  destruct (insert_engagement_fk _ w) as [u w1]. cbn [snd] in F.
  destruct (Edge.newStatus ev); cbn; now rewrite F.
Qed.

Lemma schedule_meeting_candidates cid w :
  cid <> "" ->
  candidates (snd (Edge.schedule_meeting (post (Edge.mkScheduleRequest (Some cid))) w)) =
  update_status_rows cid interviewing (candidates w).
Proof.
  intros Hc. enter_handler Edge.schedule_meeting. cbn [Edge.sm_candidate_id].
  rewrite (nonempty_intro cid Hc). unfold update_candidate_status.
  rewrite (surjective_pairing (insert_engagement_fk _ _)). cbn [snd].
  now rewrite insert_engagement_fk_candidates.
Qed.

(** C1, as the code has it.  Along any sequence of webhook ingestions,
    sequence sends, meeting schedulings and screenings, a candidate keeps its
    identity, and each status observed for it is the one it started with or
    one of contacted, interested, rejected, interviewing.  No handler looks at
    the status it replaces: from any status, each of these four is one
    operation away. *)
Theorem status_moves_to_written_targets :
  (forall (os : list Op) (w : World) (j : string) (s : Status),
      status_of j (candidates w) = Some s ->
      exists s', status_of j (candidates (run_ops os w)) = Some s' /\
                 (s' = s \/ written_status s' = true))
  /\
  (forall (w : World) (j : string) (s t : Status),
      j <> "" ->
      status_of j (candidates w) = Some s ->
      written_status t = true ->
      exists o, status_of j (candidates (run_op o w)) = Some t).
Proof.
  split.
  - intros os w j s H. exact (run_ops_step os w j s H).
  - intros w j s t Hj H Ht.
    assert (I : forall ev, ev <> "" -> Edge.newStatus ev = Some t ->
                status_of j (candidates (run_op (OpIngest (post (webhook j ev))) w)) = Some t).
    { intros ev He Hs. simpl. rewrite (ingest_webhook_candidates j ev w Hj He), Hs.
      now rewrite status_of_update_same, H. }
    destruct t; try discriminate.
    + exists (OpIngest (post (webhook j "opened"))). now apply I.
    + exists (OpIngest (post (webhook j "replied"))). now apply I.
    + exists (OpSchedule (post (Edge.mkScheduleRequest (Some j)))). simpl.
      rewrite (schedule_meeting_candidates j w Hj).
      now rewrite status_of_update_same, H.
    + exists (OpIngest (post (webhook j "bounced"))). now apply I.
Qed.

Lemma status_moves_to_written_targets_witness :
  (exists s',
      status_of "c1"
        (candidates (run_ops [OpIngest (post (webhook "c1" "opened"));
                              OpSchedule (post (Edge.mkScheduleRequest (Some "c1")))]
                       (sample_world [sample_candidate "c1" hired] 5))) = Some s' /\
      (s' = hired \/ written_status s' = true))
  /\
  (exists o,
      status_of "c1"
        (candidates (run_op o (sample_world [sample_candidate "c1" hired] 5)))
      = Some interviewing).
Proof.
  split.
  - exact (proj1 status_moves_to_written_targets
             [OpIngest (post (webhook "c1" "opened"));
              OpSchedule (post (Edge.mkScheduleRequest (Some "c1")))]
             (sample_world [sample_candidate "c1" hired] 5) "c1" hired eq_refl).
  - refine (proj2 status_moves_to_written_targets
              (sample_world [sample_candidate "c1" hired] 5) "c1" hired interviewing
              _ eq_refl eq_refl).
    discriminate.
Defined.

(** C1 fails as stated: an [opened] event on an interested candidate puts
    it back to contacted, which is no edge of the state machine and lies
    before interested on the happy path. *)
Lemma opened_event_reverts_interested :
  let w := sample_world [sample_candidate "c1" interested] 5 in
  let w' := run_ops [OpIngest (post (webhook "c1" "opened"))] w in
  status_of "c1" (candidates w) = Some interested /\
  status_of "c1" (candidates w') = Some contacted /\
  rank contacted < rank interested /\
  ~ follows_state_machine (candidates w) (candidates w').
Proof.
  repeat split.
  intros H. destruct (H "c1" interested contacted eq_refl eq_refl); discriminate.
Qed.

(** Nor are hired and rejected final: scheduling a meeting moves a hired
    candidate to interviewing. *)
Example schedule_reopens_hired :
  status_of "c1"
    (candidates (run_op (OpSchedule (post (Edge.mkScheduleRequest (Some "c1"))))
                   (sample_world [sample_candidate "c1" hired] 5)))
  = Some interviewing.
Proof. reflexivity. Qed.

(** ** Two writers on one candidate *)

Lemma update_status_rows_twice i a b cs :
  update_status_rows i b (update_status_rows i a cs) = update_status_rows i b cs.
Proof.
  unfold update_status_rows. rewrite map_map. apply map_ext. intros c.
  destruct (id_is i c) eqn:E; [|now rewrite E].
  rewrite id_is_set_status, E. reflexivity.
Qed.

Lemma update_status_rows_ids i s cs :
  map cand_id (update_status_rows i s cs) = map cand_id cs.
Proof.
  unfold update_status_rows. rewrite map_map. apply map_ext. intros c.
  now destruct (id_is i c).
Qed.

Lemma update_status_rows_In c s cs :
  In c cs -> In (set_status s c) (update_status_rows (cand_id c) s cs).
Proof.
  intros H. unfold update_status_rows.
  apply in_map_iff. exists c. split; [|exact H].
  unfold id_is. now rewrite String.eqb_refl.
Qed.

Lemma ingest_webhook_response cid ev w :
  cid <> "" -> ev <> "" ->
  fst (Edge.ingest_webhook (post (webhook cid ev)) w) = ok BSuccess.
Proof.
  intros Hc He. enter_handler Edge.ingest_webhook. unfold webhook.
  cbn [wp_candidate_id wp_recipient_id wp_event wp_type].
  rewrite (nonempty_js_or_left cid None Hc), (nonempty_js_or_left ev None He).
  destruct (insert_engagement_fk _ w) as [u w1].
  destruct (Edge.newStatus ev); reflexivity.
Qed.

Lemma send_sequence_candidates cfg now fresh c w :
  cand_id c <> "" -> NoDup (map cand_id (candidates w)) -> In c (candidates w) ->
  let r := Edge.send_sequence cfg now fresh
             (post (Edge.mkSendSequenceRequest (Some (cand_id c)))) w in
  fst r = ok BSuccess /\
  candidates (snd r) = update_status_rows (cand_id c) contacted (candidates w).
Proof.
  intros Hne ND Hin r. subst r.
  rewrite (send_sequence_found cfg now fresh c w Hne ND Hin). cbn [fst snd candidates].
  destruct (outreach_step_frame cfg now fresh (cand_id c)
              (fst (select_outreach (cand_id c) w)) w) as (Fc & _).
  now rewrite Fc.
Qed.

(** C2, as the code has it.  A status update is an unconditional write
    selected by the candidate identifier alone.  Of two updates on one
    candidate, both report no error and the second one decides the stored
    status, whatever the first wrote.  So it is for the handlers: a sequence
    send and a webhook event on the same candidate both answer success in
    either order, and the status is the one the later call writes. *)
Theorem status_update_last_write_wins :
  (forall (i : string) (a b : Status) (w : World),
      let r1 := update_candidate_status i a w in
      let r2 := update_candidate_status i b (snd r1) in
      fst r1 = None /\ fst r2 = None /\
      candidates (snd r2) = update_status_rows i b (candidates w) /\
      status_of i (candidates (snd r2)) =
        option_map (fun _ => b) (status_of i (candidates w)))
  /\
  (forall (cfg : Config) (now : Z) (fresh : string) (c : Candidate) (w : World)
          (ev : string) (t : Status),
      cand_id c <> "" -> ev <> "" ->
      NoDup (map cand_id (candidates w)) -> In c (candidates w) ->
      Edge.newStatus ev = Some t ->
      let send := Edge.send_sequence cfg now fresh
                    (post (Edge.mkSendSequenceRequest (Some (cand_id c)))) in
      let ingest := Edge.ingest_webhook (post (webhook (cand_id c) ev)) in
      (fst (send w) = ok BSuccess /\
       fst (ingest (snd (send w))) = ok BSuccess /\
       status_of (cand_id c) (candidates (snd (ingest (snd (send w))))) = Some t)
      /\
      (fst (ingest w) = ok BSuccess /\
       fst (send (snd (ingest w))) = ok BSuccess /\
       status_of (cand_id c) (candidates (snd (send (snd (ingest w))))) = Some contacted)).
Proof.
  split.
  - intros i a b w r1 r2. subst r1 r2.
    unfold update_candidate_status. cbn [fst snd candidates].
    rewrite update_status_rows_twice, status_of_update_same. now repeat split.
  - intros cfg now fresh c w ev t Hc He ND Hin Hs send ingest. subst send ingest.
    destruct (In_status_of c _ Hin) as [s0 H0].
    split.
    + destruct (send_sequence_candidates cfg now fresh c w Hc ND Hin) as [R1 C1].
      split; [exact R1|]. split; [now apply ingest_webhook_response|].
      rewrite (ingest_webhook_candidates (cand_id c) ev _ Hc He), Hs, C1.
      now rewrite update_status_rows_twice, status_of_update_same, H0.
    + split; [now apply ingest_webhook_response|].
      pose proof (ingest_webhook_candidates (cand_id c) ev w Hc He) as C1.
      rewrite Hs in C1.
      set (w1 := snd (Edge.ingest_webhook (post (webhook (cand_id c) ev)) w)) in *.
      assert (ND1 : NoDup (map cand_id (candidates w1)))
        by now rewrite C1, update_status_rows_ids.
      assert (Hin1 : In (set_status t c) (candidates w1))
        by (rewrite C1; now apply update_status_rows_In).
      destruct (send_sequence_candidates cfg now fresh (set_status t c) w1 Hc ND1 Hin1)
        as [R2 C2].
      cbn [cand_id set_status] in R2, C2.
      split; [exact R2|].
      now rewrite C2, C1, update_status_rows_twice, status_of_update_same, H0.
Qed.

Lemma status_update_last_write_wins_witness :
  let c := sample_candidate "c1" sourced in
  let w := sample_world [c] 5 in
  let send := Edge.send_sequence no_keys 1000 "o1"
                (post (Edge.mkSendSequenceRequest (Some "c1"))) in
  let ingest := Edge.ingest_webhook (post (webhook "c1" "replied")) in
  (fst (send w) = ok BSuccess /\
   fst (ingest (snd (send w))) = ok BSuccess /\
   status_of "c1" (candidates (snd (ingest (snd (send w))))) = Some interested)
  /\
  (fst (ingest w) = ok BSuccess /\
   fst (send (snd (ingest w))) = ok BSuccess /\
   status_of "c1" (candidates (snd (send (snd (ingest w))))) = Some contacted).
Proof.
  refine (proj2 status_update_last_write_wins no_keys 1000 "o1"
            (sample_candidate "c1" sourced)
            (sample_world [sample_candidate "c1" sourced] 5)
            "replied" interested _ _ _ _ eq_refl).
  - discriminate.
  - discriminate.
  - repeat constructor. simpl. tauto.
  - simpl. tauto.
Defined.

(** C2 fails as stated: two updates that both start from sourced both go
    through, neither is told of a conflict, and the later one overwrites the
    transition of the earlier one. *)
Lemma both_status_updates_succeed :
  let w := sample_world [sample_candidate "c1" sourced] 5 in
  let r1 := update_candidate_status "c1" contacted w in
  let r2 := update_candidate_status "c1" interested (snd r1) in
  status_of "c1" (candidates w) = Some sourced /\
  fst r1 = None /\ fst r2 = None /\
  status_of "c1" (candidates (snd r1)) = Some contacted /\
  status_of "c1" (candidates (snd r2)) = Some interested /\
  ~ exactly_one_succeeds (fst r1) (fst r2).
Proof.
  repeat split.
  intros [[_ H]|[H _]]; now apply H.
Qed.

(** ** The pipeline daemon *)

Lemma num_or_count (c : Z) : num_or (Some c) 0 = c.
Proof. unfold num_or. now destruct (Z.eqb_spec c 0). Qed.

Lemma thin_role_row_weaken r rs cs row :
  thin_role_row rs cs row -> thin_role_row (r :: rs) cs row.
Proof. intros (role & H & R). exists role. split; [now right|exact R]. Qed.

Lemma logs_only_refl rs w : logs_only rs w w.
Proof. repeat split. exists []. now rewrite app_nil_r. Qed.

Lemma daemon_role_frame env n role rest w :
  logs_only (role :: rest) w (snd (Edge.daemon_role env n role w)).
Proof.
  unfold Edge.daemon_role. destruct (Edge.count_error env n); [apply logs_only_refl|].
  unfold bind, count_candidates. rewrite num_or_count.
  fold (depth (role_id role) (candidates w)).
  destruct (Z.ltb_spec (depth (role_id role) (candidates w))
              (num_or (min_pipeline role) 0)) as [Hlt|Hge];
    [|apply logs_only_refl].
  unfold insert_config, logs_only.
  cbn [snd roles candidates outreach engagements net config].
  repeat split.
  destruct (existsb _ (config w)).
  - exists []. now rewrite app_nil_r.
  - eexists. split; [reflexivity|]. constructor; [|constructor].
    exists role. cbn [cfg_role cfg_message_title cfg_count].
    repeat split; auto. now left.
Qed.

(** The loop over the roles writes nothing but log rows. *)
Lemma daemon_roles_frame env rs : forall n w,
  logs_only rs w (snd (Edge.daemon_roles env n rs w)).
Proof.
  induction rs as [|role rest IH]; intros n w.
  - apply logs_only_refl.
  - cbn [Edge.daemon_roles]. unfold bind.
    pose proof (daemon_role_frame env n role rest w) as B.
    destruct (Edge.daemon_role env n role w) as [u w1]. cbn [snd] in B.
    specialize (IH (S n) w1).
    destruct (Edge.daemon_roles env (S n) rest w1) as [u2 w2]. cbn [snd] in *.
    destruct B as (Br & Bc & Bo & Be & Bn & added1 & Bcfg & Bf).
    destruct IH as (Ir & Ic & Io & Ie & In_ & added2 & Icfg & If_).
    unfold logs_only. repeat split; try congruence.
    exists (added1 ++ added2)%list. split.
    + rewrite Icfg, Bcfg. now rewrite app_assoc.
    + apply Forall_app. split; [exact Bf|].
      rewrite Bc in If_.
      eapply Forall_impl; [|exact If_]. intros row. apply thin_role_row_weaken.
Qed.

Lemma pipeline_daemon_frame env w :
  fst (Edge.pipeline_daemon env w) = ok BSuccess /\
  logs_only (fst (select_open_roles w)) w (snd (Edge.pipeline_daemon env w)).
Proof.
  unfold Edge.pipeline_daemon, bind, select_open_roles. cbn [fst].
  set (rs := filter _ (roles w)).
  pose proof (daemon_roles_frame env rs 0%nat w) as F.
  destruct (Edge.daemon_roles env 0 rs w) as [u w1]. cbn [fst snd ret] in *.
  split; [reflexivity|exact F].
Qed.

Lemma daemon_role_logs env n role w :
  Edge.count_error env n = false ->
  depth (role_id role) (candidates w) < num_or (min_pipeline role) 0 ->
  exists row, In row (config (snd (Edge.daemon_role env n role w))) /\
              cfg_role row = role_id role /\ cfg_time row = Edge.date_now env n.
Proof.
  intros He Hlt. unfold Edge.daemon_role. rewrite He.
  unfold bind, count_candidates. rewrite num_or_count.
  fold (depth (role_id role) (candidates w)).
  rewrite (proj2 (Z.ltb_lt _ _) Hlt).
  unfold insert_config. cbn [snd config cfg_role cfg_time].
  destruct (existsb _ (config w)) eqn:X.
  - apply existsb_exists in X. destruct X as (row & Hin & Hk).
    apply andb_true_iff in Hk. destruct Hk as [Hr Ht].
    apply String.eqb_eq in Hr. apply Z.eqb_eq in Ht.
    exists row. now repeat split.
  - eexists. split; [apply in_or_app; right; left; reflexivity|]. now split.
Qed.

(** An open, underfilled role whose count was read has its log row at the
    end of the loop. *)
Lemma daemon_roles_logs env rs : forall n w k role,
  nth_error rs k = Some role ->
  Edge.count_error env (n + k) = false ->
  depth (role_id role) (candidates w) < num_or (min_pipeline role) 0 ->
  exists row, In row (config (snd (Edge.daemon_roles env n rs w))) /\
              cfg_role row = role_id role /\
              cfg_time row = Edge.date_now env (n + k).
Proof.
  induction rs as [|r rest IH]; intros n w k role Hk He Hlt.
  - destruct k; discriminate.
  - cbn [Edge.daemon_roles]. unfold bind.
    pose proof (daemon_role_frame env n r rest w) as B.
    destruct k as [|k]; simpl in Hk.
    + inversion Hk; subst r. rewrite Nat.add_0_r in *.
      destruct (daemon_role_logs env n role w He Hlt) as (row & Hin & Hr & Ht).
      destruct (Edge.daemon_role env n role w) as [u w1]. cbn [snd] in *.
      pose proof (daemon_roles_frame env rest (S n) w1) as F.
      destruct (Edge.daemon_roles env (S n) rest w1) as [u2 w2]. cbn [snd] in *.
      destruct F as (_ & _ & _ & _ & _ & added & Fc & _).
      exists row. split; [|now split].
      rewrite Fc. apply in_or_app. now left.
    + destruct (Edge.daemon_role env n r w) as [u w1]. cbn [snd] in *.
      destruct B as (_ & Bc & _).
      rewrite Nat.add_succ_r in *.
      apply (IH (S n) w1 k role Hk He). now rewrite Bc.
Qed.

Lemma skipn_length_app {A : Type} (l m : list A) : skipn (length l) (l ++ m) = m.
Proof. induction l as [|x l IH]; [reflexivity|exact IH]. Qed.

(** Role identifiers that are unique among all roles are unique among the
    selected ones. *)
Lemma selected_roles_unique (keep : Role -> bool) (rs : list Role) :
  NoDup (map role_id rs) -> NoDup (map role_id (filter keep rs)).
Proof.
  induction rs as [|r rs IH]; simpl; intros ND; [exact ND|].
  apply NoDup_cons_iff in ND. destruct ND as [Hn ND].
  destruct (keep r); simpl; [|auto].
  apply NoDup_cons_iff. split; [|auto].
  rewrite in_map_iff. intros (z & Ez & Hz). apply Hn. rewrite <- Ez.
  apply in_map. now apply filter_In in Hz.
Qed.

Lemma key_used_app i t (l m : list ConfigRow) :
  key_used i t (l ++ m) = key_used i t l || key_used i t m.
Proof. unfold key_used. apply existsb_app. Qed.

Lemma key_used_In i t (rows : list ConfigRow) row :
  In row rows -> cfg_role row = i -> cfg_time row = t -> key_used i t rows = true.
Proof.
  intros Hin Hr Ht. unfold key_used. apply existsb_exists. exists row.
  split; [exact Hin|]. rewrite Hr, Ht, String.eqb_refl, Z.eqb_refl. reflexivity.
Qed.

(** What the body of the loop writes: nothing, or the log row of the role,
    and this only when the role is underfilled, its count was read and the
    key is free. *)
Lemma daemon_role_rows env n role w :
  let w' := snd (Edge.daemon_role env n role w) in
  candidates w' = candidates w /\
  ((config w' = config w /\
    (Edge.count_error env n = false ->
     depth (role_id role) (candidates w) < num_or (min_pipeline role) 0 ->
     key_used (role_id role) (Edge.date_now env n) (config w) = true))
   \/
   (config w' = (config w ++ [log_row (candidates w) role (Edge.date_now env n)])%list /\
    Edge.count_error env n = false /\
    depth (role_id role) (candidates w) < num_or (min_pipeline role) 0 /\
    key_used (role_id role) (Edge.date_now env n) (config w) = false)).
Proof.
  cbv zeta. unfold Edge.daemon_role.
  destruct (Edge.count_error env n) eqn:He.
  { split; [reflexivity|]. left. split; [reflexivity|discriminate]. }
  unfold bind, count_candidates. rewrite num_or_count.
  fold (depth (role_id role) (candidates w)).
  destruct (Z.ltb_spec (depth (role_id role) (candidates w))
              (num_or (min_pipeline role) 0)) as [Hlt|Hge].
  2:{ split; [reflexivity|]. left. split; [reflexivity|]. intros _ H. lia. }
  unfold insert_config. cbn [snd candidates config cfg_role cfg_time].
  fold (key_used (role_id role) (Edge.date_now env n) (config w)).
  split; [reflexivity|].
  destruct (key_used (role_id role) (Edge.date_now env n) (config w)) eqn:K.
  - left. now split.
  - right. now repeat split.
Qed.

(** Every row the loop writes is the log row of an underfilled role of the
    list whose count was read, dated at that role's turn, under a key that
    was free before the loop. *)
Lemma daemon_roles_rows env rs : forall n w,
  Forall (fun row => exists k role,
            nth_error rs k = Some role /\
            Edge.count_error env (n + k) = false /\
            depth (role_id role) (candidates w) < num_or (min_pipeline role) 0 /\
            row = log_row (candidates w) role (Edge.date_now env (n + k)) /\
            key_used (cfg_role row) (cfg_time row) (config w) = false)
         (rows_logged w (snd (Edge.daemon_roles env n rs w))).
Proof.
  induction rs as [|role rest IH]; intros n w.
  - unfold rows_logged. cbn. rewrite skipn_all. constructor.
  - cbn [Edge.daemon_roles]. unfold bind.
    destruct (daemon_role_rows env n role w) as [Bc B].
    pose proof (daemon_role_frame env n role rest w) as F1.
    destruct (Edge.daemon_role env n role w) as [u w1]. cbn [snd] in *.
    specialize (IH (S n) w1).
    pose proof (daemon_roles_frame env rest (S n) w1) as F2.
    destruct (Edge.daemon_roles env (S n) rest w1) as [u2 w2]. cbn [snd] in *.
    destruct F2 as (_ & _ & _ & _ & _ & added2 & E2 & _).
    unfold rows_logged in *. rewrite E2 in *. rewrite skipn_length_app in IH.
    assert (T : Forall (fun row => exists k role0,
                  nth_error (role :: rest) k = Some role0 /\
                  Edge.count_error env (n + k) = false /\
                  depth (role_id role0) (candidates w) < num_or (min_pipeline role0) 0 /\
                  row = log_row (candidates w) role0 (Edge.date_now env (n + k)) /\
                  key_used (cfg_role row) (cfg_time row) (config w1) = false) added2).
    { eapply Forall_impl; [|exact IH].
      intros row (k & r & Hk & He & Hlt & Hrow & Hfree).
      exists (S k), r. rewrite Nat.add_succ_r. rewrite Bc in *. now repeat split. }
    clear IH. destruct B as [[E1 _]|(E1 & He & Hlt & K)].
    + rewrite E1 in *. rewrite skipn_length_app. exact T.
    + rewrite E1 in *. rewrite <- app_assoc. rewrite skipn_length_app.
      cbn [app]. constructor.
      * exists 0%nat, role. rewrite Nat.add_0_r. now repeat split.
      * eapply Forall_impl; [|exact T].
        intros row (k & r & Hk & He' & Hlt' & Hrow & Hfree).
        exists k, r. repeat split; auto.
        rewrite key_used_app in Hfree. apply orb_false_iff in Hfree. tauto.
Qed.

(** No two rows the loop writes have the same key. *)
Lemma daemon_roles_keys env rs : forall n w,
  NoDup (map cfg_key (rows_logged w (snd (Edge.daemon_roles env n rs w)))).
Proof.
  induction rs as [|role rest IH]; intros n w.
  - unfold rows_logged. cbn. rewrite skipn_all. constructor.
  - cbn [Edge.daemon_roles]. unfold bind.
    destruct (daemon_role_rows env n role w) as [_ B].
    destruct (Edge.daemon_role env n role w) as [u w1]. cbn [snd] in *.
    specialize (IH (S n) w1).
    pose proof (daemon_roles_rows env rest (S n) w1) as R.
    pose proof (daemon_roles_frame env rest (S n) w1) as F2.
    destruct (Edge.daemon_roles env (S n) rest w1) as [u2 w2]. cbn [snd] in *.
    destruct F2 as (_ & _ & _ & _ & _ & added2 & E2 & _).
    unfold rows_logged in *. rewrite E2 in *. rewrite skipn_length_app in IH, R.
    destruct B as [[E1 _]|(E1 & _)]; rewrite E1 in *.
    + now rewrite skipn_length_app.
    + rewrite <- app_assoc, skipn_length_app. cbn [app map].
      constructor; [|exact IH].
      intros Hin. apply in_map_iff in Hin. destruct Hin as (row2 & Ek & Hin2).
      rewrite Forall_forall in R.
      destruct (R row2 Hin2) as (k & r & _ & _ & _ & _ & Hfree).
      unfold cfg_key in Ek. inversion Ek as [[Er Et]].
      rewrite (key_used_In (cfg_role row2) (cfg_time row2) _
                 (log_row (candidates w) role (Edge.date_now env n))) in Hfree;
        [discriminate|apply in_or_app; right; now left|now symmetry|now symmetry].
Qed.

(** An underfilled role of the list whose count was read and whose key is
    free has its log row written, when no two roles of the list share an
    identifier. *)
Lemma daemon_roles_writes env rs : forall n w k role,
  NoDup (map role_id rs) ->
  nth_error rs k = Some role ->
  Edge.count_error env (n + k) = false ->
  depth (role_id role) (candidates w) < num_or (min_pipeline role) 0 ->
  key_used (role_id role) (Edge.date_now env (n + k)) (config w) = false ->
  In (log_row (candidates w) role (Edge.date_now env (n + k)))
     (rows_logged w (snd (Edge.daemon_roles env n rs w))).
Proof.
  induction rs as [|r rest IH]; intros n w k role ND Hk He Hlt K.
  - destruct k; discriminate.
  - cbn [Edge.daemon_roles]. unfold bind.
    destruct (daemon_role_rows env n r w) as [Bc B].
    destruct (Edge.daemon_role env n r w) as [u w1]. cbn [snd] in *.
    pose proof (daemon_roles_frame env rest (S n) w1) as F2.
    inversion ND as [|x l Hnotin ND']; subst x l.
    destruct k as [|k]; simpl in Hk.
    + inversion Hk; subst r. rewrite Nat.add_0_r in *.
      destruct (Edge.daemon_roles env (S n) rest w1) as [u2 w2]. cbn [snd] in *.
      destruct F2 as (_ & _ & _ & _ & _ & added2 & E2 & _).
      unfold rows_logged. rewrite E2.
      destruct B as [[_ C]|(E1 & _)]; [rewrite (C He Hlt) in K; discriminate|].
      rewrite E1, <- app_assoc, skipn_length_app. now left.
    + rewrite Nat.add_succ_r in *.
      assert (Hne : role_id r <> role_id role).
      { intros E. apply Hnotin. rewrite E. apply in_map.
        eapply nth_error_In. exact Hk. }
      assert (K1 : key_used (role_id role) (Edge.date_now env (S (n + k))) (config w1) = false).
      { destruct B as [[E1 _]|(E1 & _)]; rewrite E1; [exact K|].
        rewrite key_used_app, K. unfold key_used, log_row. cbn.
        destruct (String.eqb_spec (role_id r) (role_id role)); [contradiction|reflexivity]. }
      rewrite <- Bc in Hlt.
      pose proof (IH (S n) w1 k role ND' Hk He Hlt K1) as I.
      destruct (Edge.daemon_roles env (S n) rest w1) as [u2 w2]. cbn [snd] in *.
      destruct F2 as (_ & _ & _ & _ & _ & added2 & E2 & _).
      unfold rows_logged in *. rewrite E2 in *. rewrite skipn_length_app in I.
      rewrite Bc in I.
      destruct B as [[E1 _]|(E1 & _)]; rewrite E1.
      * rewrite skipn_length_app. exact I.
      * rewrite <- app_assoc, skipn_length_app. now right.
Qed.

(** C4, as the code has it.  One cycle of the daemon answers success, sends
    no request to any collaborator and creates no candidate: it leaves the
    candidate rows as they are.  All it writes are log rows added to
    [config], no two under the same key: each is the row of an open role
    whose count was read and is below its [min_pipeline], keyed by the role
    and the time of its turn, with the role's title and that count, under a
    key no earlier row had.  Every
    such role has a row under its key when the cycle ends; when role
    identifiers are unique, the cycle writes that very row for the role if
    its key was free, and writes no row under the key if it was taken. *)
Theorem daemon_only_logs_thin_roles :
  forall (env : Edge.CycleEnv) (w : World),
    let r := Edge.pipeline_daemon env w in
    let added := rows_logged w (snd r) in
    (fst r = ok BSuccess /\
     requests_issued w (snd r) = [] /\
     candidates (snd r) = candidates w /\
     config (snd r) = (config w ++ added)%list /\
     NoDup (map cfg_key added) /\
     Forall (fun row => exists k role,
               nth_error (fst (select_open_roles w)) k = Some role /\
               In role (roles w) /\ role_status role = role_open /\
               Edge.count_error env k = false /\
               cfg_role row = role_id role /\
               cfg_time row = Edge.date_now env k /\
               cfg_message_title row = role_title role /\
               cfg_count row = depth (role_id role) (candidates w) /\
               cfg_count row < num_or (min_pipeline role) 0 /\
               key_used (cfg_role row) (cfg_time row) (config w) = false) added)
    /\
    (forall (k : nat) (role : Role),
        nth_error (fst (select_open_roles w)) k = Some role ->
        Edge.count_error env k = false ->
        depth (role_id role) (candidates w) < num_or (min_pipeline role) 0 ->
        (exists row, In row (config (snd r)) /\
                     cfg_role row = role_id role /\
                     cfg_time row = Edge.date_now env k)
        /\
        (NoDup (map role_id (roles w)) ->
         key_used (role_id role) (Edge.date_now env k) (config w) = false ->
         In (mkConfigRow (role_id role) (Edge.date_now env k) (role_title role)
               (depth (role_id role) (candidates w))) added)
        /\
        (key_used (role_id role) (Edge.date_now env k) (config w) = true ->
         forall row, In row added ->
                     ~ (cfg_role row = role_id role /\
                        cfg_time row = Edge.date_now env k))).
Proof.
  intros env w r added. subst added r.
  assert (A : Forall (fun row => exists k role,
               nth_error (fst (select_open_roles w)) k = Some role /\
               In role (roles w) /\ role_status role = role_open /\
               Edge.count_error env k = false /\
               cfg_role row = role_id role /\
               cfg_time row = Edge.date_now env k /\
               cfg_message_title row = role_title role /\
               cfg_count row = depth (role_id role) (candidates w) /\
               cfg_count row < num_or (min_pipeline role) 0 /\
               key_used (cfg_role row) (cfg_time row) (config w) = false)
             (rows_logged w (snd (Edge.pipeline_daemon env w)))).
  { unfold Edge.pipeline_daemon, bind, select_open_roles. cbn [fst].
    set (rs := filter _ (roles w)).
    pose proof (daemon_roles_rows env rs 0%nat w) as R.
    destruct (Edge.daemon_roles env 0 rs w) as [u w1]. cbn [snd ret] in *.
    eapply Forall_impl; [|exact R].
    intros row (k & role & Hk & He & Hlt & Hrow & Hfree). cbn [Nat.add] in *.
    pose proof (nth_error_In _ _ Hk) as Hin.
    apply filter_In in Hin. destruct Hin as [Hin Hopen].
    exists k, role. subst row.
    unfold log_row in *. cbn [cfg_role cfg_time cfg_message_title cfg_count] in *.
    repeat split; auto.
    destruct (role_status role); congruence. }
  split.
  - destruct (pipeline_daemon_frame env w) as (R & _ & Fc & _ & _ & Fn & added & Fcfg & _).
    split; [exact R|]. split.
    { unfold requests_issued. rewrite Fn. apply skipn_all. }
    split; [exact Fc|].
    split; [unfold rows_logged; rewrite Fcfg; now rewrite skipn_length_app|].
    split; [|exact A].
    unfold Edge.pipeline_daemon, bind, select_open_roles. cbn [fst].
    set (rs := filter _ (roles w)).
    pose proof (daemon_roles_keys env rs 0%nat w) as K.
    destruct (Edge.daemon_roles env 0 rs w) as [u w1]. exact K.
  - intros k role Hk He Hlt. split; [|split].
    + unfold Edge.pipeline_daemon, bind.
      unfold select_open_roles in *. cbn [fst] in Hk.
      pose proof (daemon_roles_logs env _ 0%nat w k role Hk He Hlt) as L.
      destruct (Edge.daemon_roles env 0 _ w) as [u w1]. exact L.
    + intros ND K.
      unfold Edge.pipeline_daemon, bind.
      unfold select_open_roles in *. cbn [fst] in Hk.
      pose proof (daemon_roles_writes env _ 0%nat w k role
                    (selected_roles_unique _ (roles w) ND) Hk He Hlt K) as L.
      destruct (Edge.daemon_roles env 0 _ w) as [u w1]. exact L.
    + intros K row Hin [Er Et].
      rewrite Forall_forall in A. destruct (A row Hin) as (k' & role' & H).
      destruct H as (_ & _ & _ & _ & _ & _ & _ & _ & _ & Hfree).
      rewrite Er, Et, K in Hfree. discriminate.
Qed.

Lemma daemon_only_logs_thin_roles_witness :
  let env := Edge.mkCycleEnv (fun _ => false) (fun _ => 42) in
  let w := sample_world [sample_candidate "c1" sourced; sample_candidate "c2" contacted] 5 in
  In (mkConfigRow "role-1" 42 "Senior Backend Engineer" 2)
     (rows_logged w (snd (Edge.pipeline_daemon env w))).
Proof.
  refine (proj1 (proj2 (proj2 (daemon_only_logs_thin_roles
                   (Edge.mkCycleEnv (fun _ => false) (fun _ => 42))
                   (sample_world [sample_candidate "c1" sourced;
                                  sample_candidate "c2" contacted] 5))
            0%nat (sample_role 5) eq_refl eq_refl _)) _ eq_refl).
  - reflexivity.
  - repeat constructor. simpl. tauto.
Defined.

(** C4 fails as stated: with [min_pipeline = 5] and two candidates, the
    cycle issues no request at all, where the claim expects one search for
    three leads, and no candidate is created; it writes one log row. *)
Lemma thin_role_gets_no_search :
  let env := Edge.mkCycleEnv (fun _ => false) (fun _ => 42) in
  let w := sample_world [sample_candidate "c1" sourced; sample_candidate "c2" contacted] 5 in
  let w' := snd (Edge.pipeline_daemon env w) in
  depth "role-1" (candidates w) = 2 /\
  requests_issued w w' = [] /\
  (forall q n, requests_issued w w' <> [FetchGoogleCSE q n]) /\
  candidates w' = candidates w /\
  config w' = [mkConfigRow "role-1" 42 "Senior Backend Engineer" 2].
Proof.
  repeat split. intros q n H. discriminate H.
Qed.

(** ** Two cycles in a row *)

(** C6.  Of two consecutive cycles on the same tables, the second sends
    nothing and changes no candidate: outreach rows, engagement rows, the
    requests sent out and every candidate's status are after the second cycle
    what they were after the first. *)
Theorem second_cycle_sends_nothing :
  forall (env1 env2 : Edge.CycleEnv) (w : World),
    let w1 := snd (Edge.pipeline_daemon env1 w) in
    let w2 := snd (Edge.pipeline_daemon env2 w1) in
    requests_issued w1 w2 = [] /\
    outreach w2 = outreach w1 /\
    engagements w2 = engagements w1 /\
    candidates w2 = candidates w1 /\
    (forall j, status_of j (candidates w2) = status_of j (candidates w1)).
Proof.
  intros env1 env2 w w1 w2.
  destruct (pipeline_daemon_frame env2 w1) as (_ & _ & Fc & Fo & Fe & Fn & _).
  fold w2 in Fc, Fo, Fe, Fn.
  split; [unfold requests_issued; rewrite Fn; apply skipn_all|].
  repeat split; auto. intros j. now rewrite Fc.
Qed.

(** ** The outreach record of a send *)

Lemma filter_map_same {A : Type} (p : A -> bool) (f : A -> A) (l : list A) :
  (forall x, p (f x) = p x) -> filter p (map f l) = map f (filter p l).
Proof.
  intros H. induction l as [|x l IH]; simpl; [reflexivity|].
  rewrite H. destruct (p x); simpl; now rewrite IH.
Qed.


Lemma send_sequence_outreach cfg now fresh c w :
  cand_id c <> "" -> NoDup (map cand_id (candidates w)) -> In c (candidates w) ->
  outreach (snd (Edge.send_sequence cfg now fresh
                   (post (Edge.mkSendSequenceRequest (Some (cand_id c)))) w)) =
  outreach (snd (Edge.outreach_step cfg now fresh (cand_id c)
                   (fst (select_outreach (cand_id c) w)) w)).
Proof.
  intros Hne ND Hin.
  now rewrite (send_sequence_found cfg now fresh c w Hne ND Hin).
Qed.




(** ** Score bounds *)

Lemma floor_mul_bounds (r : Q) (k : Z) :
  0 < k -> unit_interval r -> 0 <= Edge.floor_mul r k < k.
Proof.
  intros Hk [H0 H1]. unfold Edge.floor_mul.
  assert (Kq : (0 < inject_Z k)%Q)
    by (change (inject_Z 0 < inject_Z k)%Q; rewrite <- Zlt_Qlt; exact Hk).
  split.
  - rewrite <- (Qfloor_Z 0). apply Qfloor_resp_le.
    apply Qmult_le_0_compat; [exact H0|]. now apply Qlt_le_weak.
  - rewrite Zlt_Qlt.
    apply Qle_lt_trans with (y := (r * inject_Z k)%Q); [apply Qfloor_le|].
    setoid_replace (inject_Z k) with (1 * inject_Z k)%Q at 2 by ring.
    now apply Qmult_lt_compat_r.
Qed.

Lemma rand_bounds (r : Q) : unit_interval r -> 1 <= Edge.rand r <= 5.
Proof.
  intros H. unfold Edge.rand.
  pose proof (floor_mul_bounds r 5 eq_refl H). lia.
Qed.

Lemma mockScreen_in_range (d : Edge.Draws) :
  valid_draws d -> result_in_range (Edge.mockScreen d).
Proof.
  intros (Hc & Ht & He & Hf).
  pose proof (rand_bounds _ Hc) as Bc. pose proof (rand_bounds _ Ht) as Bt.
  pose proof (rand_bounds _ He) as Be.
  pose proof (floor_mul_bounds _ 20 eq_refl Hf) as Bf.
  unfold result_in_range, Edge.mockScreen.
  cbn [sr_culture_score sr_technical_score sr_experience_score sr_fit_score].
  repeat split; lia.
Qed.

Lemma screened_candidate_in_range fresh roleId (r : ScreenResult) :
  result_in_range r <-> scores_in_range (Edge.screened_candidate fresh roleId r).
Proof. reflexivity. Qed.

(** Scores within the ranges fit the [int] columns. *)
Lemma result_in_range_fits fresh roleId (r : ScreenResult) :
  result_in_range r -> scores_fit (Edge.screened_candidate fresh roleId r) = true.
Proof.
  intros (Hc & Ht & He & Hf). unfold scores_fit, int4_column, int4.
  cbn [Edge.screened_candidate culture_score technical_score experience_score fit_score].
  repeat (apply andb_true_iff; split); lia.
Qed.

(** A well-formed screening request in mock mode. *)
Lemma screen_resume_mock cfg d answer fresh roleId resume w :
  valid_draws d ->
  roleId <> "" -> resume <> "" ->
  Edge.screen_mock cfg = true ->
  role_exists roleId w = true ->
  Edge.screen_resume cfg d answer fresh (screen_request roleId resume) w =
  (ok (BScreen (Edge.mockScreen d)),
   mkWorld (roles w)
     (candidates w ++ [Edge.screened_candidate fresh roleId (Edge.mockScreen d)])
     (outreach w) (engagements w) (config w) (net w)).
Proof.
  intros Hd Hr Ht Hm Hx. unfold screen_request.
  enter_handler Edge.screen_resume. cbn [Edge.sr_role_id Edge.resume_text].
  rewrite (nonempty_intro roleId Hr), (nonempty_intro resume Ht), Hm.
  unfold insert_candidate_fk.
  rewrite (result_in_range_fits fresh roleId _ (mockScreen_in_range d Hd)).
  cbn [cand_role_id Edge.screened_candidate].
  now rewrite Hx.
Qed.

(** The same request in live mode: the collaborator is asked once and its
    answer is stored as it comes, when its scores fit the [int] columns. *)
Lemma screen_resume_live cfg d res fresh roleId resume w :
  roleId <> "" -> resume <> "" ->
  Edge.screen_mock cfg = false ->
  role_exists roleId w = true ->
  scores_fit (Edge.screened_candidate fresh roleId res) = true ->
  Edge.screen_resume cfg d (inr res) fresh (screen_request roleId resume) w =
  (ok (BScreen res),
   mkWorld (roles w)
     (candidates w ++ [Edge.screened_candidate fresh roleId res])
     (outreach w) (engagements w) (config w) (net w ++ [FetchOpenAI resume])).
Proof.
  intros Hr Ht Hm Hx Hf. unfold screen_request.
  enter_handler Edge.screen_resume. cbn [Edge.sr_role_id Edge.resume_text].
  rewrite (nonempty_intro roleId Hr), (nonempty_intro resume Ht), Hm.
  unfold Edge.screen_callOpenAI, bind, select_role, fetch, ret, insert_candidate_fk.
  rewrite Hf. cbn [cand_role_id Edge.screened_candidate].
  unfold role_exists in *. cbn [roles]. now rewrite Hx.
Qed.

(** X25.  Every result of [mockScreen] has its three sub-scores within 1..5
    and its fit score within 0..100, and so has the candidate row that a
    screening in mock mode stores, in the edge function and in the demo
    server. *)
Theorem mock_screening_scores_in_range :
  forall (d : Edge.Draws),
    valid_draws d ->
    result_in_range (Edge.mockScreen d)
    /\
    (forall cfg answer fresh roleId resume w,
        roleId <> "" -> resume <> "" ->
        Edge.screen_mock cfg = true ->
        role_exists roleId w = true ->
        exists c,
          candidates (snd (Edge.screen_resume cfg d answer fresh
                             (screen_request roleId resume) w))
          = (candidates w ++ [c])%list /\
          cand_status c = screened /\ scores_in_range c)
    /\
    (forall fresh b st,
        exists c,
          Demo.s_candidates (snd (Demo.handleScreenResume d fresh b st))
          = (Demo.s_candidates st ++ [c])%list /\
          cand_status c = screened /\ scores_in_range c).
Proof.
  intros d Hd. split; [now apply mockScreen_in_range|]. split.
  - intros cfg answer fresh roleId resume w Hr Ht Hm Hx.
    rewrite (screen_resume_mock cfg d answer fresh roleId resume w Hd Hr Ht Hm Hx).
    eexists. split; [reflexivity|]. split; [reflexivity|].
    apply screened_candidate_in_range. now apply mockScreen_in_range.
  - intros fresh b st. unfold Demo.handleScreenResume, Demo.with_candidates.
    cbn [snd Demo.s_candidates].
    eexists. split; [reflexivity|]. split; [reflexivity|].
    destruct Hd as (Hc & Ht & He & Hf).
    pose proof (rand_bounds _ Hc). pose proof (rand_bounds _ Ht).
    pose proof (rand_bounds _ He).
    pose proof (floor_mul_bounds _ 100 eq_refl Hf).
    unfold scores_in_range, within.
    cbn [culture_score technical_score experience_score fit_score
         sr_culture_score sr_technical_score sr_experience_score sr_fit_score].
    repeat split; lia.
Qed.

Lemma half_draws_valid : valid_draws half_draws.
Proof.
  unfold valid_draws, unit_interval, half_draws. simpl.
  repeat split; discriminate || reflexivity.
Defined.

Lemma mock_screening_scores_in_range_witness :
  result_in_range (Edge.mockScreen half_draws) /\
  exists c,
    candidates (snd (Edge.screen_resume no_keys half_draws (inl "unused") "n1"
                       (screen_request "role-1" "ten years of Node.js")
                       (sample_world [] 5)))
    = [c] /\ cand_status c = screened /\ scores_in_range c.
Proof.
  pose proof (mock_screening_scores_in_range half_draws half_draws_valid) as T.
  split; [exact (proj1 T)|].
  refine (proj1 (proj2 T) no_keys (inl "unused") "n1" "role-1" "ten years of Node.js"
            (sample_world [] 5) _ _ eq_refl eq_refl); discriminate.
Defined.

(** C9, at an answer outside the ranges.  In live mode the collaborator's
    answer is parsed and stored without a check: for an answer with culture
    score 7 and fit score 250 the call answers success with these scores and
    the candidate row it stores carries them, so a candidate record produced
    by resume screening has a sub-score outside 1..5 and a fit score outside
    0..100, the range [schema.sql] notes for [fit_score] and the prompt asks
    for. *)
Lemma live_screening_stores_any_score :
  let r := Edge.screen_resume live_keys half_draws (inr wild_answer) "n1"
             (screen_request "role-1" "ten years of Node.js") (sample_world [] 5) in
  fst r = ok (BScreen wild_answer) /\
  candidates (snd r) = [Edge.screened_candidate "n1" "role-1" wild_answer] /\
  culture_score (Edge.screened_candidate "n1" "role-1" wild_answer) = Some 7 /\
  fit_score (Edge.screened_candidate "n1" "role-1" wild_answer) = Some 250 /\
  ~ (forall c, In c (candidates (snd r)) -> scores_in_range c).
Proof.
  repeat split.
  intros H. specialize (H _ (or_introl eq_refl)).
  destruct H as ((_ & H) & _). cbn in H. lia.
Qed.

(** ** Mock mode *)

Lemma xray_search_mock cfg answer req w :
  Edge.xray_mock cfg = true ->
  snd (Edge.xray_search cfg answer req w) = w /\
  forall answer', fst (Edge.xray_search cfg answer' req w)
                  = fst (Edge.xray_search cfg answer req w).
Proof.
  intros Hm. unfold Edge.xray_search.
  destruct (negb _); [now split|].
  destruct (body req) as [p|]; [|now split].
  destruct (nonempty _) as [roleId|]; [|now split].
  unfold bind, select_role. rewrite Hm. now split.
Qed.

Lemma xray_search_mock_leads cfg answer roleId q count w :
  roleId <> "" ->
  Edge.xray_mock cfg = true ->
  fst (Edge.xray_search cfg answer (post (Edge.mkXrayRequest (Some roleId) q count)) w)
  = ok (BLeads (slice0 (num_or count 5) Edge.mockLeads)).
Proof.
  intros Hr Hm. enter_handler Edge.xray_search.
  cbn [Edge.xr_role_id Edge.xr_count Edge.query_overrides].
  rewrite (nonempty_intro roleId Hr). unfold select_role. now rewrite Hm.
Qed.

Lemma generate_outreach_mock cfg answer fresh req w :
  Edge.outreach_mock cfg = true ->
  net (snd (Edge.generate_outreach cfg answer fresh req w)) = net w /\
  forall answer' fresh',
    fst (Edge.generate_outreach cfg answer' fresh' req w)
    = fst (Edge.generate_outreach cfg answer fresh req w).
Proof.
  intros Hm. unfold Edge.generate_outreach.
  destruct (negb _); [now split|].
  destruct (body req) as [p|]; [|now split].
  destruct (nonempty (Edge.or_role_id p)) as [roleId|]; [|now split].
  destruct (nonempty (Edge.or_candidate_id p)) as [cid|]; [|now split].
  unfold bind, select_role, select_candidate.
  destruct (maybeSingle (filter _ (roles w))) as [role|]; [|now split].
  destruct (maybeSingle (filter _ (candidates w))) as [c|]; [|now split].
  rewrite Hm. unfold ret, insert_outreach_fk, insert_outreach. cbn [out_candidate_id].
  destruct (candidate_exists cid w); now split.
Qed.

Lemma screen_resume_mock_any cfg d answer fresh req w :
  Edge.screen_mock cfg = true ->
  net (snd (Edge.screen_resume cfg d answer fresh req w)) = net w /\
  (forall answer' fresh',
      fst (Edge.screen_resume cfg d answer' fresh' req w)
      = fst (Edge.screen_resume cfg d answer fresh req w)) /\
  (forall res, fst (Edge.screen_resume cfg d answer fresh req w) = ok (BScreen res) ->
               res = Edge.mockScreen d).
Proof.
  intros Hm. unfold Edge.screen_resume.
  destruct (negb _); [now repeat split|].
  destruct (body req) as [p|]; [|now repeat split].
  destruct (nonempty (Edge.sr_role_id p)) as [roleId|]; [|now repeat split].
  destruct (nonempty (Edge.resume_text p)) as [resume|]; [|now repeat split].
  rewrite Hm. unfold bind, ret, insert_candidate_fk, insert_candidate.
  cbn [cand_role_id Edge.screened_candidate].
  split; [now destruct (role_exists roleId w && scores_fit _)|].
  split.
  - intros answer' fresh'.
    now destruct (role_exists roleId w
                  && scores_fit (Edge.screened_candidate fresh' roleId (Edge.mockScreen d))),
                 (role_exists roleId w
                  && scores_fit (Edge.screened_candidate fresh roleId (Edge.mockScreen d))).
  - intros res.
    destruct (role_exists roleId w && scores_fit _); cbn [fst];
      intros H; unfold ok in H; congruence.
Qed.

(** C8, as the code has it.  In mock mode no handler sends a request to a
    collaborator, and what a collaborator would have answered plays no part
    in the result.  The leads of [xray_search] are the first [count] canned
    leads and the draft of [generate_outreach] is fixed by the request and the
    stored rows.  The result of [screen_resume] is [mockScreen] of the numbers
    drawn from [Math.random()]: its texts are canned, its scores are not. *)
Theorem mock_mode_results :
  forall (cfg : Config),
    Edge.xray_mock cfg = true ->
    Edge.outreach_mock cfg = true ->
    Edge.screen_mock cfg = true ->
    (forall answer req w,
        snd (Edge.xray_search cfg answer req w) = w /\
        forall answer', fst (Edge.xray_search cfg answer' req w)
                        = fst (Edge.xray_search cfg answer req w))
    /\
    (forall answer roleId q count w,
        roleId <> "" ->
        fst (Edge.xray_search cfg answer
               (post (Edge.mkXrayRequest (Some roleId) q count)) w)
        = ok (BLeads (slice0 (num_or count 5) Edge.mockLeads)))
    /\
    (forall answer fresh req w,
        net (snd (Edge.generate_outreach cfg answer fresh req w)) = net w /\
        forall answer' fresh',
          fst (Edge.generate_outreach cfg answer' fresh' req w)
          = fst (Edge.generate_outreach cfg answer fresh req w))
    /\
    (forall d answer fresh req w,
        net (snd (Edge.screen_resume cfg d answer fresh req w)) = net w /\
        (forall answer' fresh',
            fst (Edge.screen_resume cfg d answer' fresh' req w)
            = fst (Edge.screen_resume cfg d answer fresh req w)) /\
        (forall res,
            fst (Edge.screen_resume cfg d answer fresh req w) = ok (BScreen res) ->
            res = Edge.mockScreen d /\
            one_liner res = "Seasoned engineer with relevant experience." /\
            top_reasons res = ["Strong technical background"; "Relevant experience";
                               "Good cultural fit"] /\
            interview_focus res = ["System design"; "Team collaboration";
                                   "Technical depth"])).
Proof.
  intros cfg Hx Ho Hs. split; [|split; [|split]].
  - intros answer req w. now apply xray_search_mock.
  - intros answer roleId q count w Hr. now apply xray_search_mock_leads.
  - intros answer fresh req w. now apply generate_outreach_mock.
  - intros d answer fresh req w.
    destruct (screen_resume_mock_any cfg d answer fresh req w Hs) as (N & A & R).
    split; [exact N|]. split; [exact A|].
    intros res H. rewrite (R res H). now repeat split.
Qed.

Lemma mock_mode_results_witness :
  fst (Edge.xray_search no_keys (inl "unused")
         (post (Edge.mkXrayRequest (Some "role-1") None (Some 2)))
         (sample_world [] 5))
  = ok (BLeads (slice0 2 Edge.mockLeads)).
Proof.
  refine (proj1 (proj2 (mock_mode_results no_keys eq_refl eq_refl eq_refl))
            (inl "unused") "role-1" None (Some 2) (sample_world [] 5) _).
  discriminate.
Defined.

(** C8 fails as stated: two screening calls in mock mode with the same
    request on the same tables return different scores when
    [Math.random()] returns different numbers; so do two calls of the demo
    server's handler. *)
Lemma mock_screening_is_random :
  let req := screen_request "role-1" "ten years of Node.js" in
  let w := sample_world [] 5 in
  let d1 := Edge.mkDraws 0 0 0 0 in
  let d2 := half_draws in
  Edge.screen_mock no_keys = true /\
  valid_draws d1 /\ valid_draws d2 /\
  fst (Edge.screen_resume no_keys d1 (inl "unused") "n1" req w)
    <> fst (Edge.screen_resume no_keys d2 (inl "unused") "n1" req w) /\
  sr_culture_score (Edge.mockScreen d1) = 1 /\
  sr_culture_score (Edge.mockScreen d2) = 3 /\
  fst (Demo.handleScreenResume d1 "n1" (Demo.mkScreenBody (Some "role-1"))
         (Demo.mkStore [] [] []))
    <> fst (Demo.handleScreenResume d2 "n1" (Demo.mkScreenBody (Some "role-1"))
              (Demo.mkStore [] [] [])).
Proof.
  split; [reflexivity|].
  split; [unfold valid_draws, unit_interval; simpl; repeat split; discriminate || reflexivity|].
  split; [exact half_draws_valid|].
  split; [vm_compute; discriminate|].
  split; [reflexivity|]. split; [reflexivity|].
  vm_compute; discriminate.
Qed.

(** ** What no call undoes *)

Create HintDb ledger.

Lemma appended_refl {A : Type} (l : list A) : appended l l.
Proof. exists []. now rewrite app_nil_r. Qed.

Lemma appended_app {A : Type} (l e : list A) : appended l (l ++ e).
Proof. now exists e. Qed.

Lemma appended_trans {A : Type} (a b c : list A) :
  appended a b -> appended b c -> appended a c.
Proof. intros [e1 ->] [e2 ->]. exists (e1 ++ e2)%list. now rewrite app_assoc. Qed.

Lemma Forall2_same {A : Type} (R : A -> A -> Prop) (l : list A) :
  (forall x, R x x) -> Forall2 R l l.
Proof. intros H. induction l; constructor; auto. Qed.

Lemma Forall2_map_r {A : Type} (R : A -> A -> Prop) (f : A -> A) (l : list A) :
  (forall x, R x (f x)) -> Forall2 R l (map f l).
Proof. intros H. induction l; simpl; constructor; auto. Qed.

Lemma Forall2_chain {A : Type} (R : A -> A -> Prop) :
  (forall x y z, R x y -> R y z -> R x z) ->
  forall a b c, Forall2 R a b -> Forall2 R b c -> Forall2 R a c.
Proof.
  intros T a b c Hab. revert c.
  induction Hab as [|x y a b Hxy Hab IH]; intros c Hbc; inversion Hbc; subst.
  - constructor.
  - constructor; [eapply T; eauto|now apply IH].
Qed.

Section RowsKept.
Context {A : Type} (R : A -> A -> Prop).
Hypothesis R_refl : forall x, R x x.
Hypothesis R_trans : forall x y z, R x y -> R y z -> R x z.

Lemma rows_kept_refl (l : list A) : rows_kept R l l.
Proof.
  exists l, []. split; [now rewrite app_nil_r|]. now apply Forall2_same.
Qed.

Lemma rows_kept_app (l e : list A) : rows_kept R l (l ++ e).
Proof. exists l, e. split; [reflexivity|]. now apply Forall2_same. Qed.

Lemma rows_kept_map (f : A -> A) (l : list A) :
  (forall x, R x (f x)) -> rows_kept R l (map f l).
Proof.
  intros H. exists (map f l), []. split; [now rewrite app_nil_r|].
  now apply Forall2_map_r.
Qed.

Lemma rows_kept_trans (a b c : list A) :
  rows_kept R a b -> rows_kept R b c -> rows_kept R a c.
Proof.
  intros (u1 & e1 & -> & F1) (u2 & e2 & -> & F2).
  apply Forall2_app_inv_l in F2. destruct F2 as (u2a & u2b & Fa & Fb & ->).
  exists u2a, (u2b ++ e2)%list. split; [now rewrite app_assoc|].
  eapply Forall2_chain; eauto.
Qed.
End RowsKept.

Lemma same_but_status_refl c : same_but_status c c.
Proof. now destruct c. Qed.

Lemma same_but_status_trans a b c :
  same_but_status a b -> same_but_status b c -> same_but_status a c.
Proof.
  unfold same_but_status. destruct a, b, c; cbn. intros H1 H2.
  inversion H1; inversion H2; subst. reflexivity.
Qed.

Lemma same_but_status_set s c : same_but_status c (set_status s c).
Proof. now destruct c. Qed.

Lemma same_but_step_refl o : same_but_step o o.
Proof. now repeat split. Qed.

Lemma same_but_step_trans a b c :
  same_but_step a b -> same_but_step b c -> same_but_step a c.
Proof. unfold same_but_step. intuition congruence. Qed.

Lemma same_but_keywords_refl r : same_but_keywords r r.
Proof. now repeat split. Qed.

Lemma same_but_keywords_trans a b c :
  same_but_keywords a b -> same_but_keywords b c -> same_but_keywords a c.
Proof. unfold same_but_keywords. intuition congruence. Qed.

#[local] Hint Resolve appended_refl appended_app
  same_but_status_refl same_but_step_refl same_but_keywords_refl : ledger.

Lemma evolves_refl w : evolves w w.
Proof.
  unfold evolves. repeat split; auto with ledger;
    apply rows_kept_refl; auto with ledger.
Qed.

Lemma evolves_trans a b c : evolves a b -> evolves b c -> evolves a c.
Proof.
  intros (R1 & L1 & C1 & O1 & E1 & G1 & N1) (R2 & L2 & C2 & O2 & E2 & G2 & N2).
  unfold evolves. repeat split.
  - eapply rows_kept_trans; eauto using same_but_keywords_trans.
  - congruence.
  - eapply rows_kept_trans; eauto using same_but_status_trans.
  - eapply rows_kept_trans; eauto using same_but_step_trans.
  - eapply appended_trans; eauto.
  - eapply appended_trans; eauto.
  - eapply appended_trans; eauto.
Qed.

Lemma steady_ret {A : Type} (a : A) : steady (ret a).
Proof. intros w. apply evolves_refl. Qed.

Lemma steady_bind {A B : Type} (m : M A) (k : A -> M B) :
  steady m -> (forall a, steady (k a)) -> steady (bind m k).
Proof.
  intros Hm Hk w. unfold bind. specialize (Hm w).
  destruct (m w) as [a w1]. cbn [snd] in Hm.
  eapply evolves_trans; [exact Hm|apply Hk].
Qed.

(** A statement that only reads. *)
Lemma steady_read {A : Type} (m : M A) : (forall w, snd (m w) = w) -> steady m.
Proof. intros H w. rewrite H. apply evolves_refl. Qed.

(** Proves [evolves] between a world and the same world with some tables
    replaced, from the facts on these tables in the hint base. *)
Ltac tables :=
  unfold evolves; cbn [roles candidates outreach engagements config net];
  repeat split; auto with ledger;
  try (apply rows_kept_refl; auto with ledger).

Lemma steady_update_candidate_status i s : steady (update_candidate_status i s).
Proof.
  intros w. unfold update_candidate_status. cbn [snd]. tables.
  apply rows_kept_map. intros c. destruct (id_is i c); auto with ledger.
  apply same_but_status_set.
Qed.

Lemma steady_insert_engagement_fk e : steady (insert_engagement_fk e).
Proof.
  intros w. unfold insert_engagement_fk, insert_engagement.
  destruct (eng_candidate_id e) as [i|]; [destruct (candidate_exists i w)|];
    cbn [snd]; try apply evolves_refl; tables.
Qed.

Lemma steady_insert_outreach_fk o : steady (insert_outreach_fk o).
Proof.
  intros w. unfold insert_outreach_fk, insert_outreach.
  destruct (candidate_exists _ w); cbn [snd]; [|apply evolves_refl].
  tables. apply rows_kept_app. auto with ledger.
Qed.

Lemma steady_update_outreach_step i st t : steady (update_outreach_step i st t).
Proof.
  intros w. unfold update_outreach_step.
  destruct (int4 st); cbn [snd]; [|apply evolves_refl]. tables.
  apply rows_kept_map. intros o.
  destruct (out_id o =? i)%string; [now repeat split|auto with ledger].
Qed.

Lemma steady_insert_candidate_fk c : steady (insert_candidate_fk c).
Proof.
  intros w. unfold insert_candidate_fk, insert_candidate.
  destruct (role_exists _ w && scores_fit c); cbn [snd]; [|apply evolves_refl].
  tables. apply rows_kept_app. auto with ledger.
Qed.

Lemma steady_insert_candidates_fk rows : steady (insert_candidates_fk rows).
Proof.
  intros w. unfold insert_candidates_fk.
  destruct (forallb _ rows); cbn [snd]; [|apply evolves_refl].
  tables. apply rows_kept_app. auto with ledger.
Qed.

Lemma steady_update_role_keywords i kw : steady (update_role_keywords i kw).
Proof.
  intros w. unfold update_role_keywords. cbn [snd]. tables.
  - apply rows_kept_map. intros r.
    destruct (role_id r =? i)%string; [now repeat split|auto with ledger].
  - apply length_map.
Qed.

Lemma steady_insert_config r : steady (insert_config r).
Proof.
  intros w. unfold insert_config. cbn [snd].
  destruct (existsb _ (config w)); tables.
Qed.

Lemma steady_fetch c : steady (fetch c).
Proof. intros w. unfold fetch. cbn [snd]. tables. Qed.

#[local] Hint Resolve steady_ret steady_update_candidate_status
  steady_insert_engagement_fk steady_insert_outreach_fk steady_update_outreach_step
  steady_insert_candidate_fk steady_insert_candidates_fk steady_update_role_keywords
  steady_insert_config steady_fetch : ledger.

Lemma steady_select_candidate i : steady (select_candidate i).
Proof. now apply steady_read. Qed.
Lemma steady_select_outreach i : steady (select_outreach i).
Proof. now apply steady_read. Qed.
Lemma steady_select_role i : steady (select_role i).
Proof. now apply steady_read. Qed.
Lemma steady_select_open_roles : steady select_open_roles.
Proof. now apply steady_read. Qed.
Lemma steady_count_candidates i : steady (count_candidates i).
Proof. now apply steady_read. Qed.
Lemma steady_select_shortlist i : steady (select_shortlist i).
Proof. now apply steady_read. Qed.

#[local] Hint Resolve steady_select_candidate steady_select_outreach steady_select_role
  steady_select_open_roles steady_count_candidates steady_select_shortlist : ledger.

(** Walks through a handler: every branch is a sequence of statements. *)
Ltac walk :=
  repeat first
    [ apply steady_bind; [|intros ?]
    | progress auto with ledger
    | match goal with
      | |- steady (if ?b then _ else _) => destruct b
      | |- steady (match ?x with _ => _ end) => destruct x
      | |- steady (let _ := _ in _) => cbv zeta
      end ].

Lemma steady_ingest_webhook req : steady (Edge.ingest_webhook req).
Proof. unfold Edge.ingest_webhook. walk. Qed.

Lemma steady_send_sequence cfg now fresh req : steady (Edge.send_sequence cfg now fresh req).
Proof. unfold Edge.send_sequence, Edge.outreach_step. walk. Qed.

Lemma steady_schedule_meeting req : steady (Edge.schedule_meeting req).
Proof. unfold Edge.schedule_meeting. walk. Qed.

Lemma steady_screen_resume cfg d answer fresh req :
  steady (Edge.screen_resume cfg d answer fresh req).
Proof. unfold Edge.screen_resume, Edge.screen_callOpenAI. walk. Qed.

Lemma steady_xray_search cfg answer req : steady (Edge.xray_search cfg answer req).
Proof. unfold Edge.xray_search, Edge.searchGoogle. walk. Qed.

Lemma steady_generate_outreach cfg answer fresh req :
  steady (Edge.generate_outreach cfg answer fresh req).
Proof. unfold Edge.generate_outreach, Edge.outreach_callOpenAI. walk. Qed.

Lemma steady_apollo_enrich bi cfg answer fresh req :
  steady (Edge.apollo_enrich bi cfg answer fresh req).
Proof. unfold Edge.apollo_enrich, Edge.callApollo. walk. Qed.

Lemma steady_parse_jd cfg answer req : steady (Edge.parse_jd cfg answer req).
Proof. unfold Edge.parse_jd, Edge.parse_callOpenAI. walk. Qed.

Lemma steady_export_shortlist bi req : steady (Edge.export_shortlist bi req).
Proof. unfold Edge.export_shortlist. walk. Qed.

Lemma steady_daemon_roles env rs : forall n, steady (Edge.daemon_roles env n rs).
Proof.
  induction rs as [|r rs IH]; intros n; cbn [Edge.daemon_roles].
  - auto with ledger.
  - apply steady_bind; [unfold Edge.daemon_role; walk|intros _; apply IH].
Qed.

Lemma steady_pipeline_daemon env : steady (Edge.pipeline_daemon env).
Proof.
  unfold Edge.pipeline_daemon. apply steady_bind; [auto with ledger|intros rs].
  apply steady_bind; [apply steady_daemon_roles|intros _; auto with ledger].
Qed.

Lemma run_call_evolves c w : evolves w (run_call c w).
Proof.
  destruct c as [o| | | | | |]; cbn [run_call].
  - destruct o; cbn [run_op].
    + apply steady_ingest_webhook.
    + apply steady_send_sequence.
    + apply steady_schedule_meeting.
    + apply steady_screen_resume.
  - apply steady_xray_search.
  - apply steady_generate_outreach.
  - apply steady_apollo_enrich.
  - apply steady_parse_jd.
  - apply steady_export_shortlist.
  - apply steady_pipeline_daemon.
Qed.

Lemma run_calls_evolves cs : forall w, evolves w (run_calls cs w).
Proof.
  induction cs as [|c cs IH]; intros w; cbn.
  - apply evolves_refl.
  - eapply evolves_trans; [apply run_call_evolves|apply IH].
Qed.

Lemma rows_kept_nth {A : Type} (R : A -> A -> Prop) (before after : list A) :
  rows_kept R before after ->
  forall k x, nth_error before k = Some x ->
    exists y, nth_error after k = Some y /\ R x y.
Proof.
  intros (updated & extra & -> & F). induction F as [|a b l l' Hab F IH]; intros k x Hk.
  - destruct k; discriminate.
  - destruct k as [|k]; simpl in *.
    + inversion Hk; subst. eauto.
    + now apply IH.
Qed.

(** X1.  No call deletes, moves or rewrites a candidate: after any sequence
    of calls of the edge functions, every candidate row is still at its place
    in the table and differs from what it was at most in its status. *)
Theorem candidates_only_change_status :
  forall (cs : list Call) (w : World) (k : nat) (c : Candidate),
    nth_error (candidates w) k = Some c ->
    exists c', nth_error (candidates (run_calls cs w)) k = Some c' /\
               set_status (cand_status c) c' = c.
Proof.
  intros cs w k c Hk.
  destruct (run_calls_evolves cs w) as (_ & _ & C & _).
  exact (rows_kept_nth _ _ _ C k c Hk).
Qed.

Lemma candidates_only_change_status_witness :
  exists c',
    nth_error (candidates (run_calls
                 [CallOp (OpIngest (post (webhook "c1" "replied")));
                  CallDaemon (Edge.mkCycleEnv (fun _ => false) (fun _ => 42))]
                 (sample_world [sample_candidate "c1" sourced] 5))) 0 = Some c' /\
    set_status sourced c' = sample_candidate "c1" sourced.
Proof.
  exact (candidates_only_change_status
           [CallOp (OpIngest (post (webhook "c1" "replied")));
            CallDaemon (Edge.mkCycleEnv (fun _ => false) (fun _ => 42))]
           (sample_world [sample_candidate "c1" sourced] 5) 0%nat
           (sample_candidate "c1" sourced) eq_refl).
Defined.

(** X2.  The engagement log, the config log and the list of requests sent
    out only grow: after any sequence of calls each of them is what it was,
    followed by new entries. *)
Theorem logs_are_append_only :
  forall (cs : list Call) (w : World),
    appended (engagements w) (engagements (run_calls cs w)) /\
    appended (config w) (config (run_calls cs w)) /\
    appended (net w) (net (run_calls cs w)).
Proof.
  intros cs w. destruct (run_calls_evolves cs w) as (_ & _ & _ & _ & E & G & N).
  now repeat split.
Qed.

(** X3.  No call deletes an outreach record or a role, and no call changes
    the identifier, candidate, provider, [next_send_at] or [meta] of an
    outreach record, nor the identifier, title, status or [min_pipeline] of a
    role; the number of roles stays the same. *)
Theorem outreach_and_roles_are_kept :
  forall (cs : list Call) (w : World),
    (forall k o, nth_error (outreach w) k = Some o ->
       exists o', nth_error (outreach (run_calls cs w)) k = Some o' /\
                  same_but_step o o') /\
    (forall k r, nth_error (roles w) k = Some r ->
       exists r', nth_error (roles (run_calls cs w)) k = Some r' /\
                  same_but_keywords r r') /\
    length (roles (run_calls cs w)) = length (roles w).
Proof.
  intros cs w. destruct (run_calls_evolves cs w) as (R & L & _ & O & _).
  split; [|split].
  - intros k o. now apply rows_kept_nth.
  - intros k r. now apply rows_kept_nth.
  - exact L.
Qed.

Lemma outreach_and_roles_are_kept_witness :
  exists r',
    nth_error (roles (run_calls
                 [CallParse no_keys (inl "unused")
                    (post (Edge.mkParseJDRequest (Some "role-1") (Some "We use Rust and Go")))]
                 (sample_world [] 5))) 0 = Some r' /\
    same_but_keywords (sample_role 5) r'.
Proof.
  exact (proj1 (proj2 (outreach_and_roles_are_kept
           [CallParse no_keys (inl "unused")
              (post (Edge.mkParseJDRequest (Some "role-1") (Some "We use Rust and Go")))]
           (sample_world [] 5))) 0%nat (sample_role 5) eq_refl).
Defined.

(** ** Requests that are turned away *)

Lemma not_POST (m : string) : m <> "POST" -> negb (m =? "POST")%string = true.
Proof. intros H. now rewrite (proj2 (String.eqb_neq m "POST") H). Qed.

(** X4.  Every edge function that reads a request answers 405 to a method
    other than POST, and 400 to a POST whose body is not JSON; in both cases
    it reads and writes nothing. *)
Theorem bad_requests_change_nothing :
  forall (m : string) (w : World),
    m <> "POST" ->
    (forall b, Edge.ingest_webhook (mkRequest m b) w
               = (error 405 "Method not allowed", w)) /\
    (forall cfg now fresh b, Edge.send_sequence cfg now fresh (mkRequest m b) w
               = (error 405 "Method not allowed", w)) /\
    (forall b, Edge.schedule_meeting (mkRequest m b) w
               = (error 405 "Method not allowed", w)) /\
    (forall cfg d answer fresh b, Edge.screen_resume cfg d answer fresh (mkRequest m b) w
               = (error 405 "Method not allowed", w)) /\
    (forall cfg answer b, Edge.xray_search cfg answer (mkRequest m b) w
               = (error 405 "Method not allowed", w)) /\
    (forall cfg answer fresh b, Edge.generate_outreach cfg answer fresh (mkRequest m b) w
               = (error 405 "Method not allowed", w)) /\
    (forall bi cfg answer fresh b, Edge.apollo_enrich bi cfg answer fresh (mkRequest m b) w
               = (reject 405 "Method not allowed", w)) /\
    (forall cfg answer b, Edge.parse_jd cfg answer (mkRequest m b) w
               = (reject 405 "Method not allowed", w)) /\
    (forall bi b, Edge.export_shortlist bi (mkRequest m b) w
               = (reject 405 "Method not allowed", w)) /\
    Edge.ingest_webhook (mkRequest "POST" None) w = (error 400 "Invalid JSON", w) /\
    (forall cfg now fresh, Edge.send_sequence cfg now fresh (mkRequest "POST" None) w
               = (error 400 "Invalid JSON", w)) /\
    Edge.schedule_meeting (mkRequest "POST" None) w = (error 400 "Invalid JSON", w) /\
    (forall cfg d answer fresh,
        Edge.screen_resume cfg d answer fresh (mkRequest "POST" None) w
        = (error 400 "Invalid JSON", w)) /\
    (forall cfg answer, Edge.xray_search cfg answer (mkRequest "POST" None) w
               = (error 400 "Invalid JSON", w)) /\
    (forall cfg answer fresh,
        Edge.generate_outreach cfg answer fresh (mkRequest "POST" None) w
        = (error 400 "Invalid JSON", w)) /\
    (forall bi cfg answer fresh,
        Edge.apollo_enrich bi cfg answer fresh (mkRequest "POST" None) w
        = (reject 400 "Invalid JSON", w)) /\
    (forall cfg answer, Edge.parse_jd cfg answer (mkRequest "POST" None) w
               = (reject 400 "Invalid JSON", w)) /\
    (forall bi, Edge.export_shortlist bi (mkRequest "POST" None) w
               = (reject 400 "Invalid JSON", w)).
Proof.
  intros m w Hm. pose proof (not_POST m Hm) as E.
  repeat split; intros;
    first [ reflexivity
          | unfold Edge.ingest_webhook, Edge.send_sequence, Edge.schedule_meeting,
              Edge.screen_resume, Edge.xray_search, Edge.generate_outreach,
              Edge.apollo_enrich, Edge.parse_jd, Edge.export_shortlist;
            cbn [method]; rewrite E; reflexivity ].
Qed.

Lemma bad_requests_change_nothing_witness :
  Edge.ingest_webhook (mkRequest "GET" (Some (webhook "c1" "opened")))
    (sample_world [sample_candidate "c1" sourced] 5)
  = (error 405 "Method not allowed", sample_world [sample_candidate "c1" sourced] 5).
Proof.
  refine (proj1 (bad_requests_change_nothing "GET"
                   (sample_world [sample_candidate "c1" sourced] 5) _) _).
  discriminate.
Defined.

(** X5.  A posted request that lacks a required field is answered 400 with
    the message of the function, and nothing is read or written:
    [candidate_id] for send_sequence and schedule_meeting, [role_id] or
    [resume_text] for screen_resume, [role_id] for xray_search and
    export_shortlist, [role_id] or [candidate_id] for generate_outreach,
    [role_id] or an array [leads] for apollo_enrich, [jd_text] for parse_jd.
    An empty string counts as lacking. *)
Theorem missing_fields_are_refused :
  forall (w : World),
    (forall cfg now fresh p,
        truthy (Edge.ss_candidate_id p) = false ->
        Edge.send_sequence cfg now fresh (post p) w
        = (error 400 "candidate_id is required", w)) /\
    (forall p,
        truthy (Edge.sm_candidate_id p) = false ->
        Edge.schedule_meeting (post p) w = (error 400 "candidate_id is required", w)) /\
    (forall cfg d answer fresh p,
        truthy (Edge.sr_role_id p) = false \/ truthy (Edge.resume_text p) = false ->
        Edge.screen_resume cfg d answer fresh (post p) w
        = (error 400 "role_id and resume_text are required", w)) /\
    (forall cfg answer p,
        truthy (Edge.xr_role_id p) = false ->
        Edge.xray_search cfg answer (post p) w = (error 400 "role_id is required", w)) /\
    (forall cfg answer fresh p,
        truthy (Edge.or_role_id p) = false \/ truthy (Edge.or_candidate_id p) = false ->
        Edge.generate_outreach cfg answer fresh (post p) w
        = (error 400 "role_id and candidate_id are required", w)) /\
    (forall bi cfg answer fresh p,
        truthy (Edge.er_role_id p) = false \/ Edge.er_leads p = None ->
        Edge.apollo_enrich bi cfg answer fresh (post p) w
        = (reject 400 "role_id and leads are required", w)) /\
    (forall cfg answer p,
        truthy (Edge.jd_text p) = false ->
        Edge.parse_jd cfg answer (post p) w = (reject 400 "jd_text is required", w)) /\
    (forall bi p,
        truthy (Edge.ex_role_id p) = false ->
        Edge.export_shortlist bi (post p) w = (reject 400 "role_id is required", w)).
Proof.
  intros w. repeat split; intros.
  - enter_handler Edge.send_sequence. now rewrite nonempty_None.
  - enter_handler Edge.schedule_meeting. now rewrite nonempty_None.
  - enter_handler Edge.screen_resume.
    destruct H as [H|H]; rewrite (nonempty_None _ H); [reflexivity|].
    now destruct (nonempty (Edge.sr_role_id p)).
  - enter_handler Edge.xray_search. now rewrite nonempty_None.
  - enter_handler Edge.generate_outreach.
    destruct H as [H|H]; rewrite (nonempty_None _ H); [reflexivity|].
    now destruct (nonempty (Edge.or_role_id p)).
  - enter_handler Edge.apollo_enrich.
    destruct H as [H|H]; [now rewrite (nonempty_None _ H)|].
    rewrite H. now destruct (nonempty (Edge.er_role_id p)).
  - enter_handler Edge.parse_jd. now rewrite nonempty_None.
  - enter_handler Edge.export_shortlist. now rewrite nonempty_None.
Qed.

Lemma missing_fields_are_refused_witness :
  Edge.apollo_enrich (mkBuiltins (fun s => s) Some) no_keys (inl "unused") (fun _ => "n")
    (post (Edge.mkEnrichRequest (Some "role-1") None)) (sample_world [] 5)
  = (reject 400 "role_id and leads are required", sample_world [] 5).
Proof.
  exact (proj1 (proj2 (proj2 (proj2 (proj2 (proj2
           (missing_fields_are_refused (sample_world [] 5)))))))
           (mkBuiltins (fun s => s) Some) no_keys (inl "unused") (fun _ => "n")
           (Edge.mkEnrichRequest (Some "role-1") None) (or_intror eq_refl)).
Defined.

(** ** Candidates and roles that are not there *)

Lemma world_eta w :
  mkWorld (roles w) (candidates w) (outreach w) (engagements w) (config w) (net w) = w.
Proof. now destruct w. Qed.

Lemma filter_absent {A : Type} (p : A -> bool) (l : list A) :
  existsb p l = false -> filter p l = [].
Proof.
  induction l as [|x l IH]; simpl; [reflexivity|].
  destruct (p x); simpl; [discriminate|exact IH].
Qed.

Lemma update_status_rows_absent i s cs :
  existsb (id_is i) cs = false -> update_status_rows i s cs = cs.
Proof.
  induction cs as [|c cs IH]; simpl; [reflexivity|].
  destruct (id_is i c); simpl; [discriminate|].
  intros H. now rewrite IH.
Qed.

Lemma update_candidate_status_absent i s w :
  candidate_exists i w = false -> update_candidate_status i s w = (None, w).
Proof.
  intros H. unfold update_candidate_status.
  rewrite (update_status_rows_absent i s _ H). now rewrite world_eta.
Qed.

Lemma insert_engagement_fk_absent i ev pl w :
  candidate_exists i w = false ->
  insert_engagement_fk (mkEngagement (Some i) ev pl) w = (tt, w).
Proof. intros H. unfold insert_engagement_fk. cbn [eng_candidate_id]. now rewrite H. Qed.

(** X6.  send_sequence answers 404 for a candidate identifier that is in no
    row, and generate_outreach answers 404 when the role or the candidate is
    in no row; neither writes anything, and generate_outreach asks no
    collaborator. *)
Theorem unknown_rows_are_not_found :
  forall (w : World),
    (forall cfg now fresh cid,
        cid <> "" -> candidate_exists cid w = false ->
        Edge.send_sequence cfg now fresh (post (Edge.mkSendSequenceRequest (Some cid))) w
        = (error 404 "Candidate not found", w)) /\
    (forall cfg answer fresh roleId cid t,
        roleId <> "" -> cid <> "" ->
        role_exists roleId w = false \/ candidate_exists cid w = false ->
        Edge.generate_outreach cfg answer fresh
          (post (Edge.mkOutreachRequest (Some roleId) (Some cid) t)) w
        = (error 404 "Role or candidate not found", w)).
Proof.
  intros w. split.
  - intros cfg now fresh cid Hc Hx. enter_handler Edge.send_sequence.
    cbn [Edge.ss_candidate_id]. rewrite (nonempty_intro cid Hc).
    unfold select_candidate. unfold candidate_exists in Hx.
    now rewrite (filter_absent _ _ Hx).
  - intros cfg answer fresh roleId cid t Hr Hc Hx. enter_handler Edge.generate_outreach.
    cbn [Edge.or_role_id Edge.or_candidate_id].
    rewrite (nonempty_intro roleId Hr), (nonempty_intro cid Hc).
    unfold select_role, select_candidate.
    destruct Hx as [Hx|Hx].
    + unfold role_exists in Hx. rewrite (filter_absent _ _ Hx). reflexivity.
    + unfold candidate_exists in Hx. rewrite (filter_absent _ _ Hx). cbn.
      now destruct (maybeSingle _).
Qed.

Lemma unknown_rows_are_not_found_witness :
  Edge.send_sequence no_keys 1000 "o1" (post (Edge.mkSendSequenceRequest (Some "c9")))
    (sample_world [sample_candidate "c1" sourced] 5)
  = (error 404 "Candidate not found", sample_world [sample_candidate "c1" sourced] 5).
Proof.
  refine (proj1 (unknown_rows_are_not_found
                   (sample_world [sample_candidate "c1" sourced] 5))
            no_keys 1000 "o1" "c9" _ eq_refl).
  discriminate.
Defined.

(** X7.  ingest_webhook and schedule_meeting do not check that the candidate
    exists: for an identifier that is in no row they answer success (the
    latter with a meeting link for that identifier), and nothing is recorded,
    not even the engagement. *)
Theorem unknown_candidate_is_silently_dropped :
  forall (w : World) (cid : string),
    cid <> "" ->
    candidate_exists cid w = false ->
    (forall ev, ev <> "" ->
        Edge.ingest_webhook (post (webhook cid ev)) w = (ok BSuccess, w)) /\
    Edge.schedule_meeting (post (Edge.mkScheduleRequest (Some cid))) w
    = (ok (BMeeting ("https://calendly.com/demo/" ++ cid)), w).
Proof.
  intros w cid Hc Hx. split.
  - intros ev He. enter_handler Edge.ingest_webhook. unfold webhook.
    cbn [wp_candidate_id wp_recipient_id wp_event wp_type].
    rewrite (nonempty_js_or_left cid None Hc), (nonempty_js_or_left ev None He).
    rewrite (insert_engagement_fk_absent cid _ _ w Hx).
    destruct (Edge.newStatus ev); [|reflexivity].
    now rewrite (update_candidate_status_absent cid _ w Hx).
  - enter_handler Edge.schedule_meeting. cbn [Edge.sm_candidate_id].
    rewrite (nonempty_intro cid Hc).
    rewrite (update_candidate_status_absent cid _ w Hx).
    now rewrite (insert_engagement_fk_absent cid _ _ w Hx).
Qed.

Lemma unknown_candidate_is_silently_dropped_witness :
  Edge.schedule_meeting (post (Edge.mkScheduleRequest (Some "c9")))
    (sample_world [sample_candidate "c1" sourced] 5)
  = (ok (BMeeting "https://calendly.com/demo/c9"),
     sample_world [sample_candidate "c1" sourced] 5).
Proof.
  refine (proj2 (unknown_candidate_is_silently_dropped
                   (sample_world [sample_candidate "c1" sourced] 5) "c9" _ eq_refl)).
  discriminate.
Defined.

(** X8.  For a candidate that exists, schedule_meeting answers the link
    [https://calendly.com/demo/<id>], puts the candidate in status
    interviewing whatever its status was, leaves the status of every other
    candidate alone, and appends one [scheduled] engagement that carries the
    link. *)
Theorem schedule_meeting_books_interview :
  forall (w : World) (cid : string) (s : Status),
    cid <> "" ->
    status_of cid (candidates w) = Some s ->
    let url := "https://calendly.com/demo/" ++ cid in
    let r := Edge.schedule_meeting (post (Edge.mkScheduleRequest (Some cid))) w in
    fst r = ok (BMeeting url) /\
    status_of cid (candidates (snd r)) = Some interviewing /\
    (forall j, j <> cid -> status_of j (candidates (snd r)) = status_of j (candidates w)) /\
    engagements (snd r)
    = (engagements w ++ [mkEngagement (Some cid) (Some "scheduled") (PScheduled url)])%list.
Proof.
  intros w cid s Hc Hs url r. subst url r.
  assert (X : candidate_exists cid w = true)
    by (apply existsb_status_of; eauto).
  enter_handler Edge.schedule_meeting. cbn [Edge.sm_candidate_id].
  rewrite (nonempty_intro cid Hc).
  unfold update_candidate_status, insert_engagement_fk. cbn [eng_candidate_id].
  unfold candidate_exists in *. cbn [candidates]. rewrite existsb_update, X.
  unfold insert_engagement. cbn [fst snd candidates engagements].
  split; [reflexivity|]. split; [now rewrite status_of_update_same, Hs|].
  split; [|reflexivity].
  intros j Hj. now apply status_of_update_other.
Qed.

Lemma schedule_meeting_books_interview_witness :
  let w := sample_world [sample_candidate "c1" rejected] 5 in
  let r := Edge.schedule_meeting (post (Edge.mkScheduleRequest (Some "c1"))) w in
  fst r = ok (BMeeting "https://calendly.com/demo/c1") /\
  status_of "c1" (candidates (snd r)) = Some interviewing /\
  (forall j, j <> "c1" -> status_of j (candidates (snd r)) = status_of j (candidates w)) /\
  engagements (snd r)
  = [mkEngagement (Some "c1") (Some "scheduled")
       (PScheduled "https://calendly.com/demo/c1")].
Proof.
  refine (schedule_meeting_books_interview
            (sample_world [sample_candidate "c1" rejected] 5) "c1" rejected _ eq_refl).
  discriminate.
Defined.

(** ** Sends, one after the other *)

Lemma In_ids_candidate cid cs :
  In cid (map cand_id cs) -> exists c, In c cs /\ cand_id c = cid.
Proof. intros H. apply in_map_iff in H. destruct H as (c & E & H). eauto. Qed.

(** One send, told by what it does to the records of the candidate. *)
Lemma send_sequence_records cfg now fresh cid w :
  cid <> "" ->
  NoDup (map cand_id (candidates w)) -> In cid (map cand_id (candidates w)) ->
  let w' := snd (Edge.send_sequence cfg now fresh
                   (post (Edge.mkSendSequenceRequest (Some cid))) w) in
  NoDup (map cand_id (candidates w')) /\ In cid (map cand_id (candidates w')) /\
  status_of cid (candidates w') = Some contacted /\
  (forall ex, records_of cid w = [ex] -> int4 (step ex + 1) = true ->
              records_of cid w' = [advanced ex now]) /\
  (records_of cid w = [] ->
   outreach w' = (outreach w ++ [mkOutreach fresh cid (Edge.send_provider cfg) 1
                                   (Some now) None None])%list) /\
  ((2 <= length (records_of cid w))%nat ->
   outreach w' = (outreach w ++ [mkOutreach fresh cid (Edge.send_provider cfg) 1
                                   (Some now) None None])%list).
Proof.
  intros Hne ND Hin. destruct (In_ids_candidate _ _ Hin) as (c & Hc & <-).
  cbv zeta.
  destruct (send_sequence_candidates cfg now fresh c w Hne ND Hc) as [_ C].
  rewrite C, update_status_rows_ids.
  split; [exact ND|]. split; [exact Hin|].
  split.
  { rewrite status_of_update_same. now destruct (In_status_of c _ Hc) as [s ->]. }
  assert (X : candidate_exists (cand_id c) w = true).
  { apply existsb_exists. exists c. split; [exact Hc|]. apply String.eqb_refl. }
  assert (NEW : fst (select_outreach (cand_id c) w) = None ->
                outreach (snd (Edge.send_sequence cfg now fresh
                   (post (Edge.mkSendSequenceRequest (Some (cand_id c)))) w))
                = (outreach w ++ [mkOutreach fresh (cand_id c) (Edge.send_provider cfg) 1
                                    (Some now) None None])%list).
  { intros S. rewrite (send_sequence_outreach cfg now fresh c w Hne ND Hc), S.
    unfold Edge.outreach_step, insert_outreach_fk. cbn [out_candidate_id].
    now rewrite X. }
  unfold records_of, select_outreach in *. cbn [fst] in NEW.
  split; [|split].
  - intros ex E I4.
    rewrite (send_sequence_outreach cfg now fresh c w Hne ND Hc).
    unfold select_outreach. cbn [fst]. rewrite E. cbn [maybeSingle].
    unfold Edge.outreach_step, update_outreach_step. rewrite I4. cbn [snd outreach].
    rewrite filter_map_same.
    + rewrite E. cbn [map]. now rewrite String.eqb_refl.
    + intros o. now destruct (out_id o =? out_id ex)%string.
  - intros E. apply NEW. now rewrite E.
  - intros L. apply NEW.
    destruct (filter _ (outreach w)) as [|a [|b l]]; simpl in L; try lia. reflexivity.
Qed.

(** X9.  When a candidate has two or more outreach records, a send advances
    none of them: the lookup of the record answers nothing, and a further
    record with step 1 is added, at every send from then on. *)
Theorem send_with_several_records_adds_one :
  forall (cfg : Config) (now : Z) (fresh cid : string) (w : World),
    cid <> "" ->
    NoDup (map cand_id (candidates w)) -> In cid (map cand_id (candidates w)) ->
    (2 <= length (records_of cid w))%nat ->
    let w' := snd (Edge.send_sequence cfg now fresh
                     (post (Edge.mkSendSequenceRequest (Some cid))) w) in
    outreach w' = (outreach w ++ [mkOutreach fresh cid (Edge.send_provider cfg) 1
                                    (Some now) None None])%list /\
    (3 <= length (records_of cid w'))%nat.
Proof.
  intros cfg now fresh cid w Hne ND Hin L. cbv zeta.
  destruct (send_sequence_records cfg now fresh cid w Hne ND Hin)
    as (_ & _ & _ & _ & _ & H).
  specialize (H L). unfold records_of in *. rewrite H.
  split; [reflexivity|].
  rewrite filter_app, length_app.
  cbn [filter out_candidate_id]. rewrite String.eqb_refl. cbn [length]. lia.
Qed.

Lemma send_with_several_records_adds_one_witness :
  let w' := snd (Edge.send_sequence no_keys 1000 "o3"
                   (post (Edge.mkSendSequenceRequest (Some "c1"))) two_drafts) in
  outreach w' = (outreach two_drafts
                 ++ [mkOutreach "o3" "c1" "none" 1 (Some 1000) None None])%list /\
  (3 <= length (records_of "c1" w'))%nat.
Proof.
  refine (send_with_several_records_adds_one no_keys 1000 "o3" "c1" two_drafts _ _ _ _).
  - discriminate.
  - repeat constructor. simpl. tauto.
  - simpl. tauto.
  - simpl. lia.
Defined.

Lemma send_times_records cfg fresh cid nows : forall w ex,
  cid <> "" ->
  NoDup (map cand_id (candidates w)) -> In cid (map cand_id (candidates w)) ->
  records_of cid w = [ex] ->
  0 <= step ex -> step ex + Z.of_nat (length nows) <= 2147483647 ->
  let w' := send_times cfg fresh cid nows w in
  NoDup (map cand_id (candidates w')) /\ In cid (map cand_id (candidates w')) /\
  records_of cid w'
  = [mkOutreach (out_id ex) (out_candidate_id ex) (provider ex)
       (step ex + Z.of_nat (length nows))
       (match nows with [] => last_sent_at ex | _ => Some (last nows 0) end)
       (next_send_at ex) (meta ex)].
Proof.
  induction nows as [|now nows IH]; intros w ex Hne ND Hin E Lo Hi; cbv zeta.
  - cbn. rewrite E, Z.add_0_r. split; [exact ND|]. split; [exact Hin|]. now destruct ex.
  - cbn [send_times fold_left].
    destruct (send_sequence_records cfg now fresh cid w Hne ND Hin)
      as (ND1 & Hin1 & _ & ADV & _).
    cbn [length] in Hi.
    assert (I4 : int4 (step ex + 1) = true) by (unfold int4; lia).
    specialize (ADV ex E I4).
    set (w1 := snd (Edge.send_sequence cfg now fresh _ w)) in *.
    assert (Lo1 : 0 <= step (advanced ex now)) by (cbn [advanced step]; lia).
    assert (Hi1 : step (advanced ex now) + Z.of_nat (length nows) <= 2147483647)
      by (cbn [advanced step]; lia).
    destruct (IH w1 (advanced ex now) Hne ND1 Hin1 ADV Lo1 Hi1) as (ND2 & Hin2 & R).
    fold (send_times cfg fresh cid nows w1).
    split; [exact ND2|]. split; [exact Hin2|].
    rewrite R. unfold advanced.
    cbn [out_id out_candidate_id provider step last_sent_at next_send_at meta].
    f_equal. f_equal.
    + cbn [length]. lia.
    + destruct nows as [|n2 rest]; [reflexivity|]. reflexivity.
Qed.

Lemma send_times_status cfg fresh cid nows : forall w,
  cid <> "" ->
  NoDup (map cand_id (candidates w)) -> In cid (map cand_id (candidates w)) ->
  status_of cid (candidates w) = Some contacted ->
  status_of cid (candidates (send_times cfg fresh cid nows w)) = Some contacted.
Proof.
  induction nows as [|now nows IH]; intros w Hne ND Hin S; [exact S|].
  cbn [send_times fold_left].
  destruct (send_sequence_records cfg now fresh cid w Hne ND Hin)
    as (ND1 & Hin1 & S1 & _).
  now apply IH.
Qed.

Lemma last_cons_default {A : Type} (l : list A) (x d : A) :
  last (x :: l) d = last l x.
Proof.
  revert x d. induction l as [|y l IH]; intros x d; [reflexivity|].
  change (last (x :: y :: l) d) with (last (y :: l) d).
  rewrite IH. symmetry. apply IH.
Qed.

(** X10.  Sends add up: for a candidate without an outreach record, after
    one send and then further sends, as long as the number of sends fits the
    [int] column [step] (at most 2147483647), the candidate has exactly one
    record, whose step is the number of sends, whose [last_sent_at] is the
    time of the last send and whose [next_send_at] is still empty; and the
    candidate is in status contacted. *)
Theorem sends_count_steps :
  forall (cfg : Config) (fresh cid : string) (now : Z) (nows : list Z) (w : World),
    cid <> "" ->
    NoDup (map cand_id (candidates w)) -> In cid (map cand_id (candidates w)) ->
    records_of cid w = [] ->
    Z.of_nat (length (now :: nows)) <= 2147483647 ->
    let w' := send_times cfg fresh cid (now :: nows) w in
    records_of cid w'
    = [mkOutreach fresh cid (Edge.send_provider cfg)
         (Z.of_nat (length (now :: nows))) (Some (last nows now)) None None] /\
    status_of cid (candidates w') = Some contacted.
Proof.
  intros cfg fresh cid now nows w Hne ND Hin E Hi. cbv zeta.
  cbn [send_times fold_left].
  destruct (send_sequence_records cfg now fresh cid w Hne ND Hin)
    as (ND1 & Hin1 & S1 & _ & NEW & _).
  specialize (NEW E).
  set (w1 := snd (Edge.send_sequence cfg now fresh _ w)) in *.
  fold (send_times cfg fresh cid nows w1).
  assert (R1 : records_of cid w1
               = [mkOutreach fresh cid (Edge.send_provider cfg) 1 (Some now) None None]).
  { unfold records_of in *. rewrite NEW, filter_app, E. cbn.
    now rewrite String.eqb_refl. }
  cbn [length] in Hi.
  destruct (send_times_records cfg fresh cid nows w1 _ Hne ND1 Hin1 R1) as (_ & _ & R);
    [cbn [step]; lia|cbn [step]; lia|].
  split; [|now apply send_times_status].
  rewrite R. cbn [out_id out_candidate_id provider step last_sent_at next_send_at meta].
  f_equal. f_equal.
  - cbn [length]. lia.
  - destruct nows as [|n2 rest]; [reflexivity|].
    now rewrite !last_cons_default.
Qed.

Lemma sends_count_steps_witness :
  let w' := send_times no_keys "o1" "c1" [1000; 2000; 3000]
              (sample_world [sample_candidate "c1" sourced] 5) in
  records_of "c1" w' = [mkOutreach "o1" "c1" "none" 3 (Some 3000) None None] /\
  status_of "c1" (candidates w') = Some contacted.
Proof.
  refine (sends_count_steps no_keys "o1" "c1" 1000 [2000; 3000]
            (sample_world [sample_candidate "c1" sourced] 5) _ _ _ eq_refl _).
  - discriminate.
  - repeat constructor. simpl. tauto.
  - simpl. tauto.
  - simpl. lia.
Defined.

(** ** A draft, then a send *)

Lemma filter_role_key (r : Role) (rs : list Role) :
  NoDup (map role_id rs) -> In r rs ->
  filter (fun x => (role_id x =? role_id r)%string) rs = [r].
Proof.
  induction rs as [|x rs IH]; simpl; [tauto|].
  intros ND [->|Hin]; inversion ND as [|? ? Hx ND']; subst.
  - rewrite String.eqb_refl. f_equal.
    apply filter_absent. apply not_true_is_false. intros E.
    apply existsb_exists in E. destruct E as (y & Hy & Ey).
    apply String.eqb_eq in Ey. apply Hx. rewrite <- Ey. now apply in_map.
  - destruct (String.eqb_spec (role_id x) (role_id r)) as [E|E].
    + exfalso. apply Hx. rewrite E. now apply in_map.
    + now apply IH.
Qed.

(** What generate_outreach does when the role and the candidate are found. *)
Lemma generate_outreach_found cfg res fresh (role : Role) (c : Candidate) t w :
  role_id role <> "" -> cand_id c <> "" ->
  NoDup (map role_id (roles w)) -> In role (roles w) ->
  NoDup (map cand_id (candidates w)) -> In c (candidates w) ->
  let draft := if Edge.outreach_mock cfg
               then Edge.mockOutreach (if (cand_name c =? "")%string
                                       then "Candidate" else cand_name c)
               else res in
  Edge.generate_outreach cfg (inr res) fresh
    (post (Edge.mkOutreachRequest (Some (role_id role)) (Some (cand_id c)) t)) w
  = (ok (BOutreach draft),
     mkWorld (roles w) (candidates w)
       (outreach w ++ [mkOutreach fresh (cand_id c) "apollo" 1 None None (Some draft)])
       (engagements w) (config w)
       (if Edge.outreach_mock cfg then net w
        else (net w ++ [FetchOpenAI (cand_name c)])%list)).
Proof.
  intros Hr Hc NDr Hir NDc Hic. cbv zeta.
  enter_handler Edge.generate_outreach. cbn [Edge.or_role_id Edge.or_candidate_id].
  rewrite (nonempty_intro _ Hr), (nonempty_intro _ Hc).
  unfold select_role. rewrite (filter_role_key role _ NDr Hir). cbn [maybeSingle].
  rewrite (select_candidate_primary_key c w NDc Hic).
  assert (X : existsb (id_is (cand_id c)) (candidates w) = true).
  { apply existsb_exists. exists c. split; [exact Hic|]. apply String.eqb_refl. }
  destruct (Edge.outreach_mock cfg).
  - unfold insert_outreach_fk, candidate_exists. cbn [out_candidate_id]. now rewrite X.
  - unfold Edge.outreach_callOpenAI, bind, fetch, ret, insert_outreach_fk, candidate_exists.
    cbn [out_candidate_id candidates]. now rewrite X.
Qed.

(** X11.  A draft and then a send: generate_outreach stores the drafted
    message in a new outreach record with step 1, and the first send_sequence
    for that candidate does not create a record but advances this one, so the
    candidate's record is at step 2 after the first send, with the draft still
    in [meta]. *)
Theorem first_send_after_draft_is_step_two :
  forall (cfg : Config) (res : OutreachResponse) (fresh_o fresh_s : string) (now : Z)
         (role : Role) (c : Candidate) (t : option string) (w : World),
    role_id role <> "" -> cand_id c <> "" ->
    NoDup (map role_id (roles w)) -> In role (roles w) ->
    NoDup (map cand_id (candidates w)) -> In c (candidates w) ->
    records_of (cand_id c) w = [] ->
    let draft := if Edge.outreach_mock cfg
                 then Edge.mockOutreach (if (cand_name c =? "")%string
                                         then "Candidate" else cand_name c)
                 else res in
    let r1 := Edge.generate_outreach cfg (inr res) fresh_o
                (post (Edge.mkOutreachRequest (Some (role_id role)) (Some (cand_id c)) t)) w in
    let r2 := Edge.send_sequence cfg now fresh_s
                (post (Edge.mkSendSequenceRequest (Some (cand_id c)))) (snd r1) in
    fst r1 = ok (BOutreach draft) /\
    records_of (cand_id c) (snd r1)
    = [mkOutreach fresh_o (cand_id c) "apollo" 1 None None (Some draft)] /\
    fst r2 = ok BSuccess /\
    records_of (cand_id c) (snd r2)
    = [mkOutreach fresh_o (cand_id c) "apollo" 2 (Some now) None (Some draft)].
Proof.
  intros cfg res fresh_o fresh_s now role c t w Hr Hc NDr Hir NDc Hic E. cbv zeta.
  rewrite (generate_outreach_found cfg res fresh_o role c t w Hr Hc NDr Hir NDc Hic).
  cbn [fst snd].
  set (draft := if Edge.outreach_mock cfg then _ else res).
  set (w1 := mkWorld _ _ _ _ _ _).
  assert (R1 : records_of (cand_id c) w1
               = [mkOutreach fresh_o (cand_id c) "apollo" 1 None None (Some draft)]).
  { unfold records_of in *. subst w1. cbn [outreach]. rewrite filter_app, E. cbn.
    now rewrite String.eqb_refl. }
  split; [reflexivity|]. split; [exact R1|].
  assert (Hin1 : In (cand_id c) (map cand_id (candidates w1))) by now apply in_map.
  destruct (send_sequence_candidates cfg now fresh_s c w1 Hc NDc Hic) as [OK _].
  split; [exact OK|].
  destruct (send_sequence_records cfg now fresh_s (cand_id c) w1 Hc NDc Hin1)
    as (_ & _ & _ & ADV & _).
  now rewrite (ADV _ R1 eq_refl).
Qed.

Lemma first_send_after_draft_is_step_two_witness :
  let w := sample_world [sample_candidate "c1" sourced] 5 in
  let draft := Edge.mockOutreach "Alice Johnson" in
  let r1 := Edge.generate_outreach no_keys (inr (mkOutreachResponse "s" "b")) "o1"
              (post (Edge.mkOutreachRequest (Some "role-1") (Some "c1") None)) w in
  let r2 := Edge.send_sequence no_keys 1000 "o2"
              (post (Edge.mkSendSequenceRequest (Some "c1"))) (snd r1) in
  fst r1 = ok (BOutreach draft) /\
  records_of "c1" (snd r1) = [mkOutreach "o1" "c1" "apollo" 1 None None (Some draft)] /\
  fst r2 = ok BSuccess /\
  records_of "c1" (snd r2) = [mkOutreach "o1" "c1" "apollo" 2 (Some 1000) None (Some draft)].
Proof.
  refine (first_send_after_draft_is_step_two no_keys (mkOutreachResponse "s" "b")
            "o1" "o2" 1000 (sample_role 5) (sample_candidate "c1" sourced) None
            (sample_world [sample_candidate "c1" sourced] 5) _ _ _ _ _ _ eq_refl).
  - discriminate.
  - discriminate.
  - repeat constructor. simpl. tauto.
  - simpl. tauto.
  - repeat constructor. simpl. tauto.
  - simpl. tauto.
Defined.

(** ** Enrichment *)

Lemma sourced_rows_length fresh roleId enriched : forall k,
  length (Edge.sourced_rows fresh k roleId enriched) = length enriched.
Proof. induction enriched as [|e l IH]; intros k; simpl; [reflexivity|]. now rewrite IH. Qed.

Lemma sourced_rows_names fresh roleId enriched : forall k,
  map cand_name (Edge.sourced_rows fresh k roleId enriched)
  = map (fun e => Edge.el_name (Edge.el_lead e)) enriched.
Proof. induction enriched as [|e l IH]; intros k; simpl; [reflexivity|]. now rewrite IH. Qed.

Lemma sourced_rows_shape fresh roleId enriched : forall k,
  Forall (fun c => cand_status c = sourced /\ cand_role_id c = roleId /\
                   culture_score c = None /\ technical_score c = None /\
                   experience_score c = None /\ fit_score c = None)
    (Edge.sourced_rows fresh k roleId enriched).
Proof.
  induction enriched as [|e l IH]; intros k; simpl; constructor; [now repeat split|apply IH].
Qed.

Lemma sourced_rows_roles fresh roleId enriched w : forall k,
  role_exists roleId w = true ->
  forallb (fun c => role_exists (cand_role_id c) w)
    (Edge.sourced_rows fresh k roleId enriched) = true.
Proof.
  intros k H. revert k. induction enriched as [|e l IH]; intros k; simpl; [reflexivity|].
  now rewrite H, IH.
Qed.

Lemma depth_app i cs rows :
  depth i (cs ++ rows) = depth i cs + depth i rows.
Proof. unfold depth. rewrite filter_app, length_app. lia. Qed.

Lemma depth_own_rows i rows :
  Forall (fun c => cand_role_id c = i) rows -> depth i rows = Z.of_nat (length rows).
Proof.
  unfold depth. induction 1 as [|c l Hc _ IH]; [reflexivity|].
  cbn [filter]. rewrite Hc, String.eqb_refl. cbn [length]. lia.
Qed.

Lemma mockEnrich_leads bi leads :
  map Edge.el_lead (Edge.mockEnrich bi leads) = leads.
Proof.
  unfold Edge.mockEnrich. rewrite map_map. cbn [Edge.el_lead]. apply map_id.
Qed.

(** X12.  A well-formed enrichment request for a role that exists answers
    the enriched leads and adds one candidate per enriched lead, in their
    order, at the end of the table: each new candidate is in status sourced,
    belongs to the role of the request, bears the name of its lead and has no
    score.  The count the pipeline daemon reads for the role grows by the number
    of leads.  In mock mode every lead comes back, unchanged but for the three
    added fields, and no collaborator is asked. *)
Theorem enrichment_adds_sourced_candidates :
  forall (bi : Builtins) (cfg : Config) (res : list Edge.EnrichedLead)
         (fresh : nat -> string) (roleId : string) (leads : list Edge.EnrichLead)
         (w : World),
    roleId <> "" ->
    role_exists roleId w = true ->
    let enriched := if Edge.enrich_mock cfg then Edge.mockEnrich bi leads else res in
    let r := Edge.apollo_enrich bi cfg (inr res) fresh
               (post (Edge.mkEnrichRequest (Some roleId) (Some leads))) w in
    fst r = accept enriched /\
    (exists rows,
        candidates (snd r) = (candidates w ++ rows)%list /\
        map cand_name rows = map (fun e => Edge.el_name (Edge.el_lead e)) enriched /\
        Forall (fun c => cand_status c = sourced /\ cand_role_id c = roleId /\
                         culture_score c = None /\ technical_score c = None /\
                         experience_score c = None /\ fit_score c = None) rows) /\
    depth roleId (candidates (snd r))
    = depth roleId (candidates w) + Z.of_nat (length enriched) /\
    (Edge.enrich_mock cfg = true ->
       map Edge.el_lead enriched = leads /\ net (snd r) = net w).
Proof.
  intros bi cfg res fresh roleId leads w Hr Hx. cbv zeta.
  enter_handler Edge.apollo_enrich. cbn [Edge.er_role_id Edge.er_leads].
  rewrite (nonempty_intro roleId Hr).
  set (enriched := if Edge.enrich_mock cfg then Edge.mockEnrich bi leads else res).
  assert (RUN : forall w1, roles w1 = roles w -> candidates w1 = candidates w ->
            let r := (let (_, w') := insert_candidates_fk
                                       (Edge.sourced_rows fresh 0 roleId enriched) w1 in
                      (accept enriched, w')) in
            fst r = accept enriched /\
            candidates (snd r)
            = (candidates w ++ Edge.sourced_rows fresh 0 roleId enriched)%list /\
            net (snd r) = net w1).
  { intros w1 Er Ec. cbv zeta. unfold insert_candidates_fk.
    rewrite sourced_rows_roles by (unfold role_exists in *; now rewrite Er).
    cbn [fst snd candidates net]. now rewrite Ec. }
  assert (GOAL : forall r,
            fst r = accept enriched ->
            candidates (snd r)
            = (candidates w ++ Edge.sourced_rows fresh 0 roleId enriched)%list ->
            (Edge.enrich_mock cfg = true -> net (snd r) = net w) ->
            fst r = accept enriched /\
            (exists rows,
                candidates (snd r) = (candidates w ++ rows)%list /\
                map cand_name rows = map (fun e => Edge.el_name (Edge.el_lead e)) enriched /\
                Forall (fun c => cand_status c = sourced /\ cand_role_id c = roleId /\
                                 culture_score c = None /\ technical_score c = None /\
                                 experience_score c = None /\ fit_score c = None) rows) /\
            depth roleId (candidates (snd r))
            = depth roleId (candidates w) + Z.of_nat (length enriched) /\
            (Edge.enrich_mock cfg = true ->
               map Edge.el_lead enriched = leads /\ net (snd r) = net w)).
  { intros r R C N. split; [exact R|]. split; [|split].
    - eexists. split; [exact C|]. split; [apply sourced_rows_names|apply sourced_rows_shape].
    - rewrite C, depth_app.
      rewrite (depth_own_rows roleId (Edge.sourced_rows fresh 0 roleId enriched)).
      + now rewrite sourced_rows_length.
      + eapply Forall_impl; [|apply sourced_rows_shape]. intros c H. apply H.
    - intros M. split; [|now apply N]. subst enriched. rewrite M. apply mockEnrich_leads. }
  subst enriched. destruct (Edge.enrich_mock cfg) eqn:M.
  - destruct (RUN w eq_refl eq_refl) as (R & C & N). apply GOAL; auto.
  - unfold Edge.callApollo, bind, fetch, ret.
    set (w1 := mkWorld _ _ _ _ _ _).
    destruct (RUN w1 eq_refl eq_refl) as (R & C & N). apply GOAL; auto. discriminate.
Qed.

Lemma enrichment_adds_sourced_candidates_witness :
  let r := Edge.apollo_enrich plain_builtins no_keys (inr []) (fun k => "n")
             (post (Edge.mkEnrichRequest (Some "role-1") (Some two_leads)))
             (sample_world [] 5) in
  depth "role-1" (candidates (snd r)) = 2.
Proof.
  refine (proj1 (proj2 (proj2 (enrichment_adds_sourced_candidates plain_builtins no_keys []
            (fun k => "n") "role-1" two_leads (sample_world [] 5) _ eq_refl)))).
  discriminate.
Defined.

(** ** Inserts the database refuses, and collaborators that fail *)

Lemma sourced_rows_no_role fresh roleId enriched w : forall k,
  role_exists roleId w = false ->
  snd (insert_candidates_fk (Edge.sourced_rows fresh k roleId enriched) w) = w.
Proof.
  intros k H. unfold insert_candidates_fk.
  destruct enriched as [|e l]; cbn [Edge.sourced_rows forallb].
  - cbn. rewrite app_nil_r. apply world_eta.
  - cbn [cand_role_id Edge.sourced_candidate]. now rewrite H.
Qed.

(** X13.  screen_resume and apollo_enrich do not check that the role
    exists.  For a role identifier that is in no row they answer as if all
    went well, with the screening result or the enriched leads, and store no
    candidate: the insert breaks the foreign key and its error is not
    looked at. *)
Theorem unknown_role_stores_nothing :
  forall (w : World) (roleId : string),
    roleId <> "" ->
    role_exists roleId w = false ->
    (forall cfg d res fresh resume,
        resume <> "" ->
        let r := Edge.screen_resume cfg d (inr res) fresh (screen_request roleId resume) w in
        fst r = ok (BScreen (if Edge.screen_mock cfg then Edge.mockScreen d else res)) /\
        candidates (snd r) = candidates w) /\
    (forall bi cfg res fresh leads,
        let r := Edge.apollo_enrich bi cfg (inr res) fresh
                   (post (Edge.mkEnrichRequest (Some roleId) (Some leads))) w in
        fst r = accept (if Edge.enrich_mock cfg then Edge.mockEnrich bi leads else res) /\
        candidates (snd r) = candidates w).
Proof.
  intros w roleId Hr Hx. split.
  - intros cfg d res fresh resume Ht. cbv zeta. unfold screen_request.
    enter_handler Edge.screen_resume. cbn [Edge.sr_role_id Edge.resume_text].
    rewrite (nonempty_intro roleId Hr), (nonempty_intro resume Ht).
    destruct (Edge.screen_mock cfg).
    + unfold insert_candidate_fk. cbn [cand_role_id Edge.screened_candidate].
      now rewrite Hx.
    + unfold Edge.screen_callOpenAI, bind, select_role, fetch, ret, insert_candidate_fk.
      cbn [cand_role_id Edge.screened_candidate].
      unfold role_exists in *. cbn [roles andb]. now rewrite Hx.
  - intros bi cfg res fresh leads. cbv zeta.
    enter_handler Edge.apollo_enrich. cbn [Edge.er_role_id Edge.er_leads].
    rewrite (nonempty_intro roleId Hr).
    destruct (Edge.enrich_mock cfg).
    + rewrite (surjective_pairing (insert_candidates_fk _ w)).
      now rewrite sourced_rows_no_role.
    + unfold Edge.callApollo, bind, fetch, ret.
      set (w1 := mkWorld _ _ _ _ _ _).
      rewrite (surjective_pairing (insert_candidates_fk _ w1)).
      now rewrite sourced_rows_no_role.
Qed.

Lemma unknown_role_stores_nothing_witness :
  let w := sample_world [] 5 in
  let r := Edge.apollo_enrich plain_builtins no_keys (inr []) (fun k => "n")
             (post (Edge.mkEnrichRequest (Some "role-9") (Some two_leads))) w in
  fst r = accept (Edge.mockEnrich plain_builtins two_leads) /\
  candidates (snd r) = candidates w.
Proof.
  refine (proj2 (unknown_role_stores_nothing (sample_world [] 5) "role-9" _ eq_refl)
            plain_builtins no_keys [] (fun k => "n") two_leads).
  discriminate.
Defined.

(** X14.  In live mode a collaborator that fails is asked once and not
    again: screen_resume, xray_search, apollo_enrich and parse_jd answer 500
    with the message of the failure, and no table is written. *)
Theorem collaborator_failure_is_reported :
  forall (w : World) (msg : string),
    (forall cfg d fresh roleId resume,
        roleId <> "" -> resume <> "" -> Edge.screen_mock cfg = false ->
        Edge.screen_resume cfg d (inl msg) fresh (screen_request roleId resume) w
        = (error 500 msg,
           mkWorld (roles w) (candidates w) (outreach w) (engagements w) (config w)
             (net w ++ [FetchOpenAI resume]))) /\
    (forall cfg roleId q count,
        roleId <> "" -> Edge.xray_mock cfg = false ->
        exists query,
          Edge.xray_search cfg (inl msg) (post (Edge.mkXrayRequest (Some roleId) q count)) w
          = (error 500 msg,
             mkWorld (roles w) (candidates w) (outreach w) (engagements w) (config w)
               (net w ++ [FetchGoogleCSE query (Z.min (num_or count 5) 10)]))) /\
    (forall bi cfg fresh roleId leads,
        roleId <> "" -> Edge.enrich_mock cfg = false ->
        Edge.apollo_enrich bi cfg (inl msg) fresh
          (post (Edge.mkEnrichRequest (Some roleId) (Some leads))) w
        = (reject 500 msg,
           mkWorld (roles w) (candidates w) (outreach w) (engagements w) (config w)
             (net w ++ [FetchApollo]))) /\
    (forall cfg roleId jd,
        jd <> "" -> Edge.parse_mock cfg = false ->
        Edge.parse_jd cfg (inl msg) (post (Edge.mkParseJDRequest roleId (Some jd))) w
        = (reject 500 msg,
           mkWorld (roles w) (candidates w) (outreach w) (engagements w) (config w)
             (net w ++ [FetchOpenAI jd]))).
Proof.
  intros w msg. split; [|split; [|split]].
  - intros cfg d fresh roleId resume Hr Ht Hm. unfold screen_request.
    enter_handler Edge.screen_resume. cbn [Edge.sr_role_id Edge.resume_text].
    now rewrite (nonempty_intro roleId Hr), (nonempty_intro resume Ht), Hm.
  - intros cfg roleId q count Hr Hm. eexists.
    enter_handler Edge.xray_search.
    cbn [Edge.xr_role_id Edge.xr_count Edge.query_overrides].
    rewrite (nonempty_intro roleId Hr). unfold select_role. rewrite Hm. reflexivity.
  - intros bi cfg fresh roleId leads Hr Hm.
    enter_handler Edge.apollo_enrich. cbn [Edge.er_role_id Edge.er_leads].
    now rewrite (nonempty_intro roleId Hr), Hm.
  - intros cfg roleId jd Hj Hm.
    enter_handler Edge.parse_jd. cbn [Edge.jd_text].
    now rewrite (nonempty_intro jd Hj), Hm.
Qed.

Lemma collaborator_failure_is_reported_witness :
  Edge.parse_jd live_keys (inl "OpenAI API error: 429")
    (post (Edge.mkParseJDRequest (Some "role-1") (Some "We use Rust"))) (sample_world [] 5)
  = (reject 500 "OpenAI API error: 429",
     mkWorld [sample_role 5] [] [] [] [] [FetchOpenAI "We use Rust"]).
Proof.
  refine (proj2 (proj2 (proj2 (collaborator_failure_is_reported (sample_world [] 5)
            "OpenAI API error: 429"))) live_keys (Some "role-1") "We use Rust" _ eq_refl).
  discriminate.
Defined.

(** ** Searching for leads *)

Lemma slice0_length {A : Type} (e : Z) (l : list A) :
  length (slice0 e l)
  = Z.to_nat (if e <? 0 then Z.max (Z.of_nat (length l) + e) 0
              else Z.min e (Z.of_nat (length l))).
Proof.
  unfold slice0. rewrite length_firstn.
  destruct (Z.ltb_spec e 0); lia.
Qed.

Lemma slice0_prefix {A : Type} (e : Z) (l : list A) :
  exists rest, l = (slice0 e l ++ rest)%list.
Proof. unfold slice0. eexists. symmetry. apply firstn_skipn. Qed.

Lemma slice0_all {A : Type} (e : Z) (l : list A) :
  Z.of_nat (length l) <= e -> slice0 e l = l.
Proof.
  intros H. unfold slice0.
  destruct (Z.ltb_spec e 0); [lia|]. apply firstn_all2. lia.
Qed.

(** X15.  In mock mode xray_search answers the first leads of its list of
    three: all three when [count] is absent or 0 (0 is taken as absent), the
    first [min count 3] for a positive count, and all but the last [-count]
    for a negative count.  The demo server, whose default count is 3 and not
    5, returns the same leads for every count. *)
Theorem mock_search_counts_leads :
  forall (cfg : Config) (answer : string + list Lead) (roleId : string)
         (q : option (list string)) (count : option Z) (w : World),
    roleId <> "" ->
    Edge.xray_mock cfg = true ->
    exists leads,
      fst (Edge.xray_search cfg answer (post (Edge.mkXrayRequest (Some roleId) q count)) w)
      = ok (BLeads leads) /\
      (exists rest, Edge.mockLeads = (leads ++ rest)%list) /\
      (count = None \/ count = Some 0 -> leads = Edge.mockLeads) /\
      (forall k, count = Some k -> 0 < k -> length leads = Z.to_nat (Z.min k 3)) /\
      (forall k, count = Some k -> k < 0 -> length leads = Z.to_nat (Z.max (3 + k) 0)) /\
      (forall st, fst (Demo.handleXraySearch (Demo.mkXrayBody count) st) = ok (BLeads leads)).
Proof.
  intros cfg answer roleId q count w Hr Hm.
  exists (slice0 (num_or count 5) Edge.mockLeads).
  split; [now apply xray_search_mock_leads|].
  split; [apply slice0_prefix|].
  split; [|split; [|split]].
  - intros [->| ->]; reflexivity.
  - intros k -> Hk. rewrite slice0_length. unfold num_or.
    destruct (Z.eqb_spec k 0); [lia|].
    destruct (Z.ltb_spec k 0); [lia|]. reflexivity.
  - intros k -> Hk. rewrite slice0_length. unfold num_or.
    destruct (Z.eqb_spec k 0); [lia|].
    destruct (Z.ltb_spec k 0); [|lia]. reflexivity.
  - intros st. unfold Demo.handleXraySearch. cbn [fst Demo.xb_count].
    do 2 f_equal. destruct count as [k|]; [|reflexivity].
    unfold num_or. destruct (Z.eqb_spec k 0); reflexivity.
Qed.

Lemma mock_search_counts_leads_witness :
  exists leads,
    fst (Edge.xray_search no_keys (inl "unused")
           (post (Edge.mkXrayRequest (Some "role-1") None (Some (-1)))) (sample_world [] 5))
    = ok (BLeads leads) /\
    (exists rest, Edge.mockLeads = (leads ++ rest)%list) /\
    (Some (-1) = None \/ Some (-1) = Some 0 -> leads = Edge.mockLeads) /\
    (forall k, Some (-1) = Some k -> 0 < k -> length leads = Z.to_nat (Z.min k 3)) /\
    (forall k, Some (-1) = Some k -> k < 0 -> length leads = Z.to_nat (Z.max (3 + k) 0)) /\
    (forall st, fst (Demo.handleXraySearch (Demo.mkXrayBody (Some (-1))) st)
                = ok (BLeads leads)).
Proof.
  refine (mock_search_counts_leads no_keys (inl "unused") "role-1" None (Some (-1))
            (sample_world [] 5) _ eq_refl).
  discriminate.
Defined.

(** X16.  In live mode xray_search sends exactly one request to the search
    service and writes no table.  The query joins with [" OR "] the overrides
    of the request when there are any and otherwise the keywords stored with
    the role; the number of results asked for is [count] (5 when absent or 0)
    and never more than 10.  The leads that come back are answered as they
    are. *)
Theorem live_search_sends_one_query :
  forall (cfg : Config) (found : list Lead) (role : Role)
         (q : option (list string)) (count : option Z) (w : World),
    role_id role <> "" ->
    NoDup (map role_id (roles w)) -> In role (roles w) ->
    Edge.xray_mock cfg = false ->
    let kw := match q with Some q => q | None => role_keywords role end in
    let num := Z.min (num_or count 5) 10 in
    Edge.xray_search cfg (inr found)
      (post (Edge.mkXrayRequest (Some (role_id role)) q count)) w
    = (ok (BLeads found),
       mkWorld (roles w) (candidates w) (outreach w) (engagements w) (config w)
         (net w ++ [FetchGoogleCSE (String.concat " OR " kw) num]))
    /\ num <= 10.
Proof.
  intros cfg found role q count w Hr ND Hin Hm. cbv zeta.
  split; [|lia].
  enter_handler Edge.xray_search.
  cbn [Edge.xr_role_id Edge.xr_count Edge.query_overrides].
  rewrite (nonempty_intro _ Hr). unfold select_role.
  rewrite (filter_role_key role _ ND Hin). cbn [maybeSingle]. rewrite Hm.
  reflexivity.
Qed.

Lemma live_search_sends_one_query_witness :
  Edge.xray_search live_keys (inr []) (post (Edge.mkXrayRequest (Some "role-1") None (Some 50)))
    (sample_world [] 5)
  = (ok (BLeads []),
     mkWorld [sample_role 5] [] [] [] [] [FetchGoogleCSE "Node.js OR PostgreSQL" 10])
  /\ Z.min (num_or (Some 50) 5) 10 <= 10.
Proof.
  refine (live_search_sends_one_query live_keys [] (sample_role 5) None (Some 50)
            (sample_world [] 5) _ _ _ eq_refl).
  - discriminate.
  - repeat constructor. simpl. tauto.
  - simpl. tauto.
Defined.

(** ** Keywords of a job description *)

Lemma string_app_assoc (a b c : string) : (a ++ b) ++ c = a ++ b ++ c.
Proof. induction a as [|x a IH]; simpl; [reflexivity|]. now rewrite IH. Qed.

Lemma string_app_nil_r (a : string) : a ++ "" = a.
Proof. induction a as [|x a IH]; simpl; [reflexivity|]. now rewrite IH. Qed.

Lemma all_in_class_app a b :
  all_in_class (a ++ b) = all_in_class a && all_in_class b.
Proof.
  induction a as [|x a IH]; simpl; [reflexivity|]. now rewrite IH, andb_assoc.
Qed.

Lemma keyword_shape_grow acc c :
  keyword_shape acc -> Edge.in_class c = true -> keyword_shape (acc ++ String c "").
Proof.
  intros (c0 & rest & -> & U & N & C) Hc.
  exists c0, (rest ++ String c ""). repeat split; auto.
  - destruct rest; [congruence|discriminate].
  - rewrite all_in_class_app, C. simpl. now rewrite Hc.
Qed.

Lemma occurs_in_later k c s : occurs_in k s -> occurs_in k (String c s).
Proof. intros (b & a & ->). now exists (String c b), a. Qed.

Lemma occurs_in_after k p s : occurs_in k s -> occurs_in k (p ++ s).
Proof.
  intros (b & a & ->). exists (p ++ b), a. now rewrite string_app_assoc.
Qed.

(** Every word the scanner gives out has the shape of a keyword and occurs
    in the text, counted from what the scanner holds. *)
Lemma regex_words_sound s : forall st,
  scan_ok st ->
  Forall (fun k => keyword_shape k /\ occurs_in k (pending st ++ s))
    (Edge.regex_words st s).
Proof.
  induction s as [|c s IH]; intros st Hst.
  - destruct st as [p|c0|acc]; cbn; constructor; [|constructor].
    split; [exact Hst|]. exists "", "". cbn. now rewrite !string_app_nil_r.
  - destruct st as [p|c0|acc]; cbn [Edge.regex_words pending].
    + destruct (Edge.is_upper c && negb p) eqn:E.
      * apply andb_true_iff in E. destruct E as [U _].
        exact (IH (Edge.Opened c) U).
      * eapply Forall_impl; [|exact (IH (Edge.Idle (Edge.is_word c)) I)].
        cbn. intros k [K O]. split; [exact K|]. now apply occurs_in_later.
    + destruct (Edge.in_class c) eqn:E.
      * assert (K : scan_ok (Edge.Taking (String c0 (String c "")))).
        { exists c0, (String c ""). repeat split; auto; [discriminate|].
          simpl. now rewrite E. }
        exact (IH _ K).
      * eapply Forall_impl; [|exact (IH (Edge.Idle (Edge.is_word c)) I)].
        cbn. intros k [K O]. split; [exact K|].
        now apply occurs_in_later, occurs_in_later.
    + destruct (Edge.in_class c) eqn:E.
      * pose proof (IH (Edge.Taking (acc ++ String c ""))
                      (keyword_shape_grow acc c Hst E)) as F.
        eapply Forall_impl; [|exact F]. cbn. intros k [K O]. split; [exact K|].
        now rewrite string_app_assoc in O.
      * constructor.
        -- split; [exact Hst|]. exists "", (String c s). reflexivity.
        -- eapply Forall_impl; [|exact (IH (Edge.Idle (Edge.is_word c)) I)].
           cbn. intros k [K O]. split; [exact K|].
           now apply occurs_in_after, occurs_in_later.
Qed.

(** X17.  The keywords the mock parser takes from a job description are at
    most five; each of them occurs in the text, begins with a capital letter
    A-Z, and goes on with one or more letters, digits, dots or plus signs.
    The other fields of the parsed description do not depend on the text. *)
Theorem mock_keywords_come_from_the_text :
  forall (jd : string),
    (length (Edge.keywords (Edge.mockParse jd)) <= 5)%nat /\
    Forall (fun k => keyword_shape k /\ occurs_in k jd) (Edge.keywords (Edge.mockParse jd)) /\
    Edge.mockParse jd
    = Edge.mkParsedJD "Unknown Title" "" "Mid" [] [] [] (Edge.keywords (Edge.mockParse jd))
        "An ideal candidate should have relevant experience.".
Proof.
  intros jd. unfold Edge.mockParse. cbn [Edge.keywords].
  split; [rewrite length_firstn; lia|]. split; [|reflexivity].
  pose proof (regex_words_sound jd (Edge.Idle false) I) as F. cbn [pending] in F.
  rewrite <- (firstn_skipn 5 (Edge.regex_words (Edge.Idle false) jd)) in F.
  apply Forall_app in F. exact (proj1 F).
Qed.

Example mock_keywords_of_a_posting :
  Edge.keywords (Edge.mockParse
    "We need a Senior engineer: Node.js, C++ and PostgreSQL; AWS is a plus. A B_Tree fan.")
  = ["We"; "Senior"; "Node.js"; "C++"; "PostgreSQL"].
Proof. reflexivity. Qed.

Lemma update_role_rows_ids i kw rs :
  map role_id (map (fun r => if (role_id r =? i)%string
                             then mkRole (role_id r) (role_title r) kw
                                    (role_status r) (min_pipeline r)
                             else r) rs)
  = map role_id rs.
Proof.
  rewrite map_map. apply map_ext. intros r. now destruct (role_id r =? i)%string.
Qed.

(** What parse_jd does with a description it could parse. *)
Lemma parse_jd_parsed cfg res roleId jd w :
  jd <> "" ->
  let parsed := if Edge.parse_mock cfg then Edge.mockParse jd else res in
  let w1 := if Edge.parse_mock cfg then w
            else mkWorld (roles w) (candidates w) (outreach w) (engagements w)
                   (config w) (net w ++ [FetchOpenAI jd]) in
  Edge.parse_jd cfg (inr res) (post (Edge.mkParseJDRequest roleId (Some jd))) w
  = (accept (parsed, Edge.keywords parsed),
     match nonempty roleId with
     | Some i => snd (update_role_keywords i (Edge.keywords parsed) w1)
     | None => w1
     end).
Proof.
  intros Hj. cbv zeta. enter_handler Edge.parse_jd.
  cbn [Edge.jd_text Edge.pr_roleId]. rewrite (nonempty_intro jd Hj).
  destruct (Edge.parse_mock cfg).
  - destruct (nonempty roleId); reflexivity.
  - unfold Edge.parse_callOpenAI, bind, fetch, ret.
    destruct (nonempty roleId); reflexivity.
Qed.

(** The role named in the request, as parse_jd leaves it. *)
Lemma parse_jd_selects_role cfg res jd (role : Role) w :
  jd <> "" -> role_id role <> "" ->
  NoDup (map role_id (roles w)) -> In role (roles w) ->
  let parsed := if Edge.parse_mock cfg then Edge.mockParse jd else res in
  let r := Edge.parse_jd cfg (inr res)
             (post (Edge.mkParseJDRequest (Some (role_id role)) (Some jd))) w in
  fst (select_role (role_id role) (snd r))
  = Some (with_keywords (Edge.keywords parsed) role).
Proof.
  intros Hj Hr ND Hin. cbv zeta.
  rewrite (parse_jd_parsed cfg res (Some (role_id role)) jd w Hj).
  rewrite (nonempty_intro _ Hr).
  set (w1 := if Edge.parse_mock cfg then w else _).
  assert (Er : roles w1 = roles w) by (subst w1; now destruct (Edge.parse_mock cfg)).
  unfold update_role_keywords, select_role. cbn [fst snd roles]. rewrite Er.
  rewrite filter_map_same.
  - rewrite (filter_role_key role _ ND Hin). cbn [map maybeSingle].
    now rewrite String.eqb_refl.
  - intros r. destruct (role_id r =? role_id role)%string eqn:E; cbn; now rewrite E.
Qed.

(** X18.  parse_jd answers the parsed description together with its
    keywords.  Given the identifier of a role, it replaces the keywords
    stored with that role by those of the description and touches no other
    role and no other table; given no identifier (or an empty one), it writes
    nothing.  In mock mode it asks no collaborator. *)
Theorem parse_jd_stores_keywords :
  forall (cfg : Config) (res : Edge.ParsedJD) (jd : string) (w : World),
    jd <> "" ->
    let parsed := if Edge.parse_mock cfg then Edge.mockParse jd else res in
    (forall role,
        role_id role <> "" ->
        NoDup (map role_id (roles w)) -> In role (roles w) ->
        let r := Edge.parse_jd cfg (inr res)
                   (post (Edge.mkParseJDRequest (Some (role_id role)) (Some jd))) w in
        fst r = accept (parsed, Edge.keywords parsed) /\
        fst (select_role (role_id role) (snd r))
        = Some (with_keywords (Edge.keywords parsed) role) /\
        (forall other, In other (roles w) -> role_id other <> role_id role ->
                       In other (roles (snd r))) /\
        map role_id (roles (snd r)) = map role_id (roles w) /\
        candidates (snd r) = candidates w /\ outreach (snd r) = outreach w /\
        engagements (snd r) = engagements w /\ config (snd r) = config w /\
        (Edge.parse_mock cfg = true -> net (snd r) = net w)) /\
    (forall roleId,
        truthy roleId = false ->
        let r := Edge.parse_jd cfg (inr res)
                   (post (Edge.mkParseJDRequest roleId (Some jd))) w in
        fst r = accept (parsed, Edge.keywords parsed) /\
        roles (snd r) = roles w /\ candidates (snd r) = candidates w /\
        (Edge.parse_mock cfg = true -> snd r = w)).
Proof.
  intros cfg res jd w Hj. cbv zeta. split.
  - intros role Hr ND Hin.
    rewrite (parse_jd_parsed cfg res (Some (role_id role)) jd w Hj).
    rewrite (nonempty_intro _ Hr). cbn [fst].
    set (kw := Edge.keywords _).
    set (w1 := if Edge.parse_mock cfg then w else _).
    assert (Er : roles w1 = roles w) by (subst w1; now destruct (Edge.parse_mock cfg)).
    assert (Ec : candidates w1 = candidates w /\ outreach w1 = outreach w /\
                 engagements w1 = engagements w /\ config w1 = config w)
      by (subst w1; now destruct (Edge.parse_mock cfg)).
    unfold update_role_keywords, select_role. cbn [fst snd roles candidates outreach
      engagements config net].
    rewrite Er. split; [reflexivity|]. split; [|split; [|split]].
    + pose proof (parse_jd_selects_role cfg res jd role w Hj Hr ND Hin) as S.
      cbv zeta in S.
      rewrite (parse_jd_parsed cfg res (Some (role_id role)) jd w Hj) in S.
      rewrite (nonempty_intro _ Hr) in S. fold kw w1 in S.
      unfold update_role_keywords, select_role in S. cbn [fst snd roles] in S.
      rewrite Er in S. exact S.
    + intros other Ho Hd. apply in_map_iff. exists other. split; [|exact Ho].
      now rewrite (proj2 (String.eqb_neq _ _) Hd).
    + apply update_role_rows_ids.
    + destruct Ec as (E1 & E2 & E3 & E4). repeat split; auto.
      intros M. subst w1. now rewrite M.
  - intros roleId Hn.
    rewrite (parse_jd_parsed cfg res roleId jd w Hj), (nonempty_None _ Hn). cbn [fst snd].
    destruct (Edge.parse_mock cfg); now repeat split.
Qed.

Lemma parse_jd_stores_keywords_witness :
  let r := Edge.parse_jd no_keys (inr (Edge.mockParse ""))
             (post (Edge.mkParseJDRequest (Some "role-1") (Some "We use Rust and Go")))
             (sample_world [] 5) in
  fst (select_role "role-1" (snd r))
  = Some (with_keywords ["We"; "Rust"; "Go"] (sample_role 5)).
Proof.
  refine (proj1 (proj2 (proj1 (parse_jd_stores_keywords no_keys (Edge.mockParse "")
            "We use Rust and Go" (sample_world [] 5) _) (sample_role 5) _ _ _))).
  - discriminate.
  - discriminate.
  - repeat constructor. simpl. tauto.
  - simpl. tauto.
Defined.

(** X19.  Parsing, then searching: after parse_jd has stored the keywords
    of a description with a role, a live xray_search for that role without
    overrides queries the search service for exactly these keywords, joined
    with [" OR "]. *)
Theorem search_uses_parsed_keywords :
  forall (cfg : Config) (res : Edge.ParsedJD) (found : list Lead) (jd : string)
         (role : Role) (count : option Z) (w : World),
    jd <> "" -> role_id role <> "" ->
    NoDup (map role_id (roles w)) -> In role (roles w) ->
    Edge.xray_mock cfg = false ->
    let parsed := if Edge.parse_mock cfg then Edge.mockParse jd else res in
    let w1 := snd (Edge.parse_jd cfg (inr res)
                     (post (Edge.mkParseJDRequest (Some (role_id role)) (Some jd))) w) in
    let r := Edge.xray_search cfg (inr found)
               (post (Edge.mkXrayRequest (Some (role_id role)) None count)) w1 in
    fst r = ok (BLeads found) /\
    net (snd r)
    = (net w1 ++ [FetchGoogleCSE (String.concat " OR " (Edge.keywords parsed))
                    (Z.min (num_or count 5) 10)])%list.
Proof.
  intros cfg res found jd role count w Hj Hr ND Hin Hm. cbv zeta.
  pose proof (parse_jd_selects_role cfg res jd role w Hj Hr ND Hin) as S.
  cbv zeta in S.
  set (w1 := snd (Edge.parse_jd _ _ _ _)) in *.
  enter_handler Edge.xray_search.
  cbn [Edge.xr_role_id Edge.xr_count Edge.query_overrides].
  rewrite (nonempty_intro _ Hr).
  unfold select_role in *. cbn [fst] in S. rewrite S, Hm.
  unfold Edge.searchGoogle, bind, fetch, ret. cbn [fst snd net with_keywords role_keywords].
  now split.
Qed.

Lemma search_uses_parsed_keywords_witness :
  let w1 := snd (Edge.parse_jd live_keys (inr (Edge.mockParse "We use Rust and Go"))
                   (post (Edge.mkParseJDRequest (Some "role-1") (Some "ignored by the parser")))
                   (sample_world [] 5)) in
  let r := Edge.xray_search live_keys (inr [])
             (post (Edge.mkXrayRequest (Some "role-1") None None)) w1 in
  fst r = ok (BLeads []) /\
  net (snd r) = (net w1 ++ [FetchGoogleCSE "We OR Rust OR Go" 5])%list.
Proof.
  refine (search_uses_parsed_keywords live_keys (Edge.mockParse "We use Rust and Go") []
            "ignored by the parser" (sample_role 5) None (sample_world [] 5)
            _ _ _ _ eq_refl).
  - discriminate.
  - discriminate.
  - repeat constructor. simpl. tauto.
  - simpl. tauto.
Defined.

(** ** Exporting the shortlist *)

(** X20.  export_shortlist writes nothing and asks no collaborator.  For the
    format csv (the default) the exported file has the header line and then
    one line per candidate of the role whose status is interested, screened
    or interviewing, and no line for any other candidate; the answer is the
    data URI of its base64 form, or 500 when [btoa] throws.  For any other
    format the answer is an empty URL. *)
Theorem export_lists_the_shortlist :
  forall (bi : Builtins) (roleId : string) (fmt : option string) (w : World),
    roleId <> "" ->
    let r := Edge.export_shortlist bi (post (Edge.mkExportRequest (Some roleId) fmt)) w in
    snd r = w /\
    (str_or fmt "csv" <> "csv" -> fst r = accept "") /\
    (str_or fmt "csv" = "csv" ->
     exists rows,
       (forall c, In c rows <->
                  In c (candidates w) /\ cand_role_id c = roleId /\
                  (cand_status c = interested \/ cand_status c = screened \/
                   cand_status c = interviewing)) /\
       fst r = match btoa bi (String.concat Edge.nl
                                (Edge.csv_header :: map Edge.csv_line rows)) with
               | Some b64 => accept ("data:text/csv;base64," ++ b64)
               | None => reject 500 "Internal Server Error"
               end).
Proof.
  intros bi roleId fmt w Hr. cbv zeta.
  enter_handler Edge.export_shortlist. cbn [Edge.ex_role_id Edge.ex_format].
  rewrite (nonempty_intro roleId Hr). unfold select_shortlist.
  set (rows := filter _ (candidates w)).
  destruct (String.eqb_spec (str_or fmt "csv") "csv") as [E|E].
  - split; [now destruct (btoa bi _)|]. split; [congruence|].
    intros _. exists rows. split; [|now destruct (btoa bi _)].
    intros c. subst rows. rewrite filter_In, andb_true_iff, String.eqb_eq.
    unfold shortlist_status. split.
    + intros (Hin & Hrole & Hs). repeat split; auto.
      destruct (cand_status c); try discriminate; auto.
    + intros (Hin & Hrole & [Hs|[Hs|Hs]]); rewrite Hs; now repeat split.
  - split; [reflexivity|]. split; [reflexivity|]. congruence.
Qed.

Lemma export_lists_the_shortlist_witness :
  let w := sample_world [sample_candidate "c1" interested; sample_candidate "c2" rejected] 5 in
  let r := Edge.export_shortlist plain_builtins
             (post (Edge.mkExportRequest (Some "role-1") (Some "pdf"))) w in
  fst r = accept "".
Proof.
  refine (proj1 (proj2 (export_lists_the_shortlist plain_builtins "role-1" (Some "pdf")
            (sample_world [sample_candidate "c1" interested;
                           sample_candidate "c2" rejected] 5) _)) _);
    discriminate.
Defined.

(** The file, before it is encoded ([btoa] taken as the identity). *)
Example export_of_two_candidates :
  fst (Edge.export_shortlist plain_builtins
         (post (Edge.mkExportRequest (Some "role-1") None))
         (sample_world [sample_candidate "c1" interested;
                        sample_candidate "c2" rejected] 5))
  = accept ("data:text/csv;base64,name,company,title,location,fit_score" ++ Edge.nl
            ++ "Alice Johnson,TechCorp,Software Engineer,Austin, TX,80").
Proof. reflexivity. Qed.

(** ** The fit score of mock screening *)

(** X21.  The fit score of mock screening is the weighted sum
    [20 * culture + 15 * technical + 15 * experience] plus 0 to 19 points,
    capped at 100: it is never below 50, and it is 100 whenever the weighted
    sum reaches 100. *)
Theorem mock_fit_follows_subscores :
  forall (d : Edge.Draws),
    valid_draws d ->
    let r := Edge.mockScreen d in
    let s := 20 * sr_culture_score r + 15 * sr_technical_score r
             + 15 * sr_experience_score r in
    50 <= sr_fit_score r /\
    Z.min 100 s <= sr_fit_score r <= Z.min 100 (s + 19) /\
    (100 <= s -> sr_fit_score r = 100).
Proof.
  intros d (Hc & Ht & He & Hf). cbv zeta.
  pose proof (rand_bounds _ Hc). pose proof (rand_bounds _ Ht).
  pose proof (rand_bounds _ He).
  pose proof (floor_mul_bounds _ 20 eq_refl Hf).
  unfold Edge.mockScreen.
  cbn [sr_culture_score sr_technical_score sr_experience_score sr_fit_score].
  lia.
Qed.

Lemma mock_fit_follows_subscores_witness :
  let r := Edge.mockScreen half_draws in
  let s := 20 * sr_culture_score r + 15 * sr_technical_score r
           + 15 * sr_experience_score r in
  50 <= sr_fit_score r /\
  Z.min 100 s <= sr_fit_score r <= Z.min 100 (s + 19) /\
  (100 <= s -> sr_fit_score r = 100).
Proof. exact (mock_fit_follows_subscores half_draws half_draws_valid). Defined.

(** ** What the daemon looks at *)

Lemma depth_by_role_ids i cs :
  depth i cs
  = Z.of_nat (length (filter (fun r => (r =? i)%string) (map cand_role_id cs))).
Proof.
  unfold depth. induction cs as [|c cs IH]; [reflexivity|].
  cbn [map filter]. destruct (cand_role_id c =? i)%string; cbn [length]; lia.
Qed.

Lemma daemon_role_same_log env n role w w' :
  config w = config w' ->
  map cand_role_id (candidates w) = map cand_role_id (candidates w') ->
  let a := snd (Edge.daemon_role env n role w) in
  let b := snd (Edge.daemon_role env n role w') in
  config a = config b /\ candidates a = candidates w /\ candidates b = candidates w'.
Proof.
  intros Ec Er. cbv zeta. unfold Edge.daemon_role.
  destruct (Edge.count_error env n); [now repeat split|].
  unfold bind, count_candidates. rewrite !num_or_count.
  fold (depth (role_id role) (candidates w)) (depth (role_id role) (candidates w')).
  rewrite (depth_by_role_ids _ (candidates w)), (depth_by_role_ids _ (candidates w')), Er.
  destruct (_ <? _); [|now repeat split].
  unfold insert_config. cbn [snd config candidates cfg_role cfg_time]. rewrite Ec.
  now repeat split.
Qed.

Lemma daemon_roles_same_log env rs : forall n w w',
  config w = config w' ->
  map cand_role_id (candidates w) = map cand_role_id (candidates w') ->
  config (snd (Edge.daemon_roles env n rs w))
  = config (snd (Edge.daemon_roles env n rs w')).
Proof.
  induction rs as [|r rs IH]; intros n w w' Ec Er; cbn [Edge.daemon_roles].
  - exact Ec.
  - unfold bind.
    destruct (daemon_role_same_log env n r w w' Ec Er) as (C & A & B).
    destruct (Edge.daemon_role env n r w) as [u a].
    destruct (Edge.daemon_role env n r w') as [u' b]. cbn [snd] in *.
    apply IH; [exact C|]. now rewrite A, B.
Qed.

(** X22.  Of the candidates the daemon reads nothing but the role they
    belong to: two states with the same roles and the same log, whose
    candidates belong to the same roles in the same order, get the same log
    rows.  So the status of a candidate plays no part: rejected and hired
    candidates fill the pipeline as any other. *)
Theorem daemon_counts_every_status :
  forall (env : Edge.CycleEnv) (w w' : World),
    roles w = roles w' ->
    config w = config w' ->
    map cand_role_id (candidates w) = map cand_role_id (candidates w') ->
    config (snd (Edge.pipeline_daemon env w)) = config (snd (Edge.pipeline_daemon env w')).
Proof.
  intros env w w' Er Ec Ei. unfold Edge.pipeline_daemon, bind, select_open_roles.
  rewrite Er.
  pose proof (daemon_roles_same_log env
                (filter (fun r => match role_status r with role_open => true | _ => false end)
                   (roles w')) 0%nat w w' Ec Ei) as H.
  destruct (Edge.daemon_roles env 0 _ w) as [u a].
  destruct (Edge.daemon_roles env 0 _ w') as [u' b]. exact H.
Qed.

Lemma daemon_counts_every_status_witness :
  config (snd (Edge.pipeline_daemon (Edge.mkCycleEnv (fun _ => false) (fun _ => 42))
                 (sample_world [sample_candidate "c1" sourced] 2)))
  = config (snd (Edge.pipeline_daemon (Edge.mkCycleEnv (fun _ => false) (fun _ => 42))
                   (sample_world [sample_candidate "c1" rejected] 2))).
Proof.
  exact (daemon_counts_every_status (Edge.mkCycleEnv (fun _ => false) (fun _ => 42))
           (sample_world [sample_candidate "c1" sourced] 2)
           (sample_world [sample_candidate "c1" rejected] 2) eq_refl eq_refl eq_refl).
Defined.

Lemma daemon_role_full env n role w :
  num_or (min_pipeline role) 0 <= depth (role_id role) (candidates w) ->
  Edge.daemon_role env n role w = (tt, w).
Proof.
  intros H. unfold Edge.daemon_role. destruct (Edge.count_error env n); [reflexivity|].
  unfold bind, count_candidates. rewrite num_or_count.
  fold (depth (role_id role) (candidates w)).
  now rewrite (proj2 (Z.ltb_ge _ _) H).
Qed.

Lemma daemon_roles_full env rs : forall n w,
  Forall (fun role => num_or (min_pipeline role) 0
                      <= depth (role_id role) (candidates w)) rs ->
  Edge.daemon_roles env n rs w = (tt, w).
Proof.
  induction rs as [|r rs IH]; intros n w F; cbn [Edge.daemon_roles]; [reflexivity|].
  inversion F; subst. unfold bind. rewrite daemon_role_full by assumption.
  now apply IH.
Qed.

(** X23.  When every open role has at least [min_pipeline] candidates, a
    role without [min_pipeline] counting as one that asks for none, a cycle of
    the daemon answers success and changes nothing at all.  Roles that are
    paused or closed are not looked at. *)
Theorem full_pipeline_cycle_is_idle :
  forall (env : Edge.CycleEnv) (w : World),
    (forall role, In role (roles w) -> role_status role = role_open ->
                  num_or (min_pipeline role) 0 <= depth (role_id role) (candidates w)) ->
    Edge.pipeline_daemon env w = (ok BSuccess, w).
Proof.
  intros env w H. unfold Edge.pipeline_daemon, bind, select_open_roles.
  rewrite daemon_roles_full; [reflexivity|].
  apply Forall_forall. intros role Hin. apply filter_In in Hin.
  destruct Hin as [Hin Ho]. apply H; [exact Hin|].
  destruct (role_status role); congruence.
Qed.

Lemma full_pipeline_cycle_is_idle_witness :
  Edge.pipeline_daemon (Edge.mkCycleEnv (fun _ => false) (fun _ => 42))
    (sample_world [sample_candidate "c1" hired] 1)
  = (ok BSuccess, sample_world [sample_candidate "c1" hired] 1).
Proof.
  refine (full_pipeline_cycle_is_idle (Edge.mkCycleEnv (fun _ => false) (fun _ => 42))
            (sample_world [sample_candidate "c1" hired] 1) _).
  intros role [<-|[]] _. vm_compute. discriminate.
Defined.

(** ** The demo server and the edge functions *)

Lemma assign_status_by_key i s cs :
  NoDup (map cand_id cs) ->
  Demo.assign_status (id_is i) s cs = update_status_rows i s cs.
Proof.
  induction cs as [|c cs IH]; intros ND; [reflexivity|].
  inversion ND as [|? ? Hc ND']; subst. cbn.
  destruct (id_is i c) eqn:E.
  - f_equal. symmetry. apply update_status_rows_absent.
    apply not_true_is_false. intros X. apply existsb_exists in X.
    destruct X as (y & Hy & Ey). unfold id_is in *.
    apply String.eqb_eq in E, Ey. apply Hc. rewrite E, <- Ey. now apply in_map.
  - f_equal. now apply IH.
Qed.

Lemma send_sequence_unknown cfg now fresh cid w :
  cid <> "" -> candidate_exists cid w = false ->
  snd (Edge.send_sequence cfg now fresh (post (Edge.mkSendSequenceRequest (Some cid))) w)
  = w.
Proof.
  intros Hc Hx. enter_handler Edge.send_sequence.
  cbn [Edge.ss_candidate_id]. rewrite (nonempty_intro cid Hc).
  unfold select_candidate. unfold candidate_exists in Hx.
  now rewrite (filter_absent _ _ Hx).
Qed.

(** X24.  On candidate rows whose identifiers are distinct, the demo server
    does to the candidates what the edge functions do: after a webhook event,
    a sequence send or a meeting scheduling for the same candidate identifier,
    the candidate rows of the demo store and of the database are the same,
    whether or not the candidate exists. *)
Theorem demo_server_matches_edge_functions :
  forall (w : World) (st : Demo.Store) (cid ev : string),
    Demo.s_candidates st = candidates w ->
    NoDup (map cand_id (candidates w)) ->
    cid <> "" ->
    Demo.s_candidates (snd (Demo.handleIngestWebhook (webhook cid ev) st))
    = candidates (snd (Edge.ingest_webhook (post (webhook cid ev)) w))
    /\
    (forall cfg now fresh,
        Demo.s_candidates (snd (Demo.handleSendSequence (Demo.mkCandidateBody (Some cid)) st))
        = candidates (snd (Edge.send_sequence cfg now fresh
                             (post (Edge.mkSendSequenceRequest (Some cid))) w)))
    /\
    Demo.s_candidates (snd (Demo.handleScheduleMeeting (Demo.mkCandidateBody (Some cid)) st))
    = candidates (snd (Edge.schedule_meeting (post (Edge.mkScheduleRequest (Some cid))) w)).
Proof.
  intros w st cid ev Es ND Hc. split; [|split].
  - unfold Demo.handleIngestWebhook, Demo.push_engagement, Demo.with_candidates, webhook.
    cbn [snd Demo.s_candidates wp_candidate_id wp_event Demo.event_is].
    change (Demo.is_candidate (Some cid)) with (id_is cid). rewrite Es.
    destruct (String.eqb_spec ev "") as [->|He].
    + enter_handler Edge.ingest_webhook.
      cbn [wp_candidate_id wp_recipient_id wp_event wp_type].
      rewrite (nonempty_js_or_left cid None Hc). reflexivity.
    + fold (webhook cid ev). rewrite (ingest_webhook_candidates cid ev w Hc He).
      unfold Edge.newStatus.
      destruct (String.eqb_spec ev "replied") as [->|Hr];
        [simpl String.eqb; cbv iota; now rewrite assign_status_by_key|].
      destruct (String.eqb_spec ev "opened") as [->|Ho];
        [simpl String.eqb; cbv iota; now rewrite assign_status_by_key|].
      destruct (String.eqb_spec ev "bounced") as [->|Hb];
        [simpl String.eqb; cbv iota; now rewrite assign_status_by_key|].
      reflexivity.
  - intros cfg now fresh.
    unfold Demo.handleSendSequence, Demo.push_engagement, Demo.with_candidates.
    cbn [snd Demo.s_candidates Demo.cb_candidate_id].
    change (Demo.is_candidate (Some cid)) with (id_is cid).
    rewrite Es, (assign_status_by_key cid contacted _ ND).
    destruct (candidate_exists cid w) eqn:X.
    + apply existsb_exists in X. destruct X as (c & Hin & Ec).
      apply String.eqb_eq in Ec. subst cid.
      now destruct (send_sequence_candidates cfg now fresh c w Hc ND Hin) as [_ ->].
    + rewrite (send_sequence_unknown cfg now fresh cid w Hc X).
      now apply update_status_rows_absent.
  - unfold Demo.handleScheduleMeeting, Demo.push_engagement, Demo.with_candidates.
    cbn [snd Demo.s_candidates Demo.cb_candidate_id].
    change (Demo.is_candidate (Some cid)) with (id_is cid).
    rewrite Es, (assign_status_by_key cid interviewing _ ND).
    now rewrite (schedule_meeting_candidates cid w Hc).
Qed.

Lemma demo_server_matches_edge_functions_witness :
  let w := sample_world [sample_candidate "c1" sourced; sample_candidate "c2" hired] 5 in
  let st := Demo.mkStore (candidates w) [] [] in
  Demo.s_candidates (snd (Demo.handleScheduleMeeting (Demo.mkCandidateBody (Some "c2")) st))
  = candidates (snd (Edge.schedule_meeting (post (Edge.mkScheduleRequest (Some "c2"))) w)).
Proof.
  refine (proj2 (proj2 (demo_server_matches_edge_functions
            (sample_world [sample_candidate "c1" sourced; sample_candidate "c2" hired] 5)
            (Demo.mkStore [sample_candidate "c1" sourced; sample_candidate "c2" hired] [] [])
            "c2" "opened" eq_refl _ _))).
  - repeat constructor; simpl; intuition discriminate.
  - discriminate.
Defined.
